(** * The asynchronous task manager of fish-speech

    A shallow embedding of [tools/server/task_manager.py] (the classes
    [TaskStatus], [AsyncTask] and [TaskManager]) and of the part of
    [tools/server/views.py] that drives it.

    - Task objects live in a heap and are shared by reference between the
      registry ([self.tasks]) and the worker thread that [start_task] spawns.
    - The body of [run_task] is a program-counter machine with one step per
      source statement, so that other threads can be interleaved between
      any two statements of a worker.
    - The operations of [TaskManager] run under [self.lock]; each call is one
      step of the interleaving, so no statement of a worker (which does
      not take the lock) is placed inside a call.
    - Clock readings ([time.time()]) are integers, in an arbitrary unit that
      [max_age_seconds] shares; floating-point rounding is not modelled.
    - [update_reference] of [tools/server/views.py] is embedded apart, on
      strings of code points, with the [re] pattern it matches as data. *)

From stdpp Require Import gmap strings list fin_maps pretty.
From Stdlib Require Import ZArith.

(** ** Exceptions *)

(** A raised Python exception: its class name and [str(e)].  Only instances
    of [Exception] are modelled. *)
Record PyExc := mkExc { exc_class : string; exc_str : string }.

Inductive Exc (A : Type) : Type :=
| Ok (a : A)
| Raised (e : PyExc).
Arguments Ok {A} a.
Arguments Raised {A} e.

Definition ValueError (msg : string) : PyExc := mkExc "ValueError" msg.
Definition FileNotFoundError (path : string) : PyExc :=
  mkExc "FileNotFoundError" ("[Errno 2] No such file or directory: '" +:+ path +:+ "'").

Definition is_ValueError (e : PyExc) : bool := String.eqb (exc_class e) "ValueError".

(** ** Data model *)

Inductive TaskStatus := PENDING | RUNNING | COMPLETED | FAILED | CANCELLED.

#[global] Instance TaskStatus_eq_dec : EqDecision TaskStatus.
Proof. solve_decision. Defined.

(** [TaskStatus.value] *)
Definition status_value (s : TaskStatus) : string :=
  match s with
  | PENDING => "pending"
  | RUNNING => "running"
  | COMPLETED => "completed"
  | FAILED => "failed"
  | CANCELLED => "cancelled"
  end.

Definition terminal (s : TaskStatus) : Prop :=
  s = COMPLETED ∨ s = FAILED ∨ s = CANCELLED.

#[global] Instance terminal_dec s : Decision (terminal s).
Proof. unfold terminal. apply _. Defined.

Definition bytes := list Byte.byte.

(** A numpy array of samples. *)
Definition ndarray := list Z.

(** The fields of [ServeTTSRequest] that the task manager reads. *)
Record ServeTTSRequest := mkRequest { text : string; format : string }.

(** [AsyncTask]; the [threading.Event] field [cancelled] is a boolean that is
    only ever set, and the [thread] field is the [threads] map of [World]. *)
Record AsyncTask := mkTask {
  step_id : string;
  request : ServeTTSRequest;
  status : TaskStatus;
  created_at : Z;
  started_at : option Z;
  completed_at : option Z;
  error_message : option string;
  result_path : option string;
  cancelled : bool;
}.

Definition with_status (s : TaskStatus) (t : AsyncTask) : AsyncTask :=
  mkTask (step_id t) (request t) s (created_at t) (started_at t) (completed_at t)
         (error_message t) (result_path t) (cancelled t).
Definition with_started_at (x : option Z) (t : AsyncTask) : AsyncTask :=
  mkTask (step_id t) (request t) (status t) (created_at t) x (completed_at t)
         (error_message t) (result_path t) (cancelled t).
Definition with_completed_at (x : option Z) (t : AsyncTask) : AsyncTask :=
  mkTask (step_id t) (request t) (status t) (created_at t) (started_at t) x
         (error_message t) (result_path t) (cancelled t).
Definition with_error_message (x : option string) (t : AsyncTask) : AsyncTask :=
  mkTask (step_id t) (request t) (status t) (created_at t) (started_at t) (completed_at t)
         x (result_path t) (cancelled t).
Definition with_result_path (x : option string) (t : AsyncTask) : AsyncTask :=
  mkTask (step_id t) (request t) (status t) (created_at t) (started_at t) (completed_at t)
         (error_message t) x (cancelled t).
Definition cancelled_set (t : AsyncTask) : AsyncTask :=
  mkTask (step_id t) (request t) (status t) (created_at t) (started_at t) (completed_at t)
         (error_message t) (result_path t) true.

(** [AsyncTask.__init__] *)
Definition AsyncTask_init (step_id : string) (request : ServeTTSRequest) (now : Z) : AsyncTask :=
  mkTask step_id request PENDING now None None None None false.

(** [AsyncTask.cancel] *)
Definition cancel (t : AsyncTask) : AsyncTask :=
  let t := cancelled_set t in
  if decide (status t = PENDING) then with_status CANCELLED t
  else if decide (status t = RUNNING) then with_status CANCELLED t
  else t.

(** Truth value of an [Optional[str]]: [None] and the empty string are false. *)
Definition truthy (o : option string) : bool :=
  match o with
  | Some s => negb (String.eqb s "")
  | None => false
  end.

(** ** The file system, as far as the task manager touches it *)

(** [files] are the paths that exist; [deny_unlink] and [deny_write] give the
    paths on which [os.unlink], respectively [open(path, "wb")], fails, with
    the message of the [OSError]. *)
Record FileSystem := mkFS {
  files : gmap string bytes;
  deny_unlink : gmap string string;
  deny_write : gmap string string;
}.

Definition os_path_exists (p : string) (f : FileSystem) : bool :=
  bool_decide (is_Some (files f !! p)).

Definition os_unlink (p : string) (f : FileSystem) : Exc FileSystem :=
  match files f !! p with
  | None => Raised (FileNotFoundError p)
  | Some _ =>
      match deny_unlink f !! p with
      | Some msg => Raised (mkExc "OSError" msg)
      | None => Ok (mkFS (delete p (files f)) (deny_unlink f) (deny_write f))
      end
  end.

(** [with open(p, "wb") as f: f.write(data)] *)
Definition write_file (p : string) (data : bytes) (f : FileSystem) : Exc FileSystem :=
  match deny_write f !! p with
  | Some msg => Raised (mkExc "OSError" msg)
  | None => Ok (mkFS (<[p := data]> (files f)) (deny_unlink f) (deny_write f))
  end.

(** ** Log records, one constructor per [logger] call of the source *)

Inductive LogRecord :=
| InfoInitialized (dir : string)
| InfoCreated (id : string)
| InfoCompleted (id : string) (elapsed : option Z)
| ErrorFailed (id : string) (e : option PyExc)
| WarnDeleteWorker (e : PyExc)
| InfoCancelled (id : string)
| InfoCancelledCount (count : nat)
| WarnDeleteSweep (path : option string) (e : PyExc)
| InfoCleaned (cleaned : nat)
| ErrorAsyncGeneration (e : PyExc).

(** ** The inference engine and the other external collaborators *)

(** What [inference(task.request, engine)] yields: [bytes] for a segment, a
    numpy array for the final merged audio. *)
Inductive InferenceResult :=
| Segment (b : bytes)
| Final (a : ndarray).

(** One resumption of the generator: it yields a result or raises; the end
    of the list is [StopIteration]. *)
Inductive GenEvent :=
| Yield (r : InferenceResult)
| Throw (e : PyExc).

Record TTSInferenceEngine := mkEngine {
  sample_rate : Z;
  inference : ServeTTSRequest → list GenEvent;
}.

Record AsyncGenerateRequest := mkAsyncReq {
  req_step_id : string;
  req_text : string;
  req_format : string;
}.

(** Library functions the source calls, taken as parameters:
    [sf_write a rate fmt] is the content [sf.write] leaves in the buffer,
    [path_str dir name] is [str(dir / name)], and [make_request] is the
    (validating) constructor call [ServeTTSRequest(...)] of the façade. *)
Record Externals := mkExt {
  sf_write : ndarray → Z → string → Exc bytes;
  path_str : string → string → string;
  make_request : AsyncGenerateRequest → Exc ServeTTSRequest;
}.

(** ** Worker threads *)

Definition loc := nat.

(** Program points of [run_task], named after the source line of the
    statement that is executed next. *)
Inductive PC :=
| L117 (* task.status = TaskStatus.RUNNING *)
| L118 (* task.started_at = time.time() *)
| L121 (* if task.cancelled.is_set(): *)
| L122 (* task.status = TaskStatus.CANCELLED; return *)
| L128 (* audio_data = None *)
| L129 (* sample_rate = engine.decoder_model.sample_rate *)
| L131_iter (* inference(task.request, engine) *)
| L131 (* for result in ...: next(...) *)
| L133 (* if task.cancelled.is_set(): *)
| L134 (* task.status = TaskStatus.CANCELLED *)
| L136 (* if task.result_path and os.path.exists(task.result_path): *)
| L138 (* try: os.unlink(task.result_path) except ...: logger.warning *)
| L146 (* if isinstance(result, np.ndarray): *)
| L148 (* audio_data = result; break *)
| L152 (* if audio_data is None: raise ValueError("No audio generated") *)
| L156 (* result_filename = f"{task.step_id}.{task.request.format}" *)
| L157 (* result_path = self.temp_dir / result_filename *)
| L159 (* buffer = io.BytesIO(); sf.write(buffer, audio_data, sample_rate, format=...) *)
| L167 (* with open(result_path, "wb") as f: f.write(buffer.getvalue()) *)
| L170 (* task.result_path = str(result_path) *)
| L171 (* task.status = TaskStatus.COMPLETED *)
| L172 (* task.completed_at = time.time() *)
| L174 (* logger.info(...) *)
| L180 (* except Exception as e: task.status = TaskStatus.FAILED *)
| L181 (* task.error_message = str(e) *)
| L182 (* task.completed_at = time.time() *)
| L183 (* logger.error(...) *)
| Returned.

#[global] Instance PC_eq_dec : EqDecision PC.
Proof. solve_decision. Defined.

(** The closure and the local variables of one [run_task]. *)
Record Worker := mkWorker {
  pc : PC;
  engine : TTSInferenceEngine;
  gen : list GenEvent;
  result : option InferenceResult;
  audio_data : option ndarray;
  w_sample_rate : Z;
  result_filename : string;
  w_result_path : string;
  buffer : bytes;
  exc : option PyExc;
}.

Definition at_pc (p : PC) (k : Worker) : Worker :=
  mkWorker p (engine k) (gen k) (result k) (audio_data k) (w_sample_rate k)
           (result_filename k) (w_result_path k) (buffer k) (exc k).
Definition with_gen (g : list GenEvent) (k : Worker) : Worker :=
  mkWorker (pc k) (engine k) g (result k) (audio_data k) (w_sample_rate k)
           (result_filename k) (w_result_path k) (buffer k) (exc k).
Definition with_result (r : option InferenceResult) (k : Worker) : Worker :=
  mkWorker (pc k) (engine k) (gen k) r (audio_data k) (w_sample_rate k)
           (result_filename k) (w_result_path k) (buffer k) (exc k).
Definition with_audio_data (a : option ndarray) (k : Worker) : Worker :=
  mkWorker (pc k) (engine k) (gen k) (result k) a (w_sample_rate k)
           (result_filename k) (w_result_path k) (buffer k) (exc k).
Definition with_sample_rate (r : Z) (k : Worker) : Worker :=
  mkWorker (pc k) (engine k) (gen k) (result k) (audio_data k) r
           (result_filename k) (w_result_path k) (buffer k) (exc k).
Definition with_result_filename (s : string) (k : Worker) : Worker :=
  mkWorker (pc k) (engine k) (gen k) (result k) (audio_data k) (w_sample_rate k)
           s (w_result_path k) (buffer k) (exc k).
Definition with_w_result_path (s : string) (k : Worker) : Worker :=
  mkWorker (pc k) (engine k) (gen k) (result k) (audio_data k) (w_sample_rate k)
           (result_filename k) s (buffer k) (exc k).
Definition with_buffer (b : bytes) (k : Worker) : Worker :=
  mkWorker (pc k) (engine k) (gen k) (result k) (audio_data k) (w_sample_rate k)
           (result_filename k) (w_result_path k) b (exc k).
Definition with_exc (e : option PyExc) (k : Worker) : Worker :=
  mkWorker (pc k) (engine k) (gen k) (result k) (audio_data k) (w_sample_rate k)
           (result_filename k) (w_result_path k) (buffer k) e.

(** The thread that [start_task] creates, before its first statement. *)
Definition Worker_init (e : TTSInferenceEngine) : Worker :=
  mkWorker L117 e [] None None 0 "" "" [] None.

(** ** The process state *)

(** [tasks] and [temp_dir] are the attributes of the one [TaskManager] of the
    application; [threads] maps a task object to the worker started on it. *)
Record World := mkWorld {
  heap : gmap loc AsyncTask;
  tasks : gmap string loc;
  temp_dir : string;
  fs : FileSystem;
  clock : Z;
  log : list LogRecord;
  threads : gmap loc Worker;
}.

Definition with_heap (h : gmap loc AsyncTask) (w : World) : World :=
  mkWorld h (tasks w) (temp_dir w) (fs w) (clock w) (log w) (threads w).
Definition with_tasks (d : gmap string loc) (w : World) : World :=
  mkWorld (heap w) d (temp_dir w) (fs w) (clock w) (log w) (threads w).
Definition with_fs (f : FileSystem) (w : World) : World :=
  mkWorld (heap w) (tasks w) (temp_dir w) f (clock w) (log w) (threads w).
Definition with_clock (c : Z) (w : World) : World :=
  mkWorld (heap w) (tasks w) (temp_dir w) (fs w) c (log w) (threads w).
Definition with_log (g : list LogRecord) (w : World) : World :=
  mkWorld (heap w) (tasks w) (temp_dir w) (fs w) (clock w) g (threads w).
Definition with_threads (ts : gmap loc Worker) (w : World) : World :=
  mkWorld (heap w) (tasks w) (temp_dir w) (fs w) (clock w) (log w) ts.
Definition logger (r : LogRecord) (w : World) : World :=
  with_log (log w ++ [r]) w.

(** ** [TaskManager] *)

(** [TaskManager.__init__], in a process whose file system and clock are
    given. *)
Definition TaskManager_init (dir : string) (f : FileSystem) (now : Z) : World :=
  mkWorld ∅ ∅ dir f now [InfoInitialized dir] ∅.

(** [TaskManager.create_task]; the new object gets a fresh address. *)
Definition create_task (step_id : string) (request : ServeTTSRequest) (w : World)
  : Exc loc * World :=
  match tasks w !! step_id with
  | Some _ =>
      (Raised (ValueError ("Task with step_id " +:+ step_id +:+ " already exists")), w)
  | None =>
      let l := fresh (dom (heap w)) in
      let task := AsyncTask_init step_id request (clock w) in
      (Ok l,
       logger (InfoCreated step_id)
         (with_tasks (<[step_id := l]> (tasks w))
            (with_heap (<[l := task]> (heap w)) w)))
  end.

(** [TaskManager.get_task] *)
Definition get_task (step_id : string) (w : World) : option loc :=
  tasks w !! step_id.

(** [TaskManager.start_task].  The façade calls it once, on the task it has
    just created; a second worker on the same task object is not modelled. *)
Definition start_task (task : loc) (e : TTSInferenceEngine) (w : World) : World :=
  with_threads (<[task := Worker_init e]> (threads w)) w.

(** [TaskManager.cancel_task] *)
Definition cancel_task (step_id : string) (w : World) : bool * World :=
  match tasks w !! step_id with
  | None => (false, w)
  | Some l =>
      (true, logger (InfoCancelled step_id) (with_heap (alter cancel l (heap w)) w))
  end.

Definition active (s : TaskStatus) : bool :=
  bool_decide (s = PENDING ∨ s = RUNNING).

(** The loop of [cancel_all_tasks] over [self.tasks.values()]. *)
Fixpoint cancel_all_loop (values : list loc) (h : gmap loc AsyncTask) (count : nat)
  : gmap loc AsyncTask * nat :=
  match values with
  | [] => (h, count)
  | l :: rest =>
      match h !! l with
      | Some task =>
          if active (status task)
          then cancel_all_loop rest (<[l := cancel task]> h) (S count)
          else cancel_all_loop rest h count
      | None => cancel_all_loop rest h count
      end
  end.

(** [TaskManager.cancel_all_tasks].  The dictionary is iterated in the order
    of [map_to_list]. *)
Definition cancel_all_tasks (w : World) : nat * World :=
  let '(h, count) := cancel_all_loop (map_to_list (tasks w)).*2 (heap w) 0 in
  (count, logger (InfoCancelledCount count) (with_heap h w)).

(** The accumulators of the first loop of [cleanup_old_tasks]. *)
Record Sweep := mkSweep {
  sw_fs : FileSystem;
  sw_log : list LogRecord;
  tasks_to_remove : list string;
  cleaned : nat;
}.

(** One iteration of [for step_id, task in self.tasks.items()].  The
    dictionary holds the task objects themselves, so an entry always has
    its object; an address without an object is passed over. *)
Definition cleanup_visit (current_time max_age_seconds : Z) (h : gmap loc AsyncTask)
    (item : string * loc) (s : Sweep) : Sweep :=
  match h !! item.2 with
  | None => s
  | Some task =>
      let age := (current_time - created_at task)%Z in
      if (age >? max_age_seconds)%Z then
        let '(f, g) :=
          if truthy (result_path task)
             && os_path_exists (default "" (result_path task)) (sw_fs s)
          then
            match os_unlink (default "" (result_path task)) (sw_fs s) with
            | Ok f' => (f', sw_log s)
            | Raised e => (sw_fs s, sw_log s ++ [WarnDeleteSweep (result_path task) e])
            end
          else (sw_fs s, sw_log s) in
        mkSweep f g (tasks_to_remove s ++ [item.1]) (S (cleaned s))
      else s
  end.

Definition cleanup_loop (current_time max_age_seconds : Z) (h : gmap loc AsyncTask)
    (items : list (string * loc)) (s : Sweep) : Sweep :=
  foldl (λ s item, cleanup_visit current_time max_age_seconds h item s) s items.

(** [for step_id in tasks_to_remove: del self.tasks[step_id]] *)
Definition del_all (ids : list string) (d : gmap string loc) : gmap string loc :=
  foldl (λ d id, delete id d) d ids.

(** [TaskManager.cleanup_old_tasks]; the dictionary is iterated in the
    order of [map_to_list]. *)
Definition cleanup_old_tasks (max_age_seconds : Z) (w : World) : World :=
  let current_time := clock w in
  let s := cleanup_loop current_time max_age_seconds (heap w)
             (map_to_list (tasks w)) (mkSweep (fs w) (log w) [] 0) in
  let g := if bool_decide (0 < cleaned s) then sw_log s ++ [InfoCleaned (cleaned s)]
           else sw_log s in
  with_log g (with_fs (sw_fs s) (with_tasks (del_all (tasks_to_remove s) (tasks w)) w)).

(** The dictionary that [get_task_info] returns; [download_url] and [error]
    are [None] when the key is absent. *)
Record TaskInfo := mkInfo {
  info_step_id : string;
  info_status : string;
  info_created_at : Z;
  info_started_at : option Z;
  info_completed_at : option Z;
  download_url : option string;
  error : option (option string);
}.

(** [TaskManager.get_task_info] *)
Definition get_task_info (id : string) (w : World) : option TaskInfo :=
  match get_task id w with
  | None => None
  | Some l =>
      match heap w !! l with
      | None => None
      | Some task =>
          Some (mkInfo (step_id task) (status_value (status task))
                  (created_at task) (started_at task) (completed_at task)
                  (if bool_decide (status task = COMPLETED) && truthy (result_path task)
                   then Some ("/download_result/" +:+ step_id task) else None)
                  (if bool_decide (status task = FAILED)
                   then Some (error_message task) else None))
      end
  end.

(** ** The worker: [run_task] *)

(** What one statement of [run_task] reads and writes. *)
Record View := mkView {
  v_task : AsyncTask;
  v_worker : Worker;
  v_fs : FileSystem;
  v_log : list LogRecord;
}.

Definition goto (p : PC) (v : View) : View :=
  mkView (v_task v) (at_pc p (v_worker v)) (v_fs v) (v_log v).
Definition on_task (f : AsyncTask → AsyncTask) (v : View) : View :=
  mkView (f (v_task v)) (v_worker v) (v_fs v) (v_log v).
Definition on_worker (f : Worker → Worker) (v : View) : View :=
  mkView (v_task v) (f (v_worker v)) (v_fs v) (v_log v).
Definition on_fs (f : FileSystem) (v : View) : View :=
  mkView (v_task v) (v_worker v) f (v_log v).
Definition emit (r : LogRecord) (v : View) : View :=
  mkView (v_task v) (v_worker v) (v_fs v) (v_log v ++ [r]).

(** The elapsed time that the success message formats; [None] stands for the
    [TypeError] that a missing timestamp would raise, which cannot happen
    at that statement. *)
Definition elapsed (t : AsyncTask) : option Z :=
  c ← completed_at t; s ← started_at t; Some (c - s)%Z.

(** The statement at a program point of the [try] block (lines 117 to 177):
    its effect, or the exception it raises.  The [default] values stand for
    reads that the preceding guard excludes ([audio_data] is not [None]
    after line 152, [task.result_path] is a string inside line 136). *)
Definition try_stmt (X : Externals) (dir : string) (now : Z) (v : View) : Exc View :=
  let task := v_task v in
  let k := v_worker v in
  match pc k with
  | L117 => Ok (goto L118 (on_task (with_status RUNNING) v))
  | L118 => Ok (goto L121 (on_task (with_started_at (Some now)) v))
  | L121 => Ok (goto (if cancelled task then L122 else L128) v)
  | L122 => Ok (goto Returned (on_task (with_status CANCELLED) v))
  | L128 => Ok (goto L129 (on_worker (with_audio_data None) v))
  | L129 => Ok (goto L131_iter (on_worker (with_sample_rate (sample_rate (engine k))) v))
  | L131_iter => Ok (goto L131 (on_worker (with_gen (inference (engine k) (request task))) v))
  | L131 =>
      match gen k with
      | [] => Ok (goto L152 v)
      | Yield r :: g => Ok (goto L133 (on_worker (λ k, with_result (Some r) (with_gen g k)) v))
      | Throw e :: _ => Raised e
      end
  | L133 => Ok (goto (if cancelled task then L134 else L146) v)
  | L134 => Ok (goto L136 (on_task (with_status CANCELLED) v))
  | L136 =>
      Ok (goto (if truthy (result_path task)
                   && os_path_exists (default "" (result_path task)) (v_fs v)
                then L138 else Returned) v)
  | L138 =>
      match os_unlink (default "" (result_path task)) (v_fs v) with
      | Ok f => Ok (goto Returned (on_fs f v))
      | Raised e => Ok (goto Returned (emit (WarnDeleteWorker e) v))
      end
  | L146 =>
      Ok (goto (match result k with Some (Final _) => L148 | _ => L131 end) v)
  | L148 =>
      Ok (goto L152
            (on_worker (with_audio_data
                          (match result k with Some (Final a) => Some a | _ => None end)) v))
  | L152 =>
      match audio_data k with
      | None => Raised (ValueError "No audio generated")
      | Some _ => Ok (goto L156 v)
      end
  | L156 =>
      Ok (goto L157
            (on_worker (with_result_filename (step_id task +:+ "." +:+ format (request task))) v))
  | L157 =>
      Ok (goto L159 (on_worker (with_w_result_path (path_str X dir (result_filename k))) v))
  | L159 =>
      match sf_write X (default [] (audio_data k)) (w_sample_rate k) (format (request task)) with
      | Ok b => Ok (goto L167 (on_worker (with_buffer b) v))
      | Raised e => Raised e
      end
  | L167 =>
      match write_file (w_result_path k) (buffer k) (v_fs v) with
      | Ok f => Ok (goto L170 (on_fs f v))
      | Raised e => Raised e
      end
  | L170 => Ok (goto L171 (on_task (with_result_path (Some (w_result_path k))) v))
  | L171 => Ok (goto L172 (on_task (with_status COMPLETED) v))
  | L172 => Ok (goto L174 (on_task (with_completed_at (Some now)) v))
  | L174 => Ok (goto Returned (emit (InfoCompleted (step_id task) (elapsed task)) v))
  | L180 | L181 | L182 | L183 | Returned => Ok v
  end.

(** The statements of the [except Exception as e] handler (lines 180 to 183). *)
Definition handler_stmt (now : Z) (v : View) : View :=
  let task := v_task v in
  let k := v_worker v in
  match pc k with
  | L180 => goto L181 (on_task (with_status FAILED) v)
  | L181 => goto L182 (on_task (with_error_message (exc_str <$> exc k)) v)
  | L182 => goto L183 (on_task (with_completed_at (Some now)) v)
  | L183 =>
      goto Returned (emit (ErrorFailed (step_id task) (exc k)) v)
  | _ => v
  end.

Definition in_handler (p : PC) : bool :=
  match p with
  | L180 | L181 | L182 | L183 => true
  | _ => false
  end.

(** One statement of [run_task]: an exception raised inside the [try] block
    is bound to [e] and control enters the handler. *)
Definition run_task_stmt (X : Externals) (dir : string) (now : Z) (v : View) : View :=
  if in_handler (pc (v_worker v)) then handler_stmt now v
  else
    match try_stmt X dir now v with
    | Ok v' => v'
    | Raised e => goto L180 (on_worker (with_exc (Some e)) v)
    end.

(** The worker of task object [l] executes its next statement. *)
Definition worker_step (X : Externals) (l : loc) (w : World) : World :=
  match heap w !! l, threads w !! l with
  | Some task, Some k =>
      let v := run_task_stmt X (temp_dir w) (clock w) (mkView task k (fs w) (log w)) in
      mkWorld (<[l := v_task v]> (heap w)) (tasks w) (temp_dir w) (v_fs v) (clock w)
              (v_log v) (<[l := v_worker v]> (threads w))
  | _, _ => w
  end.

(** The worker of [l] runs [n] statements without being interrupted. *)
Fixpoint worker_run (X : Externals) (l : loc) (n : nat) (w : World) : World :=
  match n with
  | O => w
  | S n => worker_run X l n (worker_step X l w)
  end.

(** ** The façade: [tools/server/views.py] *)

Record AppState := mkApp {
  max_text_length : Z;
  tts_inference_engine : TTSInferenceEngine;
}.

(** The response model and the status code given to [format_response]
    (200 when the call passes none). *)
Record Response := mkResponse {
  status_code : Z;
  success : bool;
  message : string;
  resp_step_id : string;
  resp_status : string;
}.

(** [generate_audio_enhanced_async].  The response of the success path reads
    [task.status] before the new worker has executed a statement. *)
Definition generate_audio_enhanced_async (X : Externals) (app : AppState)
    (req : AsyncGenerateRequest) (w : World) : Response * World :=
  let failed_500 (e : PyExc) (w : World) :=
    (mkResponse 500 false ("Failed to create async task: " +:+ exc_str e)
                (req_step_id req) "failed",
     logger (ErrorAsyncGeneration e) w) in
  if bool_decide (0 < max_text_length app)%Z
     && bool_decide (max_text_length app < Z.of_nat (String.length (req_text req)))%Z
  then (mkResponse 400 false
                   ("Text is too long, max length is " +:+ pretty (max_text_length app))
                   (req_step_id req) "failed", w)
  else
    match make_request X req with
    | Raised e => failed_500 e w
    | Ok tts_request =>
        match create_task (req_step_id req) tts_request w with
        | (Raised e, w1) =>
            if is_ValueError e
            then (mkResponse 400 false (exc_str e) (req_step_id req) "failed", w1)
            else failed_500 e w1
        | (Ok task, w1) =>
            let w2 := start_task task (tts_inference_engine app) w1 in
            (mkResponse 200 true "Task created and started" (req_step_id req)
                        (default "" (status_value ∘ status <$> heap w2 !! task)),
             w2)
        end
    end.

(** [stop_async_task] *)
Definition stop_async_task (id : string) (w : World) : Response * World :=
  let '(ok, w') := cancel_task id w in
  if ok then (mkResponse 200 true ("Task " +:+ id +:+ " stopped") id "", w')
  else (mkResponse 404 false ("Task " +:+ id +:+ " not found") id "", w').

(** [stop_generation] *)
Definition stop_generation (w : World) : Response * World :=
  let '(count, w') := cancel_all_tasks w in
  (mkResponse 200 true ("Stopped " +:+ pretty count +:+ " task(s)") "" "", w').

(** ** Interleavings *)

(** What can happen next in the process: a request handled by the façade, a
    retention sweep, one statement of a worker, or the clock moving on. *)
Inductive Action :=
| Submit (app : AppState) (req : AsyncGenerateRequest)
| StopTask (id : string)
| StopAll
| Cleanup (max_age_seconds : Z)
| Step (l : loc)
| Tick (now : Z).

Definition perform (X : Externals) (a : Action) (w : World) : World :=
  match a with
  | Submit app req => (generate_audio_enhanced_async X app req w).2
  | StopTask id => (stop_async_task id w).2
  | StopAll => (stop_generation w).2
  | Cleanup m => cleanup_old_tasks m w
  | Step l => worker_step X l w
  | Tick now => with_clock now w
  end.

Definition run (X : Externals) (acts : list Action) (w : World) : World :=
  foldl (λ w a, perform X a w) w acts.

Inductive reachable (X : Externals) : World → Prop :=
| reachable_init dir f now : reachable X (TaskManager_init dir f now)
| reachable_perform a w : reachable X w → reachable X (perform X a w).

(** ** Observations on one task object *)

Definition status_at (l : loc) (w : World) : option TaskStatus := status <$> heap w !! l.
Definition pc_at (l : loc) (w : World) : option PC := pc <$> threads w !! l.

(** The three fields that a terminal record is expected to keep. *)
Definition outcome (t : AsyncTask) : TaskStatus * option string * option string :=
  (status t, result_path t, error_message t).
Definition outcome_at (l : loc) (w : World)
  : option (TaskStatus * option string * option string) :=
  outcome <$> heap w !! l.

(** ** Sample collaborators and scenarios *)

Definition demo_ext : Externals :=
  mkExt (λ a rate fmt,
           if String.eqb fmt "wav" then Ok (const Byte.x00 <$> a)
           else Raised (ValueError ("Unknown format: '" +:+ fmt +:+ "'")))
        (λ dir name, dir +:+ "/" +:+ name)
        (λ r, Ok (mkRequest (req_text r) (req_format r))).

(** An engine whose inference yields one segment and then the final audio. *)
Definition engine_ok : TTSInferenceEngine :=
  mkEngine 44100 (λ _, [Yield (Segment [Byte.x01]); Yield (Final [1; 2; 3]%Z)]).

(** An engine whose inference yields segments only. *)
Definition engine_segments : TTSInferenceEngine :=
  mkEngine 44100 (λ _, [Yield (Segment [Byte.x01]); Yield (Segment [Byte.x02])]).



Definition empty_fs : FileSystem := mkFS ∅ ∅ ∅.

Definition world0 : World := TaskManager_init "/tmp/results" empty_fs 100.

Definition submit_a (e : TTSInferenceEngine) : Action :=
  Submit (mkApp 0 e) (mkAsyncReq "a" "hello" "wav").

Definition request_a : ServeTTSRequest := mkRequest "hello" "wav".

(** The job ["a"] right after its submission, with engine [e]. *)
Definition world_submitted (e : TTSInferenceEngine) : World :=
  run demo_ext [submit_a e] world0.

Definition task_pending : AsyncTask := AsyncTask_init "a" request_a 100.

(** The worker of ["a"] has executed lines 117 and 118. *)
Definition world_running : World :=
  run demo_ext [Step 0; Step 0] (world_submitted engine_ok).

Definition task_running : AsyncTask :=
  mkTask "a" request_a RUNNING 100 (Some 100%Z) None None None false.

(** The worker of ["a"] has left the loop with the final audio and is about
    to serialize it (line 159). *)
Definition world_late : World :=
  run demo_ext (replicate 16 (Step 0)) (world_submitted engine_ok).

(** The worker of ["a"] has returned after a successful run. *)
Definition world_done : World :=
  run demo_ext (replicate 23 (Step 0)) (world_submitted engine_ok).

Definition task_done : AsyncTask :=
  mkTask "a" request_a COMPLETED 100 (Some 100%Z) (Some 100%Z) None
         (Some "/tmp/results/a.wav") false.

(** The same, some time later. *)
Definition world_old : World := run demo_ext [Tick 5000] world_done.

(** ["a"] was cancelled before its worker executed a statement. *)
Definition world_cancelled_early : World :=
  run demo_ext [StopTask "a"] (world_submitted engine_ok).

Definition task_cancelled_early : AsyncTask :=
  mkTask "a" request_a CANCELLED 100 None None None None true.




(** A file system on which the artifact of ["a"] cannot be unlinked. *)
Definition denied_message : string :=
  "[Errno 13] Permission denied: '/tmp/results/a.wav'".

Definition fs_denied : FileSystem :=
  mkFS ∅ {["/tmp/results/a.wav" := denied_message]} ∅.

(** ["a"] has completed on that file system, some time ago. *)
Definition world_denied : World :=
  run demo_ext (submit_a engine_ok :: replicate 23 (Step 0) ++ [Tick 5000])
      (TaskManager_init "/tmp/results" fs_denied 100).

(** ** How one record and its worker evolve *)

(** What an action does to one task object and to the worker started on it:
    nothing, [AsyncTask.cancel], or the next statement of the worker. *)
Inductive obj_step (X : Externals)
  : AsyncTask * option Worker → AsyncTask * option Worker → Prop :=
| obj_idle t k : obj_step X (t, k) (t, k)
| obj_cancel t k : obj_step X (t, k) (cancel t, k)
| obj_stmt t k dir now f g :
    obj_step X (t, Some k)
      (v_task (run_task_stmt X dir now (mkView t k f g)),
       Some (v_worker (run_task_stmt X dir now (mkView t k f g)))).

(** The relation that the source keeps between the fields of a record and
    the program point of its worker. *)
Definition rec_ok (t : AsyncTask) (k : option Worker) : Prop :=
  match k with
  | None =>
      (status t = PENDING ∨ status t = CANCELLED)
      ∧ result_path t = None ∧ error_message t = None
  | Some k =>
      match pc k with
      | L117 =>
          (status t = PENDING ∨ status t = CANCELLED)
          ∧ result_path t = None ∧ error_message t = None
      | L136 | L138 =>
          status t = CANCELLED ∧ result_path t = None ∧ error_message t = None
      | L171 =>
          (status t = RUNNING ∨ status t = CANCELLED)
          ∧ is_Some (result_path t) ∧ error_message t = None
      | L172 | L174 =>
          status t = COMPLETED ∧ is_Some (result_path t) ∧ error_message t = None
      | L180 =>
          (status t = RUNNING ∨ status t = CANCELLED)
          ∧ result_path t = None ∧ error_message t = None ∧ is_Some (exc k)
      | L181 =>
          status t = FAILED ∧ result_path t = None ∧ error_message t = None
          ∧ is_Some (exc k)
      | L182 | L183 =>
          status t = FAILED ∧ result_path t = None ∧ is_Some (error_message t)
      | Returned =>
          (status t = COMPLETED ∧ is_Some (result_path t) ∧ error_message t = None)
          ∨ (status t = FAILED ∧ result_path t = None ∧ is_Some (error_message t))
          ∨ (status t = CANCELLED ∧ result_path t = None ∧ error_message t = None)
      | _ =>
          (status t = RUNNING ∨ status t = CANCELLED)
          ∧ result_path t = None ∧ error_message t = None
      end
  end.

Definition world_ok (w : World) : Prop :=
  ∀ l t, heap w !! l = Some t → rec_ok t (threads w !! l).

(** [id] is registered and older than [max_age_seconds] at the clock
    reading of [w]. *)
Definition expired (max_age_seconds : Z) (w : World) (id : string) : Prop :=
  ∃ l t, tasks w !! id = Some l ∧ heap w !! l = Some t
         ∧ (max_age_seconds < clock w - created_at t)%Z.

(** ** Auxiliary notions used in the statements *)

(** Case analysis on the innermost scrutinee of the goal. *)
Ltac case_inner :=
  match goal with
  | |- context [match ?x with _ => _ end] =>
      lazymatch x with
      | context [match _ with _ => _ end] => fail
      | _ => destruct x eqn:?; simpl
      end
  end.

Ltac stmt_cases k :=
  let p := fresh "p" in
  destruct k as [p ? ? ? ? ? ? ? ? ?];
  unfold run_task_stmt, try_stmt, handler_stmt; simpl;
  destruct p; simpl; repeat case_inner.

(** The worker is past its first statement. *)
Definition started (k : option Worker) : Prop :=
  ∃ k0, k = Some k0 ∧ pc k0 ≠ L117.

(** The worker has seen the flag at a checkpoint, or is about to: from here
    on the record stays [CANCELLED] without a result or an error. *)
Definition cancel_observed (t : AsyncTask) (k : option Worker) : Prop :=
  cancelled t = true ∧ outcome t = (CANCELLED, None, None)
  ∧ ∃ k0, k = Some k0
          ∧ (pc k0 = L121 ∨ pc k0 = L122 ∨ pc k0 = L133 ∨ pc k0 = L134
             ∨ pc k0 = L136 ∨ pc k0 = L138 ∨ pc k0 = Returned).

(** [n] statements of [run_task] on a view, at a fixed clock reading. *)
Fixpoint stmts (X : Externals) (dir : string) (now : Z) (n : nat) (v : View) : View :=
  match n with
  | O => v
  | S n => stmts X dir now n (run_task_stmt X dir now v)
  end.

(** The world in which the worker of [l] has left the view [v]. *)
Definition install (l : loc) (v : View) (w : World) : World :=
  mkWorld (<[l := v_task v]> (heap w)) (tasks w) (temp_dir w) (v_fs v) (clock w)
          (v_log v) (<[l := v_worker v]> (threads w)).

(** The flag was set before the first statement: the worker is in the
    prologue of [run_task] or has returned from it with [CANCELLED]. *)
Definition early_exit (t : AsyncTask) (k : option Worker) : Prop :=
  cancelled t = true ∧ result_path t = None
  ∧ ∃ k0, k = Some k0
          ∧ (pc k0 = L117 ∨ pc k0 = L118 ∨ pc k0 = L121 ∨ pc k0 = L122
             ∨ (pc k0 = Returned ∧ status t = CANCELLED)).


(** The loop variable after the segments [segs] have been consumed. *)
Definition last_segment (segs : list bytes) (r : option InferenceResult)
  : option InferenceResult :=
  foldl (λ _ b, Some (Segment b)) r segs.

(** The test [age > max_age_seconds] of the sweep on one registry entry. *)
Definition is_expired (current_time max_age_seconds : Z) (h : gmap loc AsyncTask)
    (item : string * loc) : bool :=
  match h !! item.2 with
  | Some task => (current_time - created_at task >? max_age_seconds)%Z
  | None => false
  end.

(** ** The read-only handlers of the façade *)

(** The model [TaskStatusResponse] and the status code given to
    [format_response]. *)
Record TaskStatusResponse := mkStatusResponse {
  ts_code : Z;
  ts_success : bool;
  ts_step_id : string;
  ts_status : string;
  ts_created_at : Z;
  ts_started_at : option Z;
  ts_completed_at : option Z;
  ts_download_url : option string;
  ts_error : option string;
}.

(** [get_task_status]; [param] is [request.query_params.get("step_id")]. *)
Definition get_task_status (param : option string) (w : World) : TaskStatusResponse :=
  if negb (truthy param)
  then mkStatusResponse 400 false "" "error" 0 None None None
         (Some "step_id query parameter is required")
  else
    let step_id := default "" param in
    match get_task_info step_id w with
    | None => mkStatusResponse 404 false step_id "not_found" 0 None None None None
    | Some task_info =>
        mkStatusResponse 200 true (info_step_id task_info) (info_status task_info)
          (info_created_at task_info) (info_started_at task_info)
          (info_completed_at task_info) (download_url task_info)
          (mjoin (error task_info))
    end.

(** An [HTTPException]: its status and its content. *)
Record HTTPException := mkHTTPException {
  http_status : Z;
  http_content : string;
}.

(** The [StreamResponse] of [download_result]: the bytes it streams, its
    [Content-Disposition] header and its content type. *)
Record StreamResponse := mkStreamResponse {
  stream_body : bytes;
  content_disposition : string;
  content_type : string;
}.

(** [download_result]; [param] is [request.query_params.get("step_id")] and
    [get_content_type] is the function of that name of
    [tools.server.api_utils].  Reading a file that exists succeeds. *)
Definition download_result (get_content_type : string → string)
    (param : option string) (w : World) : HTTPException + StreamResponse :=
  if negb (truthy param)
  then inl (mkHTTPException 400 "step_id query parameter is required")
  else
    let step_id := default "" param in
    match get_task step_id w ≫= (heap w !!.) with
    | None => inl (mkHTTPException 404 ("Task " +:+ step_id +:+ " not found"))
    | Some task =>
        if negb (bool_decide (status task = COMPLETED))
        then inl (mkHTTPException 400
                    ("Task " +:+ step_id +:+ " is not completed, current status: "
                     +:+ status_value (status task)))
        else
          match (if truthy (result_path task)
                 then files (fs w) !! default "" (result_path task) else None) with
          | None =>
              inl (mkHTTPException 404
                     ("Result file for task " +:+ step_id +:+ " not found"))
          | Some file_content =>
              inr (mkStreamResponse file_content
                     ("attachment; filename=audio_" +:+ step_id +:+ "."
                      +:+ format (request task))
                     (get_content_type (format (request task))))
          end
    end.

(** ** Further notions used in the statements *)

(** The registry and the heap fit together: an entry points to a task
    object that carries the entry's id, and every task object has its
    worker. *)
Definition registry_ok (w : World) : Prop :=
  (∀ id l, tasks w !! id = Some l → ∃ t, heap w !! l = Some t ∧ step_id t = id)
  ∧ (∀ l, is_Some (heap w !! l) → is_Some (threads w !! l)).

(** The relation that the source keeps between the timestamps of a record,
    its status and the program point of its worker. *)
Definition times_ok (t : AsyncTask) (k : option Worker) : Prop :=
  match k with
  | None => started_at t = None ∧ completed_at t = None
  | Some k =>
      match pc k with
      | L117 | L118 => started_at t = None ∧ completed_at t = None
      | L174 | L183 => is_Some (started_at t) ∧ is_Some (completed_at t)
      | Returned =>
          is_Some (started_at t)
          ∧ (status t = CANCELLED ∧ completed_at t = None
             ∨ (status t = COMPLETED ∨ status t = FAILED) ∧ is_Some (completed_at t))
      | _ => is_Some (started_at t) ∧ completed_at t = None
      end
  end.

(** The file name that line 156 builds for a record. *)
Definition artifact_name (t : AsyncTask) : string :=
  step_id t +:+ "." +:+ format (request t).

(** From line 159 on, the local [result_path] of the worker is the path of
    the record's artifact under [dir]. *)
Definition locals_ok (X : Externals) (dir : string) (t : AsyncTask)
    (k : option Worker) : Prop :=
  match k with
  | None => True
  | Some k =>
      match pc k with
      | L157 => result_filename k = artifact_name t
      | L159 | L167 | L170 =>
          w_result_path k = path_str X dir (artifact_name t)
      | _ => True
      end
  end.

(** An upper bound on the statements that a worker still executes, given
    the request of its task. *)
Definition rank (r : ServeTTSRequest) (k : Worker) : nat :=
  match pc k with
  | Returned => 0
  | L183 | L122 | L138 => 1
  | L182 | L136 => 2
  | L181 | L134 => 3
  | L180 => 4
  | L174 => 5
  | L172 => 6
  | L171 => 7
  | L170 => 8
  | L167 => 9
  | L159 => 10
  | L157 => 11
  | L156 => 12
  | L152 => 13
  | L148 => 14
  | L131 => 3 * length (gen k) + 14
  | L146 => 3 * length (gen k) + 15
  | L133 => 3 * length (gen k) + 16
  | L131_iter => 3 * length (inference (engine k) r) + 15
  | L129 => 3 * length (inference (engine k) r) + 16
  | L128 => 3 * length (inference (engine k) r) + 17
  | L121 => 3 * length (inference (engine k) r) + 18
  | L118 => 3 * length (inference (engine k) r) + 19
  | L117 => 3 * length (inference (engine k) r) + 20
  end.

(** The statements of the worker of [l] among the actions [acts]. *)
Definition is_step (l : loc) (a : Action) : bool :=
  match a with
  | Step l' => bool_decide (l' = l)
  | _ => false
  end.

Definition steps_of (l : loc) (acts : list Action) : nat :=
  length (filter (λ a, is_step l a = true) acts).

(** The registered records whose status is [PENDING] or [RUNNING]. *)
Definition active_entries (w : World) : list (string * loc) :=
  filter (λ item, (active ∘ status <$> heap w !! item.2) = Some true)
         (map_to_list (tasks w)).

(** What is fixed about a record from some point on. *)
Definition settled_fields (t0 t : AsyncTask) : Prop :=
  (cancelled t0 = true → cancelled t = true)
  ∧ (status t0 ≠ PENDING → status t ≠ PENDING)
  ∧ (∀ x, started_at t0 = Some x → started_at t = Some x)
  ∧ (∀ x, completed_at t0 = Some x → completed_at t = Some x).

(** What [cancel_all_tasks] does to a record it visits. *)
Definition cancel_if_active (t : AsyncTask) : AsyncTask :=
  if active (status t) then cancel t else t.

(** Line 138 is never reached, and from line 159 on the local [result_path]
    is the path of the record's artifact. *)
Definition footprint_ok (X : Externals) (dir : string) (t : AsyncTask)
    (k : option Worker) : Prop :=
  locals_ok X dir t k ∧ (pc <$> k) ≠ Some L138.

(** ** Further sample scenarios *)

Definition demo_content_type (fmt : string) : string := "audio/" +:+ fmt.

(** The artifact that [demo_ext] produces for the final audio of
    [engine_ok]. *)
Definition artifact_a : bytes := [Byte.x00; Byte.x00; Byte.x00].

(** The worker of ["a"] is about to resume the generator for the first
    time, and ["a"] has just been cancelled. *)
Definition world_cancelled_in_loop : World :=
  run demo_ext (replicate 6 (Step 0) ++ [StopTask "a"]) (world_submitted engine_ok).

Definition task_cancelled_in_loop : AsyncTask :=
  mkTask "a" request_a CANCELLED 100 (Some 100%Z) None None None true.

Definition worker_in_loop : Worker :=
  mkWorker L131 engine_ok (inference engine_ok request_a) None None 44100 "" "" []
           None.

(** ** Renaming a reference voice: [update_reference] *)

(** A Python [str] as the sequence of its code points; [len], [==], [strip]
    and the [re] module all work on code points. *)
Definition pystr := list N.

(** A string literal of the source. *)
Definition lit (s : string) : pystr := Ascii.N_of_ascii <$> String.list_ascii_of_string s.

(** The code points for which [str.isspace] holds, which are the ones that
    [str.strip()] removes. *)
Definition is_space (c : N) : bool :=
  ((9 <=? c) && (c <=? 13) || (28 <=? c) && (c <=? 32)
   || (c =? 133) || (c =? 160) || (c =? 5760)
   || (8192 <=? c) && (c <=? 8202)
   || (c =? 8232) || (c =? 8233) || (c =? 8239) || (c =? 8287) || (c =? 12288))%N.

Fixpoint lstrip (s : pystr) : pystr :=
  match s with
  | c :: s' => if is_space c then lstrip s' else s
  | [] => []
  end.
Definition rstrip (s : pystr) : pystr := reverse (lstrip (reverse s)).
Definition strip (s : pystr) : pystr := rstrip (lstrip s).

(** [not s] for a [str] *)
Definition falsy (s : pystr) : bool := bool_decide (s = []).

(** The items of a regular expression, as far as [id_pattern] uses them. *)
Inductive ReItem :=
| Bol                              (* ^ *)
| Eol                              (* $ *)
| ClassPlus (class : N → bool).    (* [...]+ *)

(** [[...]+] followed by [k]: greedy, giving characters back one by one. *)
Fixpoint class_plus (class : N → bool) (k : pystr → bool) (s : pystr) : bool :=
  match s with
  | c :: s' => class c && (class_plus class k s' || k s')
  | [] => false
  end.

(** Matching at one position, without flags: [^] holds at the start of the
    string only, [$] at its end and just before a newline that ends it. *)
Fixpoint re_items (items : list ReItem) (at_start : bool) (s : pystr) : bool :=
  match items with
  | [] => true
  | Bol :: items' => at_start && re_items items' at_start s
  | Eol :: items' =>
      (bool_decide (s = []) || bool_decide (s = [10%N])) && re_items items' at_start s
  | ClassPlus class :: items' => class_plus class (re_items items' false) s
  end.

(** The truth value of [re.match(pattern, s)] *)
Definition re_match (pattern : list ReItem) (s : pystr) : bool :=
  re_items pattern true s.

(** The class [[a-zA-Z0-9\-_ ]] *)
Definition id_class (c : N) : bool :=
  ((97 <=? c) && (c <=? 122) || (65 <=? c) && (c <=? 90) || (48 <=? c) && (c <=? 57)
   || (c =? 45) || (c =? 95) || (c =? 32))%N.

(** [id_pattern = r"^[a-zA-Z0-9\-_ ]+$"] *)
Definition id_pattern : list ReItem := [Bol; ClassPlus id_class; Eol].

(** An exception whose message is a [str] of the source. *)
Record PyError := mkError { err_class : string; err_str : pystr }.

(** The built-in classes below a class that an [except] clause of
    [update_reference] names. *)
Definition subclasses (cls : string) : list string :=
  if String.eqb cls "OSError" then
    ["OSError"; "BlockingIOError"; "ChildProcessError"; "ConnectionError";
     "BrokenPipeError"; "ConnectionAbortedError"; "ConnectionRefusedError";
     "ConnectionResetError"; "FileExistsError"; "FileNotFoundError";
     "InterruptedError"; "IsADirectoryError"; "NotADirectoryError";
     "PermissionError"; "ProcessLookupError"; "TimeoutError"]
  else if String.eqb cls "ValueError" then
    ["ValueError"; "UnicodeError"; "UnicodeDecodeError"; "UnicodeEncodeError";
     "UnicodeTranslateError"]
  else [cls].

Definition isinstance (e : PyError) (cls : string) : bool :=
  existsb (String.eqb (err_class e)) (subclasses cls).

(** What a path names: a directory with its files, or a regular file. *)
Inductive Node :=
| Dir (children : gmap pystr bytes)
| File (content : bytes).

Inductive RefLogRecord :=
| LogWarning (msg : pystr)
| LogError (msg : pystr) (exc_info : bool).

(** [UpdateReferenceResponse] with the status code of [format_response] *)
Record UpdateReferenceResponse := mkUpdateResponse {
  ur_status_code : Z;
  ur_success : bool;
  ur_message : pystr;
  ur_old_reference_id : pystr;
  ur_new_reference_id : pystr;
}.

Section update_reference.
(** [V] is what [engine.ref_by_id] caches for a reference;
    [ref_dir id] is the path [Path("references") / id]. *)
Context {V : Type} (ref_dir : pystr → pystr).

(** [entries] gives what each path names, a directory holding its files
    in its node, so that a rename moves them with it; symbolic links and
    failures of [stat] are not modelled.  [deny_rename] gives the paths
    whose [rename] the operating system refuses, with the exception it
    raises.  [ref_by_id] is [engine.ref_by_id], and [ref_log] the log. *)
Record RefStore := mkRefStore {
  entries : gmap pystr Node;
  deny_rename : gmap pystr PyError;
  ref_by_id : gmap pystr V;
  ref_log : list RefLogRecord;
}.

Definition ref_logger (r : RefLogRecord) (s : RefStore) : RefStore :=
  mkRefStore (entries s) (deny_rename s) (ref_by_id s) (ref_log s ++ [r]).

(** [Path.exists] and [Path.is_dir] *)
Definition path_exists (p : pystr) (s : RefStore) : bool :=
  bool_decide (is_Some (entries s !! p)).
Definition path_is_dir (p : pystr) (s : RefStore) : bool :=
  match entries s !! p with
  | Some (Dir _) => true
  | _ => false
  end.

(** [Path.rename] to a path that does not exist *)
Definition path_rename (p q : pystr) (s : RefStore) : PyError + RefStore :=
  match entries s !! p with
  | None =>
      inl (mkError "FileNotFoundError"
             (lit "[Errno 2] No such file or directory: '" ++ p ++ lit "' -> '"
              ++ q ++ lit "'"))
  | Some n =>
      match deny_rename s !! p with
      | Some e => inl e
      | None =>
          inr (mkRefStore (<[q := n]> (delete p (entries s))) (deny_rename s)
                 (ref_by_id s) (ref_log s))
      end
  end.

(** [engine.ref_by_id[new] = engine.ref_by_id.pop(old)], when [old] is a key *)
Definition move_cache_key (old new : pystr) (s : RefStore) : RefStore :=
  match ref_by_id s !! old with
  | Some v =>
      mkRefStore (entries s) (deny_rename s)
        (<[new := v]> (delete old (ref_by_id s))) (ref_log s)
  | None => s
  end.

(** Lines 376-388: the checks on the two ids; [None] when they pass. *)
Definition check_ids (old new : pystr) : option PyError :=
  if falsy old || falsy (strip old) then
    Some (mkError "ValueError" (lit "Old reference ID cannot be empty"))
  else if falsy new || falsy (strip new) then
    Some (mkError "ValueError" (lit "New reference ID cannot be empty"))
  else if bool_decide (old = new) then
    Some (mkError "ValueError"
            (lit "New reference ID must be different from old reference ID"))
  else if negb (re_match id_pattern new) || bool_decide (255 < length new) then
    Some (mkError "ValueError"
            (lit "New reference ID contains invalid characters or is too long"))
  else None.

(** The body of the [try] statement: a response or a raised exception. *)
Definition update_reference_try (old new : pystr) (s : RefStore)
  : (PyError + UpdateReferenceResponse) * RefStore :=
  match check_ids old new with
  | Some e => (inl e, s)
  | None =>
      let old_dir := ref_dir old in
      let new_dir := ref_dir new in
      if negb (path_exists old_dir s) || negb (path_is_dir old_dir s) then
        (inl (mkError "FileNotFoundError"
                (lit "Reference ID '" ++ old ++ lit "' not found")), s)
      else if path_exists new_dir s then
        (inr (mkUpdateResponse 409 false
                (lit "Reference ID '" ++ new ++ lit "' already exists") old new), s)
      else
        match path_rename old_dir new_dir s with
        | inl e => (inl e, s)
        | inr s =>
            let s := move_cache_key old new s in
            (inr (mkUpdateResponse 200 true
                    (lit "Reference voice renamed from '" ++ old ++ lit "' to '"
                     ++ new ++ lit "' successfully") old new), s)
        end
  end.

(** The [except] clauses, in the order of the source. *)
Definition update_reference_except (e : PyError) (old new : pystr) (s : RefStore)
  : UpdateReferenceResponse * RefStore :=
  if isinstance e "FileNotFoundError" then
    (mkUpdateResponse 404 false (err_str e) old new,
     ref_logger (LogWarning (err_str e)) s)
  else if isinstance e "ValueError" then
    (mkUpdateResponse 400 false (err_str e) old new,
     ref_logger (LogWarning (lit "Invalid input for update reference: " ++ err_str e)) s)
  else if isinstance e "OSError" then
    (mkUpdateResponse 500 false (lit "File system error occurred") old new,
     ref_logger (LogError (lit "File system error renaming reference: " ++ err_str e)
                   false) s)
  else
    (mkUpdateResponse 500 false (lit "Internal server error occurred") old new,
     ref_logger (LogError (lit "Unexpected error updating reference: " ++ err_str e)
                   true) s).

Definition update_reference (old new : pystr) (s : RefStore)
  : UpdateReferenceResponse * RefStore :=
  match update_reference_try old new s with
  | (inr response, s) => (response, s)
  | (inl e, s) => update_reference_except e old new s
  end.
End update_reference.

Arguments RefStore : clear implicits.
Arguments mkRefStore {V} _ _ _ _.

(** An id that the first two checks refuse: empty or white space only. *)
Definition blank (s : pystr) : bool := forallb is_space s.

(** What [id_pattern] is meant to accept, and what it accepts besides. *)
Definition id_chars (s : pystr) : Prop := s ≠ [] ∧ Forall (λ c, id_class c = true) s.

(** What the checks of lines 376-388 let through. *)
Definition ids_pass (old new : pystr) : Prop :=
  blank old = false ∧ blank new = false ∧ old ≠ new
  ∧ re_match id_pattern new = true ∧ length new ≤ 255.

(** What every refusal of [update_reference] has in common. *)
Definition refused {V : Type} (old new : pystr) (s : RefStore V)
    (r : UpdateReferenceResponse * RefStore V) : Prop :=
  ur_success r.1 = false
  ∧ (ur_status_code r.1 = 400 ∨ ur_status_code r.1 = 404
     ∨ ur_status_code r.1 = 409 ∨ ur_status_code r.1 = 500)%Z
  ∧ ur_old_reference_id r.1 = old ∧ ur_new_reference_id r.1 = new
  ∧ entries r.2 = entries s ∧ deny_rename r.2 = deny_rename s
  ∧ ref_by_id r.2 = ref_by_id s
  ∧ (ref_log r.2 = ref_log s ∨ ∃ record, ref_log r.2 = ref_log s ++ [record]).

(** The message of the [ValueError] that the checks raise. *)
Definition invalid_ids_message (old new : pystr) : pystr :=
  if blank old then lit "Old reference ID cannot be empty"
  else if blank new then lit "New reference ID cannot be empty"
  else if bool_decide (old = new)
       then lit "New reference ID must be different from old reference ID"
       else lit "New reference ID contains invalid characters or is too long".

(** Sample stores *)
Definition demo_ref_dir (id : pystr) : pystr := lit "references/" ++ id.
Definition store_a : RefStore N :=
  mkRefStore {[ demo_ref_dir (lit "alice") := Dir {[ lit "sample.wav" := [Byte.x01] ]};
                demo_ref_dir (lit "notes") := File [] ]}
    ∅ {[ lit "alice" := 7%N ]} [].
Definition store_locked : RefStore N :=
  mkRefStore (entries store_a)
    {[ demo_ref_dir (lit "alice")
       := mkError "PermissionError" (lit "[Errno 13] Permission denied") ]}
    (ref_by_id store_a) [].

(** * Properties *)

(** ** [AsyncTask.cancel] *)

Lemma cancel_unfold t :
  cancel t =
    if bool_decide (status t = PENDING ∨ status t = RUNNING)
    then with_status CANCELLED (cancelled_set t) else cancelled_set t.
Proof.
  unfold cancel. destruct t as [? ? [] ? ? ? ? ? ?]; reflexivity.
Qed.

Lemma cancel_active t :
  status t = PENDING ∨ status t = RUNNING →
  cancel t = with_status CANCELLED (cancelled_set t).
Proof. intros H. rewrite cancel_unfold, bool_decide_true; done. Qed.

Lemma cancel_terminal t :
  terminal (status t) → cancel t = cancelled_set t.
Proof.
  intros H. rewrite cancel_unfold, bool_decide_false; [done|].
  destruct H as [H|[H|H]]; rewrite H; intros [?|?]; discriminate.
Qed.

Lemma cancel_not_active t : active (status (cancel t)) = false.
Proof. destruct t as [? ? [] ? ? ? ? ? ?]; reflexivity. Qed.

Lemma cancel_cancelled t : cancelled (cancel t) = true.
Proof. destruct t as [? ? [] ? ? ? ? ? ?]; reflexivity. Qed.

Lemma cancel_frame t :
  result_path (cancel t) = result_path t
  ∧ error_message (cancel t) = error_message t
  ∧ started_at (cancel t) = started_at t
  ∧ completed_at (cancel t) = completed_at t
  ∧ created_at (cancel t) = created_at t
  ∧ step_id (cancel t) = step_id t
  ∧ request (cancel t) = request t.
Proof. destruct t as [? ? [] ? ? ? ? ? ?]; repeat split. Qed.

Lemma cancel_status_cases t :
  (status t = PENDING ∨ status t = RUNNING) ∧ status (cancel t) = CANCELLED
  ∨ terminal (status t) ∧ status (cancel t) = status t.
Proof. destruct t as [? ? [] ? ? ? ? ? ?]; unfold terminal; simpl; auto. Qed.

Lemma cancel_rec_ok t k : rec_ok t k → rec_ok (cancel t) k.
Proof.
  destruct (cancel_frame t) as (Hr & He & _).
  unfold rec_ok. destruct k as [k|]; [destruct (pc k)|]; rewrite Hr, He;
    destruct (cancel_status_cases t) as [[[H|H] ->]|[_ ->]];
    try done; rewrite H; intuition congruence.
Qed.

(** ** One statement of the worker *)

Lemma stmt_rec_ok X dir now t k f g :
  rec_ok t (Some k) →
  rec_ok (v_task (run_task_stmt X dir now (mkView t k f g)))
         (Some (v_worker (run_task_stmt X dir now (mkView t k f g)))).
Proof.
  destruct k as [p e gn r a sr fn rp b ex].
  unfold rec_ok, run_task_stmt, try_stmt, handler_stmt; simpl.
  destruct p; simpl; intros H; repeat case_inner;
    unfold is_Some in *; try (intuition (eauto; congruence)).
  destruct H as (? & ? & ? & x & ->); simpl; eauto.
Qed.

Lemma obj_step_rec_ok X t k t' k' :
  obj_step X (t, k) (t', k') → rec_ok t k → rec_ok t' k'.
Proof.
  inversion 1; subst; auto using cancel_rec_ok, stmt_rec_ok.
Qed.

(** ** The effect of an action on one task object *)

Lemma cancel_all_loop_lookup values : ∀ h count l t,
  h !! l = Some t →
  (cancel_all_loop values h count).1 !! l = Some t
  ∨ (cancel_all_loop values h count).1 !! l = Some (cancel t).
Proof.
  induction values as [|l0 rest IH]; intros h count l t Hl; simpl; [auto|].
  destruct (h !! l0) as [t0|] eqn:H0; [|auto].
  destruct (active (status t0)) eqn:Ha; [|auto].
  destruct (decide (l0 = l)) as [->|Hne].
  - assert (t0 = t) as -> by congruence.
    destruct (IH (<[l := cancel t]> h) (S count) l (cancel t)) as [H|H].
    + apply lookup_insert_eq.
    + auto.
    + right. rewrite H. f_equal. rewrite (cancel_unfold (cancel t)).
      pose proof (cancel_not_active t) as Hn. unfold active in Hn.
      rewrite Hn. destruct t as [? ? [] ? ? ? ? ? ?]; reflexivity.
  - apply IH. rewrite lookup_insert_ne; done.
Qed.

Lemma cancel_all_loop_lookup_None values : ∀ h count l,
  h !! l = None → (cancel_all_loop values h count).1 !! l = None.
Proof.
  induction values as [|l0 rest IH]; intros h count l Hl; simpl; [done|].
  destruct (h !! l0) as [t0|] eqn:H0; [|auto].
  destruct (active (status t0)); [|auto].
  apply IH. rewrite lookup_insert_ne; [done|]. intros ->. congruence.
Qed.

Lemma cancel_all_tasks_heap w :
  heap (cancel_all_tasks w).2
  = (cancel_all_loop (map_to_list (tasks w)).*2 (heap w) 0).1.
Proof.
  unfold cancel_all_tasks.
  destruct (cancel_all_loop _ _ _); reflexivity.
Qed.

Lemma cancel_all_tasks_frame w :
  let w' := (cancel_all_tasks w).2 in
  tasks w' = tasks w ∧ threads w' = threads w ∧ fs w' = fs w
  ∧ clock w' = clock w ∧ temp_dir w' = temp_dir w.
Proof.
  unfold cancel_all_tasks.
  destruct (cancel_all_loop _ _ _); repeat split.
Qed.

Lemma fresh_loc_None (w : World) : heap w !! fresh (dom (heap w)) = None.
Proof. apply not_elem_of_dom, is_fresh. Qed.

(** An action leaves an existing task object and its worker alone, applies
    [AsyncTask.cancel] to it, or is the next statement of its worker. *)
Lemma perform_cases X a w l t :
  heap w !! l = Some t →
  (heap (perform X a w) !! l = Some t
   ∧ threads (perform X a w) !! l = threads w !! l)
  ∨ (heap (perform X a w) !! l = Some (cancel t)
     ∧ threads (perform X a w) !! l = threads w !! l)
  ∨ (a = Step l
     ∧ ∃ k, threads w !! l = Some k
            ∧ heap (perform X a w) !! l
              = Some (v_task (run_task_stmt X (temp_dir w) (clock w)
                                (mkView t k (fs w) (log w))))
            ∧ threads (perform X a w) !! l
              = Some (v_worker (run_task_stmt X (temp_dir w) (clock w)
                                  (mkView t k (fs w) (log w))))).
Proof.
  intros Hl. destruct a as [app req|id| |m|l0|clk]; simpl.
  - left. unfold generate_audio_enhanced_async, create_task.
    repeat case_inner; try done.
    assert (fresh (dom (heap w)) ≠ l) as Hne.
    { intros <-. rewrite fresh_loc_None in Hl. done. }
    simplify_eq. simpl. rewrite !lookup_insert_ne by done. done.
  - unfold stop_async_task, cancel_task.
    destruct (tasks w !! id) as [l0|] eqn:Hid; simpl; [|by left].
    destruct (decide (l0 = l)) as [->|Hne].
    + right; left. rewrite lookup_alter_eq, Hl. done.
    + left. rewrite lookup_alter_ne by done. done.
  - unfold stop_generation.
    pose proof (cancel_all_tasks_heap w) as Hh.
    pose proof (cancel_all_tasks_frame w) as (_ & Ht & _).
    destruct (cancel_all_tasks w) as [count w']; simpl in *.
    rewrite Hh, Ht.
    destruct (cancel_all_loop_lookup (map_to_list (tasks w)).*2 (heap w) 0 l t Hl)
      as [H|H]; rewrite H; auto.
  - by left.
  - unfold worker_step.
    destruct (decide (l0 = l)) as [->|Hne].
    + rewrite Hl. destruct (threads w !! l) as [k|] eqn:Hk; simpl.
      * right; right. split; [done|]. exists k. rewrite !lookup_insert_eq. done.
      * left. by rewrite Hl, Hk.
    + left. destruct (heap w !! l0), (threads w !! l0); simpl;
        rewrite ?lookup_insert_ne by done; done.
  - by left.
Qed.

Lemma perform_obj_step X a w l t :
  heap w !! l = Some t →
  ∃ t', heap (perform X a w) !! l = Some t'
        ∧ obj_step X (t, threads w !! l) (t', threads (perform X a w) !! l).
Proof.
  intros Hl.
  destruct (perform_cases X a w l t Hl)
    as [[-> ->]|[[-> ->]|(_ & k & -> & -> & ->)]];
    eexists; (split; [done|constructor]).
Qed.


(** A task object that did not exist before an action is the fresh record
    of [create_task], with the worker that the façade starts on it. *)
Lemma perform_new_object X a w l t' :
  heap w !! l = None →
  heap (perform X a w) !! l = Some t' →
  (∃ id r, t' = AsyncTask_init id r (clock w))
  ∧ ∃ e, threads (perform X a w) !! l = Some (Worker_init e).
Proof.
  intros Hl. destruct a as [app req|id| |m|l0|now]; simpl.
  - unfold generate_audio_enhanced_async, create_task.
    repeat case_inner; try congruence.
    simplify_eq. simpl.
    destruct (decide (fresh (dom (heap w)) = l)) as [<-|Hne].
    + rewrite !lookup_insert_eq. intros [= <-]. eauto.
    + rewrite lookup_insert_ne by done. congruence.
  - unfold stop_async_task, cancel_task.
    destruct (tasks w !! id) as [l0|] eqn:Hid; simpl; [|congruence].
    destruct (decide (l0 = l)) as [->|Hne].
    + rewrite lookup_alter_eq, Hl. done.
    + rewrite lookup_alter_ne by done. congruence.
  - unfold stop_generation.
    pose proof (cancel_all_tasks_heap w) as Hh.
    destruct (cancel_all_tasks w) as [count w']; simpl in *.
    rewrite Hh, cancel_all_loop_lookup_None; done.
  - congruence.
  - unfold worker_step.
    destruct (heap w !! l0) eqn:H0, (threads w !! l0); simpl; try congruence.
    rewrite lookup_insert_ne; [congruence|]. intros ->. congruence.
  - congruence.
Qed.

Lemma reachable_world_ok X w : reachable X w → world_ok w.
Proof.
  induction 1 as [dir f now|a w Hw IH]; intros l t' Hl.
  - done.
  - destruct (heap w !! l) as [t|] eqn:Ht.
    + destruct (perform_obj_step X a w l t Ht) as (t'' & Ht'' & Hstep).
      assert (t'' = t') as -> by congruence.
      eapply obj_step_rec_ok; [exact Hstep|]. apply IH, Ht.
    + destruct (perform_new_object X a w l t' Ht Hl) as ((id & r & ->) & e & ->).
      simpl. auto.
Qed.

Lemma run_app X acts1 acts2 w :
  run X (acts1 ++ acts2) w = run X acts2 (run X acts1 w).
Proof. apply foldl_app. Qed.

Lemma reachable_run X acts : ∀ w, reachable X w → reachable X (run X acts w).
Proof.
  induction acts as [|a acts IH]; intros w Hw; simpl; [done|].
  apply IH. by constructor.
Qed.

(** A property of one record and its worker that every step keeps is kept
    along every interleaving. *)
Lemma run_preserves X (P : AsyncTask → option Worker → Prop) :
  (∀ t k t' k', rec_ok t k → P t k → obj_step X (t, k) (t', k') → P t' k') →
  ∀ acts w l t,
    reachable X w → heap w !! l = Some t → P t (threads w !! l) →
    ∃ t', heap (run X acts w) !! l = Some t' ∧ P t' (threads (run X acts w) !! l).
Proof.
  intros HP. induction acts as [|a acts IH]; intros w l t Hw Hl Ht; simpl.
  - eauto.
  - destruct (perform_obj_step X a w l t Hl) as (t1 & Hl1 & Hstep).
    eapply IH; [by constructor|exact Hl1|].
    eapply HP; [|exact Ht|exact Hstep].
    by apply reachable_world_ok in Hw; apply Hw.
Qed.

(** ** Records after a cancellation *)

Lemma stmt_cancelled X dir now t k f g :
  cancelled (v_task (run_task_stmt X dir now (mkView t k f g))) = cancelled t.
Proof. stmt_cases k; reflexivity. Qed.

Lemma running_started t k : rec_ok t k → status t = RUNNING → started k.
Proof.
  unfold rec_ok, started. destruct k as [k|].
  - intros H Hs. exists k. split; [done|]. intros Hpc. rewrite Hpc in H.
    intuition congruence.
  - intuition congruence.
Qed.

(** Once the flag is set, the status is terminal and the worker is past its
    first statement, all three stay so. *)
Lemma cancelled_terminal_step X t k t' k' :
  rec_ok t k →
  cancelled t = true ∧ terminal (status t) ∧ started k →
  obj_step X (t, k) (t', k') →
  cancelled t' = true ∧ terminal (status t') ∧ started k'.
Proof.
  intros Hok (Hc & Ht & Hk) Hstep. inversion Hstep; subst.
  - done.
  - rewrite cancel_cancelled. rewrite (cancel_terminal t) by done. done.
  - rewrite stmt_cancelled. split; [done|].
    destruct Hk as (k1 & [= <-] & Hpc). revert Ht Hpc. clear.
    unfold started, terminal.
    stmt_cases k0; intros Ht Hpc; try done;
      (split; [auto|eexists; split; [done|done]]).
Qed.

Lemma cancel_observed_step X t k t' k' :
  rec_ok t k → cancel_observed t k → obj_step X (t, k) (t', k') →
  cancel_observed t' k'.
Proof.
  intros _ (Hc & Ho & k1 & -> & Hpc) Hstep. inversion Hstep; subst.
  - unfold cancel_observed; eauto 10.
  - assert (terminal (status t)) as Ht.
    { injection Ho as -> _ _. unfold terminal. auto. }
    rewrite (cancel_terminal t Ht). unfold cancel_observed; eauto 10.
  - revert Hc Ho Hpc. clear. unfold cancel_observed, outcome.
    destruct t as [? ? st ? ? ? em rp c]. simpl. intros -> [= -> -> ->].
    stmt_cases k1; intros Hpc;
      try (exfalso; intuition congruence);
      (split; [done|split; [done|eexists; split; [done|tauto]]]).
Qed.

(** A [COMPLETED] or [FAILED] status never changes. *)
Lemma settled_status_step X s t k t' k' :
  s = COMPLETED ∨ s = FAILED →
  rec_ok t k → status t = s → obj_step X (t, k) (t', k') → status t' = s.
Proof.
  intros Hs Hok Ht Hstep. inversion Hstep; subst.
  - done.
  - rewrite cancel_terminal; [done|]. unfold terminal. tauto.
  - revert Hok Hs. clear. unfold rec_ok.
    stmt_cases k0; intros Hok Hs; try done; intuition congruence.
Qed.

(** ** [cancel_task] *)

Lemma cancel_task_found w id l :
  tasks w !! id = Some l →
  cancel_task id w
  = (true, logger (InfoCancelled id) (with_heap (alter cancel l (heap w)) w)).
Proof. intros H. unfold cancel_task. rewrite H. reflexivity. Qed.

Lemma stop_async_task_world id w : (stop_async_task id w).2 = (cancel_task id w).2.
Proof.
  unfold stop_async_task. destruct (cancel_task id w) as [[] w']; reflexivity.
Qed.

Lemma reachable_cancel_task X id w :
  reachable X w → reachable X (cancel_task id w).2.
Proof.
  intros H. rewrite <- stop_async_task_world.
  apply (reachable_perform X (StopTask id)), H.
Qed.

Lemma pc_at_Some l w p :
  pc_at l w = Some p → ∃ k, threads w !! l = Some k ∧ pc k = p.
Proof.
  unfold pc_at. destruct (threads w !! l) as [k|]; [|done].
  intros [= <-]. eauto.
Qed.

(** C1 (as amended).  Cancelling a [RUNNING] job returns [True], sets the flag
    and sets the status to [CANCELLED] in the same call, leaving every other
    field as it was.  From then on, along every interleaving, the flag stays
    set and the status stays terminal; once the worker stands at a checkpoint
    (line 121 or 133) the record stays [CANCELLED] with neither result nor
    error; and once the worker has overwritten the status with [COMPLETED] or
    [FAILED] it never changes again. *)
Theorem cancel_running_settles X w id l t :
  reachable X w → tasks w !! id = Some l → heap w !! l = Some t →
  status t = RUNNING →
  let w1 := (cancel_task id w).2 in
  (cancel_task id w).1 = true
  ∧ heap w1 !! l = Some (with_status CANCELLED (cancelled_set t))
  ∧ (∀ acts, ∃ t2, heap (run X acts w1) !! l = Some t2
                   ∧ cancelled t2 = true ∧ terminal (status t2))
  ∧ (∀ acts acts',
       pc_at l (run X acts w1) = Some L121 ∨ pc_at l (run X acts w1) = Some L133 →
       outcome_at l (run X (acts ++ acts') w1) = Some (CANCELLED, None, None))
  ∧ (∀ acts acts' s,
       s = COMPLETED ∨ s = FAILED →
       status_at l (run X acts w1) = Some s →
       status_at l (run X (acts ++ acts') w1) = Some s).
Proof.
  intros Hw Hid Hl Hs w1.
  assert (reachable X w1) as Hw1 by apply reachable_cancel_task, Hw.
  assert (heap w1 !! l = Some (with_status CANCELLED (cancelled_set t))) as Hl1.
  { unfold w1. rewrite (cancel_task_found w id l Hid). simpl.
    rewrite lookup_alter_eq, Hl. simpl. f_equal. apply cancel_active. auto. }
  assert (threads w1 !! l = threads w !! l) as Hk1.
  { unfold w1. rewrite (cancel_task_found w id l Hid). reflexivity. }
  assert (∀ acts, ∃ t2, heap (run X acts w1) !! l = Some t2
             ∧ cancelled t2 = true ∧ terminal (status t2)
             ∧ started (threads (run X acts w1) !! l)) as Hterm.
  { intros acts.
    apply (run_preserves X (λ t k, cancelled t = true ∧ terminal (status t) ∧ started k))
      with (t := with_status CANCELLED (cancelled_set t)); try done.
    - intros. eapply cancelled_terminal_step; eauto.
    - rewrite Hk1. repeat split; [unfold terminal; simpl; auto|].
      eapply running_started; [|exact Hs]. by apply (reachable_world_ok X w Hw). }
  split; [by rewrite (cancel_task_found w id l Hid)|].
  split; [done|]. split; [|split].
  - intros acts. destruct (Hterm acts) as (t2 & ? & ? & ? & _). eauto.
  - intros acts acts' Hpc. rewrite run_app.
    destruct (Hterm acts) as (t2 & Hl2 & Hc2 & Ht2 & _).
    assert (reachable X (run X acts w1)) as Hw2 by by apply reachable_run.
    pose proof (reachable_world_ok X _ Hw2 l t2 Hl2) as Hok.
    assert (cancel_observed t2 (threads (run X acts w1) !! l)) as Hobs.
    { destruct Hpc as [Hpc|Hpc]; apply pc_at_Some in Hpc as (k & Hk & Hpc);
        rewrite Hk in Hok |- *; simpl in Hok; rewrite Hpc in Hok;
        destruct Hok as (Hst & Hrp & Hem);
        (split; [done|split; [|eexists; split; [done|tauto]]]);
        unfold outcome; rewrite Hrp, Hem;
        destruct Ht2 as [?|[?|?]], Hst; congruence. }
    destruct (run_preserves X cancel_observed (cancel_observed_step X)
                acts' _ l t2 Hw2 Hl2 Hobs) as (t3 & Hl3 & _ & Ho3 & _).
    unfold outcome_at. rewrite Hl3. simpl. by rewrite Ho3.
  - intros acts acts' s Hs' Hst. rewrite run_app.
    unfold status_at in Hst.
    destruct (heap (run X acts w1) !! l) as [t2|] eqn:Hl2; [|done].
    injection Hst as Hst.
    assert (reachable X (run X acts w1)) as Hw2 by by apply reachable_run.
    destruct (run_preserves X (λ t _, status t = s)
                (λ t k t' k' Hok Ht Hstep, settled_status_step X s t k t' k' Hs' Hok Ht Hstep)
                acts' _ l t2 Hw2 Hl2 Hst) as (t3 & Hl3 & Hs3).
    unfold status_at. rewrite Hl3. simpl. by rewrite Hs3.
Qed.

(** ** Terminal records *)






(** C9.  On a registered record whose status is already terminal,
    [cancel_task] returns [True] and sets the flag and nothing else: the
    status, the result path and the error message of the record are
    unchanged, and so are every other task object, the registry, the file
    system and the workers. *)
Theorem cancel_task_terminal w id l t :
  tasks w !! id = Some l → heap w !! l = Some t → terminal (status t) →
  (cancel_task id w).1 = true
  ∧ heap (cancel_task id w).2 !! l = Some (cancelled_set t)
  ∧ outcome_at l (cancel_task id w).2 = Some (outcome t)
  ∧ (∀ l', l' ≠ l → heap (cancel_task id w).2 !! l' = heap w !! l')
  ∧ tasks (cancel_task id w).2 = tasks w
  ∧ fs (cancel_task id w).2 = fs w
  ∧ threads (cancel_task id w).2 = threads w.
Proof.
  intros Hid Hl Ht. rewrite (cancel_task_found w id l Hid). simpl.
  unfold outcome_at. simpl. rewrite lookup_alter_eq, Hl. simpl.
  rewrite (cancel_terminal t Ht). repeat split.
  intros l' Hne. by rewrite lookup_alter_ne.
Qed.

(** ** Uninterrupted runs of a worker *)

Lemma worker_step_view X l w t k :
  heap w !! l = Some t → threads w !! l = Some k →
  worker_step X l w
  = install l (run_task_stmt X (temp_dir w) (clock w) (mkView t k (fs w) (log w))) w.
Proof. intros Ht Hk. unfold worker_step. rewrite Ht, Hk. reflexivity. Qed.

Lemma worker_step_install X l w v :
  worker_step X l (install l v w)
  = install l (run_task_stmt X (temp_dir w) (clock w) v) w.
Proof.
  unfold worker_step, install. simpl. rewrite !lookup_insert_eq.
  rewrite !insert_insert_eq. destruct v; reflexivity.
Qed.

Lemma worker_run_install X l n : ∀ w v,
  worker_run X l n (install l v w) = install l (stmts X (temp_dir w) (clock w) n v) w.
Proof.
  induction n as [|n IH]; intros w v; simpl; [done|].
  by rewrite worker_step_install, IH.
Qed.

Lemma worker_run_view X l n w t k :
  heap w !! l = Some t → threads w !! l = Some k →
  worker_run X l (S n) w
  = install l (stmts X (temp_dir w) (clock w) (S n) (mkView t k (fs w) (log w))) w.
Proof.
  intros Ht Hk. simpl. rewrite (worker_step_view X l w t k Ht Hk).
  apply worker_run_install.
Qed.

Lemma run_steps X l n : ∀ w, run X (replicate n (Step l)) w = worker_run X l n w.
Proof. induction n as [|n IH]; intros w; simpl; [done|]. apply IH. Qed.

Lemma stmts_add X dir now n1 n2 : ∀ v,
  stmts X dir now (n1 + n2) v = stmts X dir now n2 (stmts X dir now n1 v).
Proof. induction n1 as [|n1 IH]; intros v; simpl; [done|]. apply IH. Qed.

(** ** The record invariant *)


(** ** A worker that starts after the cancellation *)

Lemma early_exit_step X t k t' k' :
  rec_ok t k → early_exit t k → obj_step X (t, k) (t', k') → early_exit t' k'.
Proof.
  intros Hok (Hc & Hr & k1 & -> & Hpc) Hstep. inversion Hstep; subst.
  - unfold early_exit; eauto 10.
  - destruct (cancel_frame t) as (Hr' & _).
    split; [apply cancel_cancelled|]. split; [congruence|].
    exists k1. split; [done|].
    destruct Hpc as [?|[?|[?|[?|[? Hs]]]]]; auto.
    do 4 right. split; [done|]. rewrite cancel_terminal; [done|].
    unfold terminal. auto.
  - revert Hc Hr Hpc. clear. unfold early_exit.
    destruct t as [? ? st ? ? ? em rp c]. simpl. intros -> ->.
    stmt_cases k1; intros Hpc;
      try (exfalso; intuition congruence);
      (split; [done|split; [done|eexists; split; [done|tauto]]]).
Qed.

(** C3 (as amended).  When the flag is already set as the worker starts, the
    worker first sets the status to [RUNNING] and [started_at] to the clock
    reading, then sees the flag, sets the status to [CANCELLED] and returns:
    four statements, after which the record is [CANCELLED] with [started_at]
    set and nothing else changed, the worker's variables are untouched (the
    inference generator was never created) and the file system and the log
    are as before.  Along every interleaving the worker never leaves the
    prologue (lines 117 to 122) except by returning with [CANCELLED], and the
    result path stays unset. *)
Theorem cancelled_before_start X w l t k :
  reachable X w → heap w !! l = Some t → threads w !! l = Some k →
  pc k = L117 → cancelled t = true →
  status_at l (worker_run X l 1 w) = Some RUNNING
  ∧ heap (worker_run X l 4 w) !! l
    = Some (with_status CANCELLED (with_started_at (Some (clock w)) t))
  ∧ threads (worker_run X l 4 w) !! l = Some (at_pc Returned k)
  ∧ fs (worker_run X l 4 w) = fs w
  ∧ log (worker_run X l 4 w) = log w
  ∧ (∀ acts, ∃ t2 k2,
       heap (run X acts w) !! l = Some t2 ∧ threads (run X acts w) !! l = Some k2
       ∧ result_path t2 = None
       ∧ (pc k2 = L117 ∨ pc k2 = L118 ∨ pc k2 = L121 ∨ pc k2 = L122
          ∨ (pc k2 = Returned ∧ status t2 = CANCELLED))).
Proof.
  intros Hw Ht Hk Hpc Hc.
  rewrite !(worker_run_view X l _ w t k Ht Hk). unfold status_at, install. simpl.
  rewrite !lookup_insert_eq.
  split; [|split; [|split; [|split; [|split]]]].
  - destruct k; simpl in *; subst. reflexivity.
  - destruct k, t; simpl in *; subst. reflexivity.
  - destruct k, t; simpl in *; subst. reflexivity.
  - destruct k, t; simpl in *; subst. reflexivity.
  - destruct k, t; simpl in *; subst. reflexivity.
  - intros acts.
    destruct (run_preserves X early_exit (early_exit_step X) acts w l t Hw Ht)
      as (t2 & Hl2 & _ & Hr2 & k2 & Hk2 & Hpc2).
    + pose proof (reachable_world_ok X w Hw l t Ht) as Hok.
      rewrite Hk in Hok |- *. simpl in Hok. rewrite Hpc in Hok.
      split; [done|]. split; [tauto|]. eauto.
    + eauto 10.
Qed.

(** ** Exceptions inside the worker *)




(** ** An inference that yields no final output *)

(** Without a cancellation, the loop of [run_task] consumes a segment in
    three statements (lines 131, 133 and 146) and changes nothing but the
    loop variable. *)
Lemma segments_loop X dir now segs : ∀ t k f g rest,
  pc k = L131 → cancelled t = false →
  gen k = ((Yield ∘ Segment) <$> segs) ++ rest →
  stmts X dir now (3 * length segs) (mkView t k f g)
  = mkView t (with_result (last_segment segs (result k)) (with_gen rest k)) f g.
Proof.
  induction segs as [|b segs IH]; intros t k f g rest Hpc Hc Hgen.
  - simpl in *. destruct k; simpl in *; subst. reflexivity.
  - replace (3 * length (b :: segs)) with (3 + 3 * length segs) by (simpl; lia).
    rewrite stmts_add.
    assert (stmts X dir now 3 (mkView t k f g)
            = mkView t (with_result (Some (Segment b))
                          (with_gen (((Yield ∘ Segment) <$> segs) ++ rest) k)) f g) as ->.
    { destruct k, t; simpl in *; subst. reflexivity. }
    rewrite (IH _ _ _ _ rest); [|by destruct k|done|by destruct k].
    destruct k; reflexivity.
Qed.

Lemma pc_at_install l v w : pc_at l (install l v w) = Some (pc (v_worker v)).
Proof. unfold pc_at, install. simpl. by rewrite lookup_insert_eq. Qed.

Lemma heap_install l v w : heap (install l v w) !! l = Some (v_task v).
Proof. unfold install. simpl. by rewrite lookup_insert_eq. Qed.

Lemma prologue_stmts X dir now t k f g :
  pc k = L117 → cancelled t = false →
  stmts X dir now 6 (mkView t k f g)
  = mkView (with_started_at (Some now) (with_status RUNNING t))
      (with_gen (inference (engine k) (request t))
         (with_sample_rate (sample_rate (engine k))
            (with_audio_data None (at_pc L131 k)))) f g.
Proof. intros Hpc Hc. destruct k, t; simpl in *; subst. reflexivity. Qed.



(** ** [create_task] *)

Lemma create_task_present w id r :
  is_Some (tasks w !! id) →
  create_task id r w
  = (Raised (ValueError ("Task with step_id " +:+ id +:+ " already exists")), w).
Proof. intros [l Hl]. unfold create_task. by rewrite Hl. Qed.

Lemma create_task_registers w id r : is_Some (tasks (create_task id r w).2 !! id).
Proof.
  unfold create_task. destruct (tasks w !! id) as [l|] eqn:Hl; simpl.
  - by rewrite Hl.
  - rewrite lookup_insert_eq. eauto.
Qed.

(** C7.  Creating a task under an id that is registered raises
    [ValueError("Task with step_id ... already exists")] and leaves the
    whole state, the registered record included, as it was.  The second of
    two consecutive [create_task] calls with the same id therefore always
    fails.  The façade answers such a request with status code 400 and
    [success = False], and starts no worker. *)
Theorem create_task_duplicate X :
  (∀ w id r,
     is_Some (tasks w !! id) →
     create_task id r w
     = (Raised (ValueError ("Task with step_id " +:+ id +:+ " already exists")), w))
  ∧ (∀ w id r1 r2,
       create_task id r2 (create_task id r1 w).2
       = (Raised (ValueError ("Task with step_id " +:+ id +:+ " already exists")),
          (create_task id r1 w).2))
  ∧ (∀ w app req r,
       is_Some (tasks w !! req_step_id req) → make_request X req = Ok r →
       ∃ msg, generate_audio_enhanced_async X app req w
              = (mkResponse 400 false msg (req_step_id req) "failed", w)).
Proof.
  split; [|split].
  - intros w id r H. by apply create_task_present.
  - intros w id r1 r2. apply create_task_present, create_task_registers.
  - intros w app req r Hid Hreq. unfold generate_audio_enhanced_async.
    destruct (_ && _); [eauto|].
    rewrite Hreq, (create_task_present w _ r Hid). simpl. eauto.
Qed.

(** ** [cleanup_old_tasks] *)

Lemma truthy_Some p : p ≠ "" → truthy (Some p) = true.
Proof. intros H. simpl. by apply negb_true_iff, String.eqb_neq. Qed.

Lemma os_path_exists_true p f : os_path_exists p f = true ↔ is_Some (files f !! p).
Proof. unfold os_path_exists. apply bool_decide_eq_true. Qed.

Section visit.
Context (now m : Z) (h : gmap loc AsyncTask).

Lemma visit_remove item s :
  tasks_to_remove (cleanup_visit now m h item s)
  = tasks_to_remove s ++ (if is_expired now m h item then [item.1] else []).
Proof.
  unfold is_expired, cleanup_visit. destruct (h !! item.2); [|by rewrite app_nil_r].
  destruct (_ >? _)%Z; [|by rewrite app_nil_r].
  destruct (_ && _); [destruct (os_unlink _ _)|]; reflexivity.
Qed.

Lemma visit_deny item s :
  deny_unlink (sw_fs (cleanup_visit now m h item s)) = deny_unlink (sw_fs s).
Proof.
  unfold cleanup_visit. destruct (h !! item.2); [|done].
  destruct (_ >? _)%Z; [|done].
  destruct (_ && _); [|done]. unfold os_unlink.
  destruct (files _ !! _); [|done]. destruct (deny_unlink _ !! _); done.
Qed.

(** A visit keeps a file or deletes it; it deletes only the artifact of an
    expired record, and only if [os.unlink] is not denied on it. *)
Lemma visit_files item s p :
  files (sw_fs (cleanup_visit now m h item s)) !! p = files (sw_fs s) !! p
  ∨ (files (sw_fs (cleanup_visit now m h item s)) !! p = None
     ∧ is_expired now m h item = true
     ∧ deny_unlink (sw_fs s) !! p = None
     ∧ ∃ t, h !! item.2 = Some t ∧ result_path t = Some p).
Proof.
  unfold is_expired, cleanup_visit. destruct (h !! item.2) as [t|]; [|by left].
  destruct (_ >? _)%Z; [|by left].
  destruct (result_path t) as [q|] eqn:Hq; simpl; [|by left].
  destruct (_ && _); [|by left]. unfold os_unlink.
  destruct (files _ !! q) eqn:Hf; [|by left].
  destruct (deny_unlink _ !! q) eqn:Hd; [by left|]. simpl.
  destruct (decide (q = p)) as [->|Hne].
  - right. rewrite lookup_delete_eq. eauto 10.
  - left. by rewrite lookup_delete_ne.
Qed.

Lemma visit_files_None item s p :
  files (sw_fs s) !! p = None →
  files (sw_fs (cleanup_visit now m h item s)) !! p = None.
Proof.
  intros H. destruct (visit_files item s p) as [->|[-> _]]; done.
Qed.

Lemma visit_deletes item s t p :
  is_expired now m h item = true → h !! item.2 = Some t →
  result_path t = Some p → p ≠ "" → deny_unlink (sw_fs s) !! p = None →
  files (sw_fs (cleanup_visit now m h item s)) !! p = None.
Proof.
  unfold is_expired, cleanup_visit. intros He Ht Hp Hne Hd.
  rewrite Ht in He |- *. rewrite He, Hp, (truthy_Some p Hne). simpl.
  destruct (os_path_exists p (sw_fs s)) eqn:Hex; simpl.
  - unfold os_unlink. apply os_path_exists_true in Hex as [b ->].
    rewrite Hd. simpl. apply lookup_delete_eq.
  - apply not_true_iff_false in Hex. rewrite os_path_exists_true in Hex.
    by apply eq_None_not_Some.
Qed.

Lemma visit_warns item s t p msg :
  is_expired now m h item = true → h !! item.2 = Some t →
  result_path t = Some p → p ≠ "" →
  is_Some (files (sw_fs s) !! p) → deny_unlink (sw_fs s) !! p = Some msg →
  sw_log (cleanup_visit now m h item s)
  = sw_log s ++ [WarnDeleteSweep (Some p) (mkExc "OSError" msg)]
  ∧ sw_fs (cleanup_visit now m h item s) = sw_fs s.
Proof.
  unfold is_expired, cleanup_visit. intros He Ht Hp Hne Hex Hd.
  rewrite Ht in He |- *. rewrite He, Hp, (truthy_Some p Hne). simpl.
  rewrite (proj2 (os_path_exists_true p (sw_fs s)) Hex). simpl.
  unfold os_unlink. destruct Hex as [b ->]. rewrite Hd. done.
Qed.

Lemma visit_log item s r :
  r ∈ sw_log s → r ∈ sw_log (cleanup_visit now m h item s).
Proof.
  intros Hr. unfold cleanup_visit. destruct (h !! item.2); [|done].
  destruct (_ >? _)%Z; [|done].
  destruct (_ && _); [|done].
  destruct (os_unlink _ _); simpl; [done|]. apply elem_of_app. auto.
Qed.

Lemma loop_cons item items s :
  cleanup_loop now m h (item :: items) s
  = cleanup_loop now m h items (cleanup_visit now m h item s).
Proof. reflexivity. Qed.

Lemma loop_remove items : ∀ s,
  tasks_to_remove (cleanup_loop now m h items s)
  = tasks_to_remove s ++ (filter (λ item, is_expired now m h item = true) items).*1.
Proof.
  induction items as [|item items IH]; intros s.
  - simpl. by rewrite app_nil_r.
  - rewrite loop_cons, IH, visit_remove, filter_cons.
    destruct (is_expired now m h item) eqn:He.
    + rewrite decide_True by done. by rewrite <- app_assoc.
    + rewrite decide_False by done. by rewrite app_nil_r.
Qed.

Lemma loop_deny items : ∀ s,
  deny_unlink (sw_fs (cleanup_loop now m h items s)) = deny_unlink (sw_fs s).
Proof.
  induction items as [|item items IH]; intros s; [done|].
  by rewrite loop_cons, IH, visit_deny.
Qed.

Lemma loop_files_None items p : ∀ s,
  files (sw_fs s) !! p = None →
  files (sw_fs (cleanup_loop now m h items s)) !! p = None.
Proof.
  induction items as [|item items IH]; intros s Hs; [done|].
  rewrite loop_cons. by apply IH, visit_files_None.
Qed.

Lemma loop_log items r : ∀ s,
  r ∈ sw_log s → r ∈ sw_log (cleanup_loop now m h items s).
Proof.
  induction items as [|item items IH]; intros s Hs; [done|].
  rewrite loop_cons. by apply IH, visit_log.
Qed.

(** The artifact of every expired record is gone after the loop, unless
    [os.unlink] is denied on it. *)
Lemma loop_deletes items item t p : ∀ s,
  item ∈ items → is_expired now m h item = true → h !! item.2 = Some t →
  result_path t = Some p → p ≠ "" → deny_unlink (sw_fs s) !! p = None →
  files (sw_fs (cleanup_loop now m h items s)) !! p = None.
Proof.
  induction items as [|item0 items IH]; intros s Hin He Ht Hp Hne Hd.
  - by apply elem_of_nil in Hin.
  - rewrite loop_cons. apply elem_of_cons in Hin as [->|Hin].
    + apply loop_files_None. by eapply visit_deletes.
    + apply IH; try done. by rewrite visit_deny.
Qed.

(** A file that is the artifact of no expired record survives the loop. *)
Lemma loop_files_frame items p : ∀ s,
  (∀ item t, item ∈ items → is_expired now m h item = true →
             h !! item.2 = Some t → result_path t ≠ Some p) →
  files (sw_fs (cleanup_loop now m h items s)) !! p = files (sw_fs s) !! p.
Proof.
  induction items as [|item items IH]; intros s Hno; [done|].
  rewrite loop_cons, IH.
  - destruct (visit_files item s p) as [H|(_ & He & _ & t & Ht & Hp)]; [done|].
    exfalso. eapply Hno; [|exact He|exact Ht|exact Hp]. apply elem_of_cons. auto.
  - intros item' t' Hin. apply Hno. apply elem_of_cons. auto.
Qed.

(** A file on which [os.unlink] is denied survives the loop. *)
Lemma loop_files_denied items p : ∀ s,
  is_Some (deny_unlink (sw_fs s) !! p) →
  files (sw_fs (cleanup_loop now m h items s)) !! p = files (sw_fs s) !! p.
Proof.
  induction items as [|item items IH]; intros s Hd; [done|].
  rewrite loop_cons, IH by by rewrite visit_deny.
  destruct (visit_files item s p) as [H|(_ & _ & Hn & _)]; [done|].
  rewrite Hn in Hd. by destruct Hd.
Qed.

(** A denied deletion of the artifact of an expired record is logged. *)
Lemma loop_warns items item t p msg : ∀ s,
  item ∈ items → is_expired now m h item = true → h !! item.2 = Some t →
  result_path t = Some p → p ≠ "" →
  is_Some (files (sw_fs s) !! p) → deny_unlink (sw_fs s) !! p = Some msg →
  WarnDeleteSweep (Some p) (mkExc "OSError" msg)
    ∈ sw_log (cleanup_loop now m h items s).
Proof.
  induction items as [|item0 items IH]; intros s Hin He Ht Hp Hne Hex Hd.
  - by apply elem_of_nil in Hin.
  - rewrite loop_cons. apply elem_of_cons in Hin as [->|Hin].
    + apply loop_log.
      destruct (visit_warns item0 s t p msg He Ht Hp Hne Hex Hd) as [-> _].
      apply elem_of_app. right. apply list_elem_of_singleton. done.
    + apply IH; try done.
      * pose proof (loop_files_denied [item0] p s) as Hf.
        unfold cleanup_loop in Hf. simpl in Hf. rewrite Hf; [done|].
        rewrite Hd. eauto.
      * by rewrite visit_deny.
Qed.

End visit.

Lemma del_all_lookup ids : ∀ (d : gmap string loc) id,
  del_all ids d !! id = if decide (id ∈ ids) then None else d !! id.
Proof.
  induction ids as [|i ids IH]; intros d id.
  - rewrite decide_False; [done|]. apply not_elem_of_nil.
  - change (del_all (i :: ids) d) with (del_all ids (delete i d)).
    rewrite IH. destruct (decide (id ∈ ids)) as [Hin|Hnin].
    + rewrite decide_True; [done|]. apply elem_of_cons. auto.
    + destruct (decide (id = i)) as [->|Hne].
      * rewrite decide_True; [|apply elem_of_cons; auto]. apply lookup_delete_eq.
      * rewrite decide_False; [by apply lookup_delete_ne|].
        rewrite elem_of_cons. tauto.
Qed.

Lemma expired_is_expired m w id :
  expired m w id
  ↔ ∃ l, tasks w !! id = Some l ∧ is_expired (clock w) m (heap w) (id, l) = true.
Proof.
  unfold expired, is_expired. simpl. split.
  - intros (l & t & Hl & Ht & Hage). exists l. rewrite Ht. split; [done|].
    apply Z.gtb_lt. done.
  - intros (l & Hl & He). destruct (heap w !! l) as [t|] eqn:Ht; [|done].
    exists l, t. repeat split; try done. by apply Z.gtb_lt.
Qed.

Lemma removed_expired m w id :
  id ∈ (filter (λ item, is_expired (clock w) m (heap w) item = true)
          (map_to_list (tasks w))).*1
  ↔ expired m w id.
Proof.
  rewrite expired_is_expired, list_elem_of_fmap. split.
  - intros ([id' l] & -> & Hin). apply list_elem_of_filter in Hin as [He Hin].
    apply elem_of_map_to_list in Hin. eauto.
  - intros (l & Hl & He). exists (id, l). split; [done|].
    apply list_elem_of_filter. split; [done|]. by apply elem_of_map_to_list.
Qed.

(** The registry after a sweep. *)
Lemma cleanup_tasks_lookup m w id :
  tasks (cleanup_old_tasks m w) !! id
  = if decide (id ∈ (filter (λ item, is_expired (clock w) m (heap w) item = true)
                       (map_to_list (tasks w))).*1)
    then None else tasks w !! id.
Proof.
  unfold cleanup_old_tasks. simpl. rewrite del_all_lookup, loop_remove. done.
Qed.

Lemma cleanup_removes m w id :
  expired m w id → tasks (cleanup_old_tasks m w) !! id = None.
Proof.
  intros H. rewrite cleanup_tasks_lookup, decide_True; [done|].
  by apply removed_expired.
Qed.

Lemma cleanup_keeps m w id :
  ¬ expired m w id → tasks (cleanup_old_tasks m w) !! id = tasks w !! id.
Proof.
  intros H. rewrite cleanup_tasks_lookup, decide_False; [done|].
  by rewrite removed_expired.
Qed.

Lemma cleanup_deletes m w id l t p :
  tasks w !! id = Some l → heap w !! l = Some t →
  (m < clock w - created_at t)%Z →
  result_path t = Some p → p ≠ "" → deny_unlink (fs w) !! p = None →
  files (fs (cleanup_old_tasks m w)) !! p = None.
Proof.
  intros Hl Ht Hage Hp Hne Hd. unfold cleanup_old_tasks. simpl.
  apply (loop_deletes _ _ _ _ (id, l) t); try done.
  - by apply elem_of_map_to_list.
  - unfold is_expired. simpl. rewrite Ht. by apply Z.gtb_lt.
Qed.

(** C5 (as amended).  A sweep removes from the registry exactly the entries
    whose record is older than [max_age_seconds] at the clock reading of the
    sweep ([now - created_at > max_age_seconds], whatever the status) and
    keeps every other entry; it touches no task object and no worker.  The
    artifact of every removed record is gone afterwards unless [os.unlink]
    fails on it, and no other file is deleted.  With [max_age_seconds = 0]
    the registry is left empty provided every record was created strictly
    before the clock reading of the sweep. *)
Theorem cleanup_old_tasks_spec m w :
  (∀ id, expired m w id → tasks (cleanup_old_tasks m w) !! id = None)
  ∧ (∀ id, ¬ expired m w id → tasks (cleanup_old_tasks m w) !! id = tasks w !! id)
  ∧ heap (cleanup_old_tasks m w) = heap w
  ∧ threads (cleanup_old_tasks m w) = threads w
  ∧ (∀ id l t p,
       tasks w !! id = Some l → heap w !! l = Some t →
       (m < clock w - created_at t)%Z →
       result_path t = Some p → p ≠ "" → deny_unlink (fs w) !! p = None →
       files (fs (cleanup_old_tasks m w)) !! p = None)
  ∧ (∀ p,
       (∀ id l t, tasks w !! id = Some l → heap w !! l = Some t →
                  (m < clock w - created_at t)%Z → result_path t ≠ Some p) →
       files (fs (cleanup_old_tasks m w)) !! p = files (fs w) !! p)
  ∧ ((∀ id l, tasks w !! id = Some l →
              ∃ t, heap w !! l = Some t ∧ (created_at t < clock w)%Z) →
     tasks (cleanup_old_tasks 0 w) = ∅).
Proof.
  split; [apply cleanup_removes|]. split; [apply cleanup_keeps|].
  split; [done|]. split; [done|]. split; [apply cleanup_deletes|]. split.
  - intros p Hno. unfold cleanup_old_tasks. simpl.
    rewrite loop_files_frame; [done|].
    intros [id l] t Hin He Ht. apply elem_of_map_to_list in Hin.
    unfold is_expired in He. simpl in *. rewrite Ht in He.
    apply (Hno id l t Hin Ht). by apply Z.gtb_lt.
  - intros Hold. apply map_eq. intros id. rewrite lookup_empty.
    destruct (tasks w !! id) as [l|] eqn:Hl.
    + apply cleanup_removes. destruct (Hold id l Hl) as (t & Ht & Hc).
      exists l, t. repeat split; [done..|lia].
    + rewrite cleanup_keeps; [done|].
      intros (l & t & Hl' & _). congruence.
Qed.

(** C10.  When [os.unlink] fails on the artifact of an expired record, the
    sweep logs a warning for that path and still removes the record from
    the registry; every other expired record is removed as well and its
    artifact is deleted (unless that deletion fails too). *)
Theorem cleanup_unlink_failure_contained m w id l t p msg :
  tasks w !! id = Some l → heap w !! l = Some t →
  (m < clock w - created_at t)%Z →
  result_path t = Some p → p ≠ "" →
  is_Some (files (fs w) !! p) → deny_unlink (fs w) !! p = Some msg →
  WarnDeleteSweep (Some p) (mkExc "OSError" msg) ∈ log (cleanup_old_tasks m w)
  ∧ tasks (cleanup_old_tasks m w) !! id = None
  ∧ (∀ id', expired m w id' → tasks (cleanup_old_tasks m w) !! id' = None)
  ∧ (∀ id' l' t' p',
       tasks w !! id' = Some l' → heap w !! l' = Some t' →
       (m < clock w - created_at t')%Z →
       result_path t' = Some p' → p' ≠ "" → deny_unlink (fs w) !! p' = None →
       files (fs (cleanup_old_tasks m w)) !! p' = None).
Proof.
  intros Hl Ht Hage Hp Hne Hex Hd.
  split; [|split; [|split; [apply cleanup_removes|apply cleanup_deletes]]].
  - unfold cleanup_old_tasks. simpl.
    assert (WarnDeleteSweep (Some p) (mkExc "OSError" msg)
              ∈ sw_log (cleanup_loop (clock w) m (heap w) (map_to_list (tasks w))
                          (mkSweep (fs w) (log w) [] 0))) as Hin.
    { apply (loop_warns _ _ _ _ (id, l) t); try done.
      - by apply elem_of_map_to_list.
      - unfold is_expired. simpl. rewrite Ht. by apply Z.gtb_lt. }
    destruct (bool_decide _); [|done]. apply elem_of_app. auto.
  - apply cleanup_removes. exists l, t. done.
Qed.

(** * The claims on the sample scenarios *)

Lemma reachable_world_submitted e : reachable demo_ext (world_submitted e).
Proof. apply reachable_run, reachable_init. Qed.

(** C1, counterexample to the claim as first stated: the status of the
    running job ["a"] is [CANCELLED] as soon as [cancel_task] returns. *)
Lemma cancel_running_changes_status :
  status_at 0 world_running = Some RUNNING
  ∧ (cancel_task "a" world_running).1 = true
  ∧ status_at 0 (cancel_task "a" world_running).2 = Some CANCELLED
  ∧ status_at 0 (cancel_task "a" world_running).2 ≠ status_at 0 world_running.
Proof. vm_compute. repeat split; discriminate. Qed.

Lemma cancel_running_settles_witness :
  reachable demo_ext world_running
  ∧ tasks world_running !! "a" = Some 0
  ∧ heap world_running !! 0 = Some task_running
  ∧ status task_running = RUNNING
  ∧ (cancel_task "a" world_running).1 = true
  ∧ heap (cancel_task "a" world_running).2 !! 0
    = Some (with_status CANCELLED (cancelled_set task_running)).
Proof.
  assert (reachable demo_ext world_running) as H1
    by apply reachable_run, reachable_world_submitted.
  assert (tasks world_running !! "a" = Some 0) as H2 by (vm_compute; reflexivity).
  assert (heap world_running !! 0 = Some task_running) as H3
    by (vm_compute; reflexivity).
  assert (status task_running = RUNNING) as H4 by reflexivity.
  destruct (cancel_running_settles demo_ext world_running "a" 0 task_running
              H1 H2 H3 H4) as (A & B & _).
  exact (conj H1 (conj H2 (conj H3 (conj H4 (conj A B))))).
Defined.



(** C3, counterexample to the claim as first stated: the flag of ["a"] is
    set before the worker starts; the first statement of the worker sets the
    status to [RUNNING], and when the worker has returned [started_at] is
    set. *)
Lemma cancelled_start_passes_through_running :
  heap world_cancelled_early !! 0 = Some task_cancelled_early
  ∧ pc_at 0 world_cancelled_early = Some L117
  ∧ status_at 0 (worker_run demo_ext 0 1 world_cancelled_early) = Some RUNNING
  ∧ pc_at 0 (worker_run demo_ext 0 4 world_cancelled_early) = Some Returned
  ∧ started_at <$> heap (worker_run demo_ext 0 4 world_cancelled_early) !! 0
    = Some (Some 100%Z).
Proof. vm_compute. repeat split. Qed.

Lemma cancelled_before_start_witness :
  reachable demo_ext world_cancelled_early
  ∧ heap world_cancelled_early !! 0 = Some task_cancelled_early
  ∧ threads world_cancelled_early !! 0 = Some (Worker_init engine_ok)
  ∧ pc (Worker_init engine_ok) = L117
  ∧ cancelled task_cancelled_early = true
  ∧ heap (worker_run demo_ext 0 4 world_cancelled_early) !! 0
    = Some (with_status CANCELLED
              (with_started_at (Some (clock world_cancelled_early))
                 task_cancelled_early))
  ∧ fs (worker_run demo_ext 0 4 world_cancelled_early) = fs world_cancelled_early.
Proof.
  assert (reachable demo_ext world_cancelled_early) as H1
    by apply reachable_run, reachable_world_submitted.
  assert (heap world_cancelled_early !! 0 = Some task_cancelled_early) as H2
    by (vm_compute; reflexivity).
  assert (threads world_cancelled_early !! 0 = Some (Worker_init engine_ok)) as H3
    by (vm_compute; reflexivity).
  assert (pc (Worker_init engine_ok) = L117) as H4 by reflexivity.
  assert (cancelled task_cancelled_early = true) as H5 by reflexivity.
  destruct (cancelled_before_start demo_ext world_cancelled_early 0
              task_cancelled_early (Worker_init engine_ok) H1 H2 H3 H4 H5)
    as (_ & A & _ & B & _).
  exact (conj H1 (conj H2 (conj H3 (conj H4 (conj H5 (conj A B)))))).
Defined.



(** C5, counterexample to the claim as first stated: a sweep with
    [max_age_seconds = 0] at the clock reading at which ["a"] was created
    keeps ["a"], so the registry is not left empty; and a sweep that removes
    the record of ["a"] leaves its artifact in place when [os.unlink] fails
    on it. *)
Lemma sweep_zero_counterexample :
  created_at task_pending = clock (world_submitted engine_segments)
  ∧ tasks (cleanup_old_tasks 0 (world_submitted engine_segments)) !! "a" = Some 0
  ∧ tasks (cleanup_old_tasks 0 (world_submitted engine_segments)) ≠ ∅
  ∧ tasks (cleanup_old_tasks 0 world_denied) !! "a" = None
  ∧ is_Some (files (fs (cleanup_old_tasks 0 world_denied)) !! "/tmp/results/a.wav").
Proof.
  split; [reflexivity|]. split; [vm_compute; reflexivity|].
  split; [|split; [vm_compute; reflexivity|vm_compute; eauto]].
  intros H.
  assert (tasks (cleanup_old_tasks 0 (world_submitted engine_segments)) !! "a"
          = Some 0) as Ha by (vm_compute; reflexivity).
  rewrite H in Ha. discriminate.
Qed.

Lemma cleanup_old_tasks_spec_witness :
  (∀ id l, tasks world_old !! id = Some l →
           ∃ t, heap world_old !! l = Some t ∧ (created_at t < clock world_old)%Z)
  ∧ tasks (cleanup_old_tasks 0 world_old) = ∅.
Proof.
  assert (∀ id l, tasks world_old !! id = Some l →
            ∃ t, heap world_old !! l = Some t
                 ∧ (created_at t < clock world_old)%Z) as H.
  { intros id l Hl.
    assert (tasks world_old = {["a" := 0]}) as Ht by (vm_compute; reflexivity).
    rewrite Ht in Hl. apply lookup_singleton_Some in Hl as [_ <-].
    exists task_done. split; vm_compute; reflexivity. }
  destruct (cleanup_old_tasks_spec 0 world_old) as (_ & _ & _ & _ & _ & _ & A).
  exact (conj H (A H)).
Defined.


Lemma create_task_duplicate_witness :
  is_Some (tasks (world_submitted engine_ok) !! "a")
  ∧ create_task "a" request_a (world_submitted engine_ok)
    = (Raised (ValueError "Task with step_id a already exists"),
       world_submitted engine_ok).
Proof.
  assert (is_Some (tasks (world_submitted engine_ok) !! "a")) as H
    by (vm_compute; eauto).
  destruct (create_task_duplicate demo_ext) as (A & _).
  exact (conj H (A (world_submitted engine_ok) "a" request_a H)).
Defined.



Lemma cancel_task_terminal_witness :
  tasks world_done !! "a" = Some 0
  ∧ heap world_done !! 0 = Some task_done
  ∧ terminal (status task_done)
  ∧ (cancel_task "a" world_done).1 = true
  ∧ heap (cancel_task "a" world_done).2 !! 0 = Some (cancelled_set task_done).
Proof.
  assert (tasks world_done !! "a" = Some 0) as H1 by (vm_compute; reflexivity).
  assert (heap world_done !! 0 = Some task_done) as H2 by (vm_compute; reflexivity).
  assert (terminal (status task_done)) as H3 by (left; reflexivity).
  destruct (cancel_task_terminal world_done "a" 0 task_done H1 H2 H3)
    as (A & B & _).
  exact (conj H1 (conj H2 (conj H3 (conj A B)))).
Defined.

Lemma cleanup_unlink_failure_contained_witness :
  tasks world_denied !! "a" = Some 0
  ∧ heap world_denied !! 0 = Some task_done
  ∧ (0 < clock world_denied - created_at task_done)%Z
  ∧ result_path task_done = Some "/tmp/results/a.wav"
  ∧ "/tmp/results/a.wav" ≠ ""
  ∧ is_Some (files (fs world_denied) !! "/tmp/results/a.wav")
  ∧ deny_unlink (fs world_denied) !! "/tmp/results/a.wav" = Some denied_message
  ∧ WarnDeleteSweep (Some "/tmp/results/a.wav") (mkExc "OSError" denied_message)
      ∈ log (cleanup_old_tasks 0 world_denied)
  ∧ tasks (cleanup_old_tasks 0 world_denied) !! "a" = None.
Proof.
  assert (tasks world_denied !! "a" = Some 0) as H1 by (vm_compute; reflexivity).
  assert (heap world_denied !! 0 = Some task_done) as H2
    by (vm_compute; reflexivity).
  assert (0 < clock world_denied - created_at task_done)%Z as H3
    by (vm_compute; reflexivity).
  assert (result_path task_done = Some "/tmp/results/a.wav") as H4 by reflexivity.
  assert ("/tmp/results/a.wav" ≠ "") as H5 by discriminate.
  assert (is_Some (files (fs world_denied) !! "/tmp/results/a.wav")) as H6
    by (vm_compute; eauto).
  assert (deny_unlink (fs world_denied) !! "/tmp/results/a.wav"
          = Some denied_message) as H7 by (vm_compute; reflexivity).
  destruct (cleanup_unlink_failure_contained 0 world_denied "a" 0 task_done
              "/tmp/results/a.wav" denied_message H1 H2 H3 H4 H5 H6 H7)
    as (A & B & _).
  exact (conj H1 (conj H2 (conj H3 (conj H4 (conj H5 (conj H6 (conj H7 (conj A B)))))))).
Defined.

(** * Further properties of the task manager *)

(** ** Invariants of the reachable states *)

(** A property of a record and its worker that holds of a fresh record and
    that every step keeps holds in every reachable state. *)
Lemma reachable_invariant X (P : AsyncTask → option Worker → Prop) :
  (∀ id r now e, P (AsyncTask_init id r now) (Some (Worker_init e))) →
  (∀ t k t' k', rec_ok t k → P t k → obj_step X (t, k) (t', k') → P t' k') →
  ∀ w, reachable X w → ∀ l t, heap w !! l = Some t → P t (threads w !! l).
Proof.
  intros Hinit Hstep w Hw. induction Hw as [dir f now|a w Hw IH]; intros l t' Hl.
  - done.
  - destruct (heap w !! l) as [t|] eqn:Ht.
    + destruct (perform_obj_step X a w l t Ht) as (t'' & Ht'' & Hs).
      assert (t'' = t') as -> by congruence.
      eapply Hstep; [|by apply IH|exact Hs].
      by apply (reachable_world_ok X w Hw).
    + destruct (perform_new_object X a w l t' Ht Hl) as ((id & r & ->) & e & ->).
      apply Hinit.
Qed.

Lemma perform_temp_dir X a w : temp_dir (perform X a w) = temp_dir w.
Proof.
  destruct a as [app req|id| |m|l0|clk]; simpl; try done.
  - unfold generate_audio_enhanced_async, create_task. repeat case_inner; done.
  - unfold stop_async_task, cancel_task. repeat case_inner; done.
  - unfold stop_generation.
    pose proof (cancel_all_tasks_frame w) as (_ & _ & _ & _ & H).
    destruct (cancel_all_tasks w); done.
  - unfold worker_step. repeat case_inner; done.
Qed.

(** An entry of the registry after an action was there before, or is the
    entry of the record that the action created. *)
Lemma perform_tasks X a w id l :
  tasks (perform X a w) !! id = Some l →
  tasks w !! id = Some l
  ∨ (heap w !! l = None
     ∧ ∃ r, heap (perform X a w) !! l = Some (AsyncTask_init id r (clock w))).
Proof.
  destruct a as [app req|id0| |m|l0|clk]; unfold perform.
  - unfold generate_audio_enhanced_async, create_task.
    repeat case_inner; auto. simplify_eq. simpl.
    destruct (decide (req_step_id req = id)) as [<-|Hne].
    + rewrite lookup_insert_eq. intros [= <-]. right.
      split; [apply fresh_loc_None|]. rewrite lookup_insert_eq. eauto.
    + rewrite lookup_insert_ne by done. auto.
  - unfold stop_async_task, cancel_task. repeat case_inner; auto.
  - unfold stop_generation.
    pose proof (cancel_all_tasks_frame w) as (H & _).
    destruct (cancel_all_tasks w); simpl in *. rewrite H. auto.
  - rewrite cleanup_tasks_lookup. case_decide; [done|auto].
  - unfold worker_step. repeat case_inner; auto.
  - auto.
Qed.

Lemma stmt_identity X dir now t k f g :
  step_id (v_task (run_task_stmt X dir now (mkView t k f g))) = step_id t
  ∧ request (v_task (run_task_stmt X dir now (mkView t k f g))) = request t
  ∧ created_at (v_task (run_task_stmt X dir now (mkView t k f g))) = created_at t.
Proof. stmt_cases k; done. Qed.

Lemma obj_step_identity X t k t' k' :
  obj_step X (t, k) (t', k') →
  step_id t' = step_id t ∧ request t' = request t ∧ created_at t' = created_at t.
Proof.
  inversion 1; subst; [done| |apply stmt_identity].
  destruct (cancel_frame t) as (_ & _ & _ & _ & ? & ? & ?). done.
Qed.

Lemma reachable_registry_ok X w : reachable X w → registry_ok w.
Proof.
  induction 1 as [dir f now|a w Hw [IH1 IH2]].
  { split; [intros id l H|intros l [t H]]; simpl in H; by rewrite lookup_empty in H. }
  split.
  - intros id l Hid.
    destruct (perform_tasks X a w id l Hid) as [Hold|(_ & r & Hnew)].
    + destruct (IH1 id l Hold) as (t & Ht & Hs).
      destruct (perform_obj_step X a w l t Ht) as (t' & Ht' & Hstep).
      exists t'. split; [done|].
      destruct (obj_step_identity X _ _ _ _ Hstep) as (-> & _). done.
    + eauto.
  - intros l [t' Hl].
    destruct (heap w !! l) as [t|] eqn:Ht.
    + destruct (IH2 l) as [k Hk]; [eauto|].
      destruct (perform_cases X a w l t Ht)
        as [[_ ->]|[[_ ->]|(_ & k' & _ & _ & ->)]]; eauto.
    + destruct (perform_new_object X a w l t' Ht Hl) as (_ & e & ->). eauto.
Qed.

Lemma times_ok_step X t k t' k' :
  rec_ok t k → times_ok t k → obj_step X (t, k) (t', k') → times_ok t' k'.
Proof.
  intros Hok Ht Hstep. inversion Hstep; subst.
  - done.
  - destruct (cancel_frame t) as (_ & _ & Hs & Hc & _).
    unfold times_ok, rec_ok in *. destruct k' as [k|]; [|by rewrite Hs, Hc].
    destruct (pc k); rewrite ?Hs, ?Hc; try done.
    rewrite cancel_terminal; [done|]. unfold terminal. tauto.
  - revert Hok Ht. clear. unfold times_ok, rec_ok.
    stmt_cases k0; unfold is_Some; intros Hok Ht; try done;
      intuition (eauto; congruence).
Qed.

Lemma reachable_times_ok X w l t :
  reachable X w → heap w !! l = Some t → times_ok t (threads w !! l).
Proof.
  intros Hw. revert l t.
  apply (reachable_invariant X times_ok); [done|apply times_ok_step|done].
Qed.

(** X1.  In every reachable state each registry entry points to a task
    object that carries the entry's id and has its worker; two ids never
    share a task object. *)
Theorem registry_well_formed X w :
  reachable X w →
  (∀ id l, tasks w !! id = Some l →
           ∃ t, heap w !! l = Some t ∧ step_id t = id ∧ is_Some (threads w !! l))
  ∧ (∀ id1 id2 l, tasks w !! id1 = Some l → tasks w !! id2 = Some l → id1 = id2).
Proof.
  intros Hw. destruct (reachable_registry_ok X w Hw) as [H1 H2]. split.
  - intros id l Hid. destruct (H1 id l Hid) as (t & Ht & Hs).
    exists t. repeat split; [done..|]. apply H2. eauto.
  - intros id1 id2 l Hl1 Hl2.
    destruct (H1 id1 l Hl1) as (t1 & Ht1 & <-).
    destruct (H1 id2 l Hl2) as (t2 & Ht2 & <-). congruence.
Qed.

(** ** [create_task] on a free id *)

Lemma get_task_info_lookup id w l t :
  tasks w !! id = Some l → heap w !! l = Some t →
  get_task_info id w
  = Some (mkInfo (step_id t) (status_value (status t)) (created_at t)
            (started_at t) (completed_at t)
            (if bool_decide (status t = COMPLETED) && truthy (result_path t)
             then Some ("/download_result/" +:+ step_id t) else None)
            (if bool_decide (status t = FAILED) then Some (error_message t) else None)).
Proof. intros Hl Ht. unfold get_task_info, get_task. by rewrite Hl, Ht. Qed.

(** X2.  On an id that is not registered, [create_task] returns a task
    object that did not exist before, registers it under the id as a
    [PENDING] record created at the current clock reading, and leaves every
    other entry and every other task object as they were; [get_task_info]
    then reports the record as pending, with no timestamps but
    [created_at] and neither download URL nor error. *)
Theorem create_task_fresh w id r :
  tasks w !! id = None →
  ∃ l, create_task id r w = (Ok l, (create_task id r w).2)
       ∧ heap w !! l = None
       ∧ get_task id (create_task id r w).2 = Some l
       ∧ heap (create_task id r w).2 !! l = Some (AsyncTask_init id r (clock w))
       ∧ (∀ id', id' ≠ id → tasks (create_task id r w).2 !! id' = tasks w !! id')
       ∧ (∀ l', l' ≠ l → heap (create_task id r w).2 !! l' = heap w !! l')
       ∧ threads (create_task id r w).2 = threads w
       ∧ fs (create_task id r w).2 = fs w
       ∧ get_task_info id (create_task id r w).2
         = Some (mkInfo id "pending" (clock w) None None None None).
Proof.
  intros Hid. exists (fresh (dom (heap w))).
  assert (create_task id r w
          = (Ok (fresh (dom (heap w))),
             logger (InfoCreated id)
               (with_tasks (<[id := fresh (dom (heap w))]> (tasks w))
                  (with_heap (<[fresh (dom (heap w)) :=
                                 AsyncTask_init id r (clock w)]> (heap w)) w)))) as ->.
  { unfold create_task. by rewrite Hid. }
  simpl. split; [done|]. split; [apply fresh_loc_None|].
  split; [apply lookup_insert_eq|]. split; [apply lookup_insert_eq|].
  split; [intros id' Hne; by apply lookup_insert_ne|].
  split; [intros l' Hne; by apply lookup_insert_ne|].
  split; [done|]. split; [done|].
  rewrite (get_task_info_lookup id _ (fresh (dom (heap w)))
             (AsyncTask_init id r (clock w)));
    [done| |]; simpl; apply lookup_insert_eq.
Qed.

(** ** Fields that are written once *)

Lemma stmt_status_not_pending X dir now t k f g :
  status t ≠ PENDING →
  status (v_task (run_task_stmt X dir now (mkView t k f g))) ≠ PENDING.
Proof. stmt_cases k; done. Qed.

Lemma stmt_started_at X dir now t k f g x :
  times_ok t (Some k) → started_at t = Some x →
  started_at (v_task (run_task_stmt X dir now (mkView t k f g))) = Some x.
Proof.
  unfold times_ok. stmt_cases k; try done; intros [H _] Hx; congruence.
Qed.

Lemma stmt_completed_at X dir now t k f g x :
  times_ok t (Some k) → completed_at t = Some x →
  completed_at (v_task (run_task_stmt X dir now (mkView t k f g))) = Some x.
Proof.
  unfold times_ok. stmt_cases k; try done; intros [_ H] Hx; congruence.
Qed.

Lemma settled_fields_step X t0 t k t' k' :
  rec_ok t k → times_ok t k ∧ settled_fields t0 t →
  obj_step X (t, k) (t', k') → times_ok t' k' ∧ settled_fields t0 t'.
Proof.
  intros Hok [Ht (Hc & Hs & Hst & Hco)] Hstep.
  split; [by eapply times_ok_step|].
  inversion Hstep; subst.
  - done.
  - destruct (cancel_frame t) as (_ & _ & Hs' & Hc' & _).
    unfold settled_fields. rewrite Hs', Hc', cancel_cancelled.
    repeat split; auto. intros H0 Hp. apply (Hs H0).
    destruct (cancel_status_cases t) as [[_ Hx]|[[?|[?|?]] Hx]]; congruence.
  - unfold settled_fields. rewrite stmt_cancelled. repeat split; auto.
    + intros H0. by apply stmt_status_not_pending, Hs.
    + intros x Hx. by apply stmt_started_at, Hst.
    + intros x Hx. by apply stmt_completed_at, Hco.
Qed.

(** X3.  Along every interleaving a task object stays in the heap with its
    [step_id], [request] and [created_at] unchanged. *)
Theorem identity_fields_constant X w l t acts :
  reachable X w → heap w !! l = Some t →
  ∃ t', heap (run X acts w) !! l = Some t'
        ∧ step_id t' = step_id t ∧ request t' = request t
        ∧ created_at t' = created_at t.
Proof.
  intros Hw Hl.
  destruct (run_preserves X
              (λ t' _, step_id t' = step_id t ∧ request t' = request t
                       ∧ created_at t' = created_at t)) with acts w l t
    as (t' & Hl' & H); try done; [|eauto].
  intros t1 k1 t2 k2 _ (H1 & H2 & H3) Hstep.
  destruct (obj_step_identity X _ _ _ _ Hstep) as (-> & -> & ->). done.
Qed.

(** X4.  Along every interleaving the cancellation flag, once set, stays
    set; a status other than [PENDING] never becomes [PENDING] again; and
    [started_at] and [completed_at], once set, keep their value. *)
Theorem written_once X w l t acts :
  reachable X w → heap w !! l = Some t →
  ∃ t', heap (run X acts w) !! l = Some t'
        ∧ (cancelled t = true → cancelled t' = true)
        ∧ (status t ≠ PENDING → status t' ≠ PENDING)
        ∧ (∀ x, started_at t = Some x → started_at t' = Some x)
        ∧ (∀ x, completed_at t = Some x → completed_at t' = Some x).
Proof.
  intros Hw Hl.
  destruct (run_preserves X (λ t' k, times_ok t' k ∧ settled_fields t t')
              (settled_fields_step X t) acts w l t Hw Hl)
    as (t' & Hl' & _ & H).
  - split; [by apply (reachable_times_ok X)|]. by repeat split.
  - exists t'. split; [done|]. exact H.
Qed.


(** ** [cancel_all_tasks] *)

Lemma cancel_if_active_cancel t :
  active (status t) = true → cancel_if_active (cancel t) = cancel t.
Proof. intros _. unfold cancel_if_active. by rewrite cancel_not_active. Qed.

Lemma cancel_all_loop_heap values : ∀ h count l,
  (cancel_all_loop values h count).1 !! l
  = if decide (l ∈ values) then cancel_if_active <$> h !! l else h !! l.
Proof.
  induction values as [|l0 rest IH]; intros h count l; cbn [cancel_all_loop].
  - rewrite decide_False; [done|]. apply not_elem_of_nil.
  - destruct (decide (l = l0)) as [->|Hne].
    + rewrite (decide_True (P := l0 ∈ l0 :: rest)) by (apply elem_of_cons; auto).
      destruct (h !! l0) as [t0|] eqn:H0; cbn [fmap option_fmap option_map].
      * destruct (active (status t0)) eqn:Ha; rewrite IH.
        -- rewrite lookup_insert_eq. simpl. rewrite cancel_if_active_cancel by done.
           unfold cancel_if_active. rewrite Ha. by case_decide.
        -- rewrite H0. simpl. unfold cancel_if_active. rewrite Ha. by case_decide.
      * rewrite IH, H0. by case_decide.
    + assert (∀ h', h' !! l = h !! l →
                (cancel_all_loop rest h' count).1 !! l
                = (if decide (l ∈ l0 :: rest) then cancel_if_active <$> h !! l
                   else h !! l)) as Hrest.
      { intros h' Hh'. rewrite IH, Hh'.
        destruct (decide (l ∈ rest)) as [Hin|Hnin].
        - rewrite decide_True; [done|]. apply elem_of_cons. auto.
        - rewrite decide_False; [done|]. rewrite elem_of_cons. tauto. }
      destruct (h !! l0) as [t0|] eqn:H0; [|by apply Hrest].
      destruct (active (status t0)); [|by apply Hrest].
      rewrite IH, lookup_insert_ne by done.
      destruct (decide (l ∈ rest)) as [Hin|Hnin].
      * rewrite decide_True; [done|]. apply elem_of_cons. auto.
      * rewrite decide_False; [done|]. rewrite elem_of_cons. tauto.
Qed.

Lemma filter_ext_elem {A} (P Q : A → Prop) `{∀ x, Decision (P x)}
    `{∀ x, Decision (Q x)} (xs : list A) :
  (∀ x, x ∈ xs → (P x ↔ Q x)) → filter P xs = filter Q xs.
Proof.
  induction xs as [|x xs IH]; intros Hext; [done|].
  rewrite !filter_cons.
  rewrite IH by (intros y Hy; apply Hext, elem_of_cons; auto).
  destruct (decide (P x)) as [HP|HP], (decide (Q x)) as [HQ|HQ]; try done;
    exfalso; apply (Hext x) in HP || apply (Hext x) in HQ;
    try done; apply elem_of_cons; auto.
Qed.

(** The count that the loop returns is the number of visited records that
    are [PENDING] or [RUNNING], when no record is visited twice. *)
Lemma cancel_all_loop_count values : ∀ h count,
  NoDup values →
  (cancel_all_loop values h count).2
  = count + length (filter (λ l, (active ∘ status <$> h !! l) = Some true) values).
Proof.
  induction values as [|l0 rest IH]; intros h count Hnd; cbn [cancel_all_loop].
  { simpl. lia. }
  apply NoDup_cons in Hnd as [Hnin Hnd]. rewrite filter_cons.
  destruct (h !! l0) as [t0|] eqn:H0.
  - destruct (active (status t0)) eqn:Ha.
    + rewrite decide_True by (simpl; by rewrite Ha). rewrite IH by done.
      rewrite (filter_ext_elem _
                 (λ l, (active ∘ status <$> h !! l) = Some true) rest).
      * simpl. lia.
      * intros l Hl. rewrite lookup_insert_ne; [done|]. intros ->. done.
    + rewrite decide_False by (simpl; rewrite Ha; discriminate). by apply IH.
  - rewrite decide_False by (simpl; discriminate). by apply IH.
Qed.

Lemma length_filter_fmap {A B} (f : A → B) (P : B → Prop) `{∀ y, Decision (P y)}
    (xs : list A) :
  length (filter P (f <$> xs)) = length (filter (λ x, P (f x)) xs).
Proof.
  induction xs as [|x xs IH]; [done|].
  rewrite fmap_cons, !filter_cons. destruct (decide (P (f x))); simpl; lia.
Qed.

Lemma registry_values_NoDup X w :
  reachable X w → NoDup (map_to_list (tasks w)).*2.
Proof.
  intros Hw. destruct (reachable_registry_ok X w Hw) as [H1 _].
  apply NoDup_fmap_2_strong; [|apply NoDup_map_to_list].
  intros [id1 l1] [id2 l2] Hin1 Hin2 Heq. simpl in Heq. subst l2.
  apply elem_of_map_to_list in Hin1, Hin2.
  destruct (H1 id1 l1 Hin1) as (t1 & Ht1 & <-).
  destruct (H1 id2 l1 Hin2) as (t2 & Ht2 & <-). congruence.
Qed.

Lemma registered_value w l :
  l ∈ (map_to_list (tasks w)).*2 ↔ ∃ id, tasks w !! id = Some l.
Proof.
  rewrite list_elem_of_fmap. split.
  - intros ([id l'] & -> & Hin). apply elem_of_map_to_list in Hin. eauto.
  - intros (id & Hid). exists (id, l). split; [done|]. by apply elem_of_map_to_list.
Qed.

(** X6.  [cancel_all_tasks] applies [AsyncTask.cancel] to exactly the
    registered records that are [PENDING] or [RUNNING]: these become
    [CANCELLED] with the flag set, every other task object (terminal or not
    registered) is left as it was, down to its flag, and in a reachable
    state the returned count is the number of registered records that were
    [PENDING] or [RUNNING]. *)
Theorem cancel_all_tasks_spec X w :
  reachable X w →
  (cancel_all_tasks w).1 = length (active_entries w)
  ∧ (∀ id l t, tasks w !! id = Some l → heap w !! l = Some t →
               status t = PENDING ∨ status t = RUNNING →
               heap (cancel_all_tasks w).2 !! l
               = Some (with_status CANCELLED (cancelled_set t)))
  ∧ (∀ l t, heap w !! l = Some t → terminal (status t) →
            heap (cancel_all_tasks w).2 !! l = Some t)
  ∧ (∀ l, (∀ id, tasks w !! id ≠ Some l) →
          heap (cancel_all_tasks w).2 !! l = heap w !! l)
  ∧ tasks (cancel_all_tasks w).2 = tasks w
  ∧ fs (cancel_all_tasks w).2 = fs w.
Proof.
  intros Hw. pose proof (cancel_all_tasks_frame w) as (Ht & _ & Hf & _).
  rewrite cancel_all_tasks_heap.
  split; [|split; [|split; [|split; [|done]]]].
  - unfold cancel_all_tasks, active_entries.
    pose proof (cancel_all_loop_count (map_to_list (tasks w)).*2 (heap w) 0
                  (registry_values_NoDup X w Hw)) as Hc.
    destruct (cancel_all_loop _ _ _) as [h c]. simpl in *.
    rewrite Hc, length_filter_fmap. done.
  - intros id l t Hid Hl Hs. rewrite cancel_all_loop_heap, decide_True, Hl.
    + simpl. f_equal. unfold cancel_if_active, active.
      rewrite bool_decide_true by done. by apply cancel_active.
    + apply registered_value. eauto.
  - intros l t Hl Hterm. rewrite cancel_all_loop_heap, Hl.
    assert (cancel_if_active t = t) as Hsame.
    { unfold cancel_if_active, active. rewrite bool_decide_false; [done|].
      destruct Hterm as [H|[H|H]]; rewrite H; intros [?|?]; discriminate. }
    case_decide; simpl; by rewrite ?Hsame.
  - intros l Hno. rewrite cancel_all_loop_heap, decide_False; [done|].
    rewrite registered_value. intros [id Hid]. by apply (Hno id).
Qed.

Lemma cancel_all_loop_none_active values : ∀ h count,
  (∀ l t, l ∈ values → h !! l = Some t → active (status t) = false) →
  cancel_all_loop values h count = (h, count).
Proof.
  induction values as [|l0 rest IH]; intros h count Hno; simpl; [done|].
  assert (∀ l t, l ∈ rest → h !! l = Some t → active (status t) = false) as Hrest.
  { intros l t Hin. apply Hno, elem_of_cons. auto. }
  destruct (h !! l0) as [t0|] eqn:H0; [|by apply IH].
  rewrite (Hno l0 t0); [by apply IH|apply elem_of_cons; auto|done].
Qed.

(** X7.  [cancel_all_tasks] is idempotent: called again at once, it finds
    no record to cancel, returns 0 and changes no task object. *)
Theorem cancel_all_tasks_twice w :
  (cancel_all_tasks (cancel_all_tasks w).2).1 = 0
  ∧ heap (cancel_all_tasks (cancel_all_tasks w).2).2 = heap (cancel_all_tasks w).2.
Proof.
  pose proof (cancel_all_tasks_frame w) as (Ht & _).
  pose proof (cancel_all_tasks_heap w) as Hh.
  assert (cancel_all_loop (map_to_list (tasks (cancel_all_tasks w).2)).*2
            (heap (cancel_all_tasks w).2) 0
          = (heap (cancel_all_tasks w).2, 0)) as Hloop.
  { apply cancel_all_loop_none_active. intros l t Hin Hl.
    simpl in Ht. rewrite Ht in Hin. rewrite Hh, cancel_all_loop_heap in Hl.
    rewrite decide_True in Hl by done.
    destruct (heap w !! l) as [t0|]; [|done]. injection Hl as <-.
    unfold cancel_if_active. destruct (active (status t0)) eqn:Ha; [|done].
    apply cancel_not_active. }
  unfold cancel_all_tasks at 1 3. rewrite Hloop. done.
Qed.

(** ** Termination of the worker *)

Lemma stmt_rank X dir now t k f g :
  pc k ≠ Returned →
  rank (request t) (v_worker (run_task_stmt X dir now (mkView t k f g)))
  < rank (request t) k.
Proof.
  unfold rank. stmt_cases k; intros Hpc; try done; simpl; lia.
Qed.

Lemma stmt_returned X dir now t k f g :
  pc k = Returned →
  pc (v_worker (run_task_stmt X dir now (mkView t k f g))) = Returned.
Proof. stmt_cases k; done. Qed.

Lemma rank_zero r k : rank r k = 0 → pc k = Returned.
Proof. unfold rank. destruct (pc k); try done; lia. Qed.

Lemma worker_step_lookup X l w t k :
  heap w !! l = Some t → threads w !! l = Some k →
  heap (worker_step X l w) !! l
  = Some (v_task (run_task_stmt X (temp_dir w) (clock w) (mkView t k (fs w) (log w))))
  ∧ threads (worker_step X l w) !! l
    = Some (v_worker (run_task_stmt X (temp_dir w) (clock w)
                        (mkView t k (fs w) (log w)))).
Proof.
  intros Ht Hk. rewrite (worker_step_view X l w t k Ht Hk).
  unfold install. simpl. by rewrite !lookup_insert_eq.
Qed.

Lemma is_step_true l a : is_step l a = true → a = Step l.
Proof.
  destruct a; simpl; try done. intros H. apply bool_decide_eq_true in H. by subst.
Qed.

Lemma is_step_false l a : is_step l a = false → a ≠ Step l.
Proof.
  intros H ->. simpl in H. by rewrite bool_decide_true in H.
Qed.

(** X8.  [run_task] terminates: whatever the other threads do in between,
    a worker has returned once it has executed [rank] statements of its
    own, a number bounded by three per element that the inference
    generator can still yield plus twenty. *)
Theorem worker_terminates X acts : ∀ w l t k,
  heap w !! l = Some t → threads w !! l = Some k →
  rank (request t) k ≤ steps_of l acts →
  pc_at l (run X acts w) = Some Returned
  ∧ rank (request t) k
    ≤ 3 * (length (inference (engine k) (request t)) + length (gen k)) + 20.
Proof.
  intros w l t k Ht Hk Hle. split.
  - revert w t k Ht Hk Hle.
    induction acts as [|a acts IH]; intros w t k Ht Hk Hle.
    + simpl. unfold pc_at. rewrite Hk. simpl. f_equal.
      apply (rank_zero (request t)). unfold steps_of in Hle. simpl in Hle. lia.
    + simpl. unfold steps_of in Hle. rewrite filter_cons in Hle.
      destruct (is_step l a) eqn:Ha.
      * apply is_step_true in Ha as ->. simpl.
        destruct (worker_step_lookup X l w t k Ht Hk) as [Ht' Hk'].
        eapply IH; [exact Ht'|exact Hk'|].
        destruct (stmt_identity X (temp_dir w) (clock w) t k (fs w) (log w))
          as (_ & -> & _).
        rewrite decide_True in Hle by done. simpl in Hle.
        destruct (decide (pc k = Returned)) as [Hret|Hret].
        -- unfold rank at 1.
           rewrite (stmt_returned X _ _ t k _ _ Hret). unfold steps_of. lia.
        -- pose proof (stmt_rank X (temp_dir w) (clock w) t k (fs w) (log w) Hret).
           unfold steps_of. lia.
      * rewrite decide_False in Hle by discriminate.
        apply is_step_false in Ha.
        destruct (perform_cases X a w l t Ht)
          as [[Ht' Hk']|[[Ht' Hk']|(? & _)]]; [| |done].
        -- eapply IH; [exact Ht'|by rewrite Hk'|done].
        -- eapply IH; [exact Ht'|by rewrite Hk'|].
           destruct (cancel_frame t) as (_ & _ & _ & _ & _ & _ & ->). done.
  - unfold rank. destruct (pc k); lia.
Qed.

(** ** A successful run *)

(** Without a cancellation, the final output leaves the loop in four
    statements (lines 131, 133, 146 and 148). *)
Lemma final_stmts X dir now t k f g a rest :
  pc k = L131 → cancelled t = false → gen k = Yield (Final a) :: rest →
  stmts X dir now 4 (mkView t k f g)
  = mkView t (with_audio_data (Some a)
                (with_result (Some (Final a)) (with_gen rest (at_pc L152 k)))) f g.
Proof. intros Hpc Hc Hg. destruct k, t; simpl in *; subst. reflexivity. Qed.

(** Lines 152 to 177 when serializing and writing succeed. *)
Lemma success_stmts X dir now t k f g a b :
  pc k = L152 → audio_data k = Some a →
  sf_write X a (w_sample_rate k) (format (request t)) = Ok b →
  deny_write f !! path_str X dir (artifact_name t) = None →
  stmts X dir now 9 (mkView t k f g)
  = mkView (with_completed_at (Some now)
              (with_status COMPLETED
                 (with_result_path (Some (path_str X dir (artifact_name t))) t)))
      (at_pc Returned
         (with_buffer b
            (with_w_result_path (path_str X dir (artifact_name t))
               (with_result_filename (artifact_name t) k))))
      (mkFS (<[path_str X dir (artifact_name t) := b]> (files f))
            (deny_unlink f) (deny_write f))
      (g ++ [InfoCompleted (step_id t) (started_at t ≫= λ s, Some (now - s)%Z)]).
Proof.
  intros Hpc Ha Hsf Hw. unfold artifact_name in *.
  destruct k, t; simpl in *; subst.
  cbn. rewrite Hsf. cbn. unfold write_file. cbn. rewrite Hw. cbn. reflexivity.
Qed.

Lemma success_run X w l t k segs a rest b :
  heap w !! l = Some t → threads w !! l = Some k →
  pc k = L117 → cancelled t = false →
  inference (engine k) (request t)
  = ((Yield ∘ Segment) <$> segs) ++ Yield (Final a) :: rest →
  sf_write X a (sample_rate (engine k)) (format (request t)) = Ok b →
  deny_write (fs w) !! path_str X (temp_dir w) (artifact_name t) = None →
  worker_run X l (3 * length segs + 19) w
  = install l
      (mkView
         (with_completed_at (Some (clock w))
            (with_status COMPLETED
               (with_result_path (Some (path_str X (temp_dir w) (artifact_name t)))
                  (with_started_at (Some (clock w)) (with_status RUNNING t)))))
         (at_pc Returned
            (with_buffer b
               (with_w_result_path (path_str X (temp_dir w) (artifact_name t))
                  (with_result_filename (artifact_name t)
                     (with_audio_data (Some a)
                        (with_result (Some (Final a))
                           (with_gen rest
                              (with_sample_rate (sample_rate (engine k)) k))))))))
         (mkFS (<[path_str X (temp_dir w) (artifact_name t) := b]> (files (fs w)))
               (deny_unlink (fs w)) (deny_write (fs w)))
         (log w ++ [InfoCompleted (step_id t) (Some 0%Z)])) w.
Proof.
  intros Ht Hk Hpc Hc Hinf Hsf Hw.
  replace (3 * length segs + 19) with (S (5 + 3 * length segs + 13)) by lia.
  rewrite (worker_run_view X l _ w t k Ht Hk).
  replace (S (5 + 3 * length segs + 13))
    with (6 + (3 * length segs + (4 + 9))) by lia.
  rewrite !stmts_add.
  rewrite (prologue_stmts X _ _ t k _ _ Hpc Hc), Hinf.
  rewrite (segments_loop X _ _ segs _ _ _ _ (Yield (Final a) :: rest));
    [|by destruct k|by destruct t|by destruct k].
  rewrite (final_stmts X _ _ _ _ _ _ a rest);
    [|by destruct k|by destruct t|by destruct k].
  rewrite (success_stmts X _ _ _ _ _ _ a b);
    [|by destruct k|by destruct k|by destruct k, t|by destruct t].
  f_equal. destruct k, t; simpl in *; subst.
  unfold artifact_name. simpl. by rewrite Z.sub_diag.
Qed.

(** X9.  When the inference yields segments and then the final audio, no
    cancellation is observed, [sf.write] succeeds and the artifact can be
    written, the worker returns after [3 * n + 19] statements: the record is
    [COMPLETED] with [started_at], [completed_at] and [result_path] set and
    no error, the artifact at [result_path] holds exactly what [sf.write]
    produced from the final audio, no other file has changed, and the
    completion is logged. *)
Theorem successful_run X w l t k segs a rest b :
  heap w !! l = Some t → threads w !! l = Some k →
  pc k = L117 → cancelled t = false →
  inference (engine k) (request t)
  = ((Yield ∘ Segment) <$> segs) ++ Yield (Final a) :: rest →
  sf_write X a (sample_rate (engine k)) (format (request t)) = Ok b →
  deny_write (fs w) !! path_str X (temp_dir w) (artifact_name t) = None →
  pc_at l (worker_run X l (3 * length segs + 19) w) = Some Returned
  ∧ heap (worker_run X l (3 * length segs + 19) w) !! l
    = Some (mkTask (step_id t) (request t) COMPLETED (created_at t)
              (Some (clock w)) (Some (clock w)) (error_message t)
              (Some (path_str X (temp_dir w) (artifact_name t))) false)
  ∧ files (fs (worker_run X l (3 * length segs + 19) w))
    = <[path_str X (temp_dir w) (artifact_name t) := b]> (files (fs w))
  ∧ log (worker_run X l (3 * length segs + 19) w)
    = log w ++ [InfoCompleted (step_id t) (Some 0%Z)].
Proof.
  intros Ht Hk Hpc Hc Hinf Hsf Hw.
  rewrite (success_run X w l t k segs a rest b Ht Hk Hpc Hc Hinf Hsf Hw).
  rewrite pc_at_install, heap_install. simpl.
  split; [by destruct k|]. split; [|done].
  destruct t; simpl in *; subst. done.
Qed.

(** ** [download_result] *)

Lemma truthy_true_iff o : truthy o = true ↔ ∃ s, o = Some s ∧ s ≠ "".
Proof.
  destruct o as [s|]; simpl.
  - rewrite negb_true_iff, String.eqb_neq. split; [eauto|].
    by intros (s' & [= <-] & H).
  - split; [done|]. by intros (s & ? & _).
Qed.

Lemma download_result_ok gct id w l t p content :
  id ≠ "" → tasks w !! id = Some l → heap w !! l = Some t →
  status t = COMPLETED → result_path t = Some p → p ≠ "" →
  files (fs w) !! p = Some content →
  download_result gct (Some id) w
  = inr (mkStreamResponse content
           ("attachment; filename=audio_" +:+ id +:+ "." +:+ format (request t))
           (gct (format (request t)))).
Proof.
  intros Hid Hl Ht Hs Hp Hne Hf. unfold download_result, get_task.
  rewrite (truthy_Some id Hid). simpl. rewrite Hl. simpl. rewrite Ht, Hs.
  simpl. rewrite Hp, (truthy_Some p Hne). simpl. by rewrite Hf.
Qed.

(** X10.  [download_result] returns a stream only for a non-empty id that is
    registered, whose record is [COMPLETED] and whose result path is
    non-empty and exists; the stream then carries the content of that file.
    Every other request is refused with 400 (no id, or a record that is not
    [COMPLETED]) or 404 (unknown id, or artifact missing), and never with
    another status. *)
Theorem download_result_spec gct param w :
  (∀ s, download_result gct param w = inr s →
        ∃ id l t p,
          param = Some id ∧ id ≠ "" ∧ tasks w !! id = Some l
          ∧ heap w !! l = Some t ∧ status t = COMPLETED
          ∧ result_path t = Some p ∧ p ≠ ""
          ∧ files (fs w) !! p = Some (stream_body s))
  ∧ (∀ e, download_result gct param w = inl e →
          (http_status e = 400%Z
           ∧ (truthy param = false
              ∨ ∃ l t, tasks w !! default "" param = Some l ∧ heap w !! l = Some t
                       ∧ status t ≠ COMPLETED))
          ∨ (http_status e = 404%Z
             ∧ (get_task (default "" param) w ≫= (heap w !!.) = None
                ∨ ∃ l t, tasks w !! default "" param = Some l
                         ∧ heap w !! l = Some t ∧ status t = COMPLETED
                         ∧ (truthy (result_path t) = false
                            ∨ files (fs w) !! default "" (result_path t) = None)))).
Proof.
  unfold download_result, get_task. split.
  - intros s. destruct (truthy param) eqn:Hp; simpl; [|done].
    apply truthy_true_iff in Hp as (id & -> & Hid). simpl.
    destruct (tasks w !! id) as [l|] eqn:Hl; simpl; [|done].
    destruct (heap w !! l) as [t|] eqn:Ht; [|done].
    destruct (bool_decide (status t = COMPLETED)) eqn:Hs; simpl; [|done].
    apply bool_decide_eq_true in Hs.
    destruct (truthy (result_path t)) eqn:Hr; [|done].
    apply truthy_true_iff in Hr as (p & Hr & Hne). rewrite Hr. simpl.
    destruct (files (fs w) !! p) as [content|] eqn:Hf; [|done].
    intros [= <-]. exists id, l, t, p. done.
  - intros e. destruct (truthy param) eqn:Hp; simpl.
    + destruct (tasks w !! default "" param) as [l|] eqn:Hl; simpl.
      * destruct (heap w !! l) as [t|] eqn:Ht.
        -- destruct (bool_decide (status t = COMPLETED)) eqn:Hs; simpl.
           ++ apply bool_decide_eq_true in Hs.
              destruct (truthy (result_path t)) eqn:Hr.
              ** destruct (files (fs w) !! default "" (result_path t)) eqn:Hf;
                   [done|]. intros [= <-]. right. split; [done|]. right.
                 exists l, t. auto.
              ** intros [= <-]. right. split; [done|]. right. exists l, t. auto.
           ++ apply bool_decide_eq_false in Hs. intros [= <-]. left.
              split; [done|]. right. eauto.
        -- intros [= <-]. right. auto.
      * intros [= <-]. right. auto.
    + intros [= <-]. left. auto.
Qed.

(** X11.  After a successful run, [download_result] for the job's id returns
    the bytes that [sf.write] produced from the final audio, under the file
    name [audio_<id>.<format>]. *)
Theorem download_after_success X gct w id l t k segs a rest b :
  id ≠ "" → tasks w !! id = Some l →
  path_str X (temp_dir w) (artifact_name t) ≠ "" →
  heap w !! l = Some t → threads w !! l = Some k →
  pc k = L117 → cancelled t = false →
  inference (engine k) (request t)
  = ((Yield ∘ Segment) <$> segs) ++ Yield (Final a) :: rest →
  sf_write X a (sample_rate (engine k)) (format (request t)) = Ok b →
  deny_write (fs w) !! path_str X (temp_dir w) (artifact_name t) = None →
  download_result gct (Some id) (worker_run X l (3 * length segs + 19) w)
  = inr (mkStreamResponse b
           ("attachment; filename=audio_" +:+ id +:+ "." +:+ format (request t))
           (gct (format (request t)))).
Proof.
  intros Hid Hl Hpath Ht Hk Hpc Hc Hinf Hsf Hw.
  rewrite (success_run X w l t k segs a rest b Ht Hk Hpc Hc Hinf Hsf Hw).
  rewrite (download_result_ok gct id _ l
             (with_completed_at (Some (clock w))
                (with_status COMPLETED
                   (with_result_path (Some (path_str X (temp_dir w) (artifact_name t)))
                      (with_started_at (Some (clock w)) (with_status RUNNING t)))))
             (path_str X (temp_dir w) (artifact_name t)) b); try done.
  - apply heap_install.
  - unfold install. simpl. apply lookup_insert_eq.
Qed.

(** ** A cancellation seen inside the loop *)

(** X12.  When the flag is set as the generator yields a result, be it a
    segment or the final audio, the worker discards the result and returns
    in four statements: the record becomes [CANCELLED] and nothing else of
    it changes, the generator is not resumed again, no audio is kept and the
    file system and the log are untouched. *)
Theorem cancelled_in_loop X w l t k r rest :
  heap w !! l = Some t → threads w !! l = Some k →
  pc k = L131 → gen k = Yield r :: rest →
  cancelled t = true → result_path t = None →
  heap (worker_run X l 4 w) !! l = Some (with_status CANCELLED t)
  ∧ threads (worker_run X l 4 w) !! l
    = Some (at_pc Returned (with_result (Some r) (with_gen rest k)))
  ∧ fs (worker_run X l 4 w) = fs w
  ∧ log (worker_run X l 4 w) = log w.
Proof.
  intros Ht Hk Hpc Hg Hc Hr.
  rewrite (worker_run_view X l _ w t k Ht Hk).
  assert (stmts X (temp_dir w) (clock w) 4 (mkView t k (fs w) (log w))
          = mkView (with_status CANCELLED t)
              (at_pc Returned (with_result (Some r) (with_gen rest k)))
              (fs w) (log w)) as ->.
  { destruct k, t; simpl in *; subst. reflexivity. }
  unfold install. simpl. by rewrite !lookup_insert_eq.
Qed.

(** ** [get_task_status] *)

(** X13.  In a reachable state, [get_task_status] for a non-empty registered
    id answers 200 and echoes that id together with the record's status and
    timestamps.  A download URL is present exactly when the record is
    [COMPLETED] with a non-empty result path, and it then names the queried
    id; an error is present only for a [FAILED] record, and it is present
    for every [FAILED] record whose worker has returned. *)
Theorem get_task_status_registered X w id l t :
  reachable X w → id ≠ "" → tasks w !! id = Some l → heap w !! l = Some t →
  get_task_status (Some id) w
  = mkStatusResponse 200 true id (status_value (status t)) (created_at t)
      (started_at t) (completed_at t)
      (if bool_decide (status t = COMPLETED) && truthy (result_path t)
       then Some ("/download_result/" +:+ id) else None)
      (if bool_decide (status t = FAILED) then error_message t else None)
  ∧ (is_Some (ts_download_url (get_task_status (Some id) w)) →
     status t = COMPLETED ∧ ts_error (get_task_status (Some id) w) = None)
  ∧ (is_Some (ts_error (get_task_status (Some id) w)) → status t = FAILED)
  ∧ (status t = FAILED → pc_at l w = Some Returned →
     is_Some (ts_error (get_task_status (Some id) w))).
Proof.
  intros Hw Hid Hl Ht.
  destruct (reachable_registry_ok X w Hw) as [Hreg _].
  destruct (Hreg id l Hl) as (t' & Ht' & Hsid).
  assert (t' = t) as -> by congruence.
  assert (get_task_status (Some id) w
          = mkStatusResponse 200 true id (status_value (status t)) (created_at t)
              (started_at t) (completed_at t)
              (if bool_decide (status t = COMPLETED) && truthy (result_path t)
               then Some ("/download_result/" +:+ id) else None)
              (if bool_decide (status t = FAILED) then error_message t else None))
    as ->.
  { unfold get_task_status. rewrite (truthy_Some id Hid). simpl.
    rewrite (get_task_info_lookup id w l t Hl Ht), Hsid. simpl.
    by destruct (bool_decide (status t = FAILED)). }
  split; [done|]. simpl.
  pose proof (reachable_world_ok X w Hw l t Ht) as Hok.
  split; [|split].
  - destruct (bool_decide (status t = COMPLETED)) eqn:Hs; simpl; [|by intros [? ?]].
    apply bool_decide_eq_true in Hs. intros _. split; [done|].
    rewrite bool_decide_false; [done|]. rewrite Hs. discriminate.
  - destruct (bool_decide (status t = FAILED)) eqn:Hs; [|by intros [? ?]].
    intros _. by apply bool_decide_eq_true in Hs.
  - intros Hs Hpc. rewrite bool_decide_true by done.
    apply pc_at_Some in Hpc as (k & Hk & Hpc).
    rewrite Hk in Hok. simpl in Hok. rewrite Hpc in Hok.
    destruct Hok as [(? & _)|[(_ & _ & ?)|(? & _)]]; [congruence|done|congruence].
Qed.

(** ** Sweeping twice, and what is left of an evicted id *)

Lemma loop_none_expired now m h items : ∀ s,
  (∀ item, item ∈ items → is_expired now m h item = false) →
  cleanup_loop now m h items s = s.
Proof.
  induction items as [|item items IH]; intros s Hno; [done|].
  rewrite loop_cons.
  assert (cleanup_visit now m h item s = s) as ->.
  { specialize (Hno item). unfold is_expired, cleanup_visit in *.
    destruct (h !! item.2); [|done].
    rewrite Hno; [done|]. apply elem_of_cons. auto. }
  apply IH. intros item' Hin. apply Hno, elem_of_cons. auto.
Qed.

Lemma cleanup_no_expired m w :
  (∀ id, ¬ expired m w id) → cleanup_old_tasks m w = w.
Proof.
  intros Hno. unfold cleanup_old_tasks.
  rewrite loop_none_expired.
  - simpl. by destruct w.
  - intros [id l] Hin. apply elem_of_map_to_list in Hin.
    destruct (is_expired (clock w) m (heap w) (id, l)) eqn:He; [|done].
    exfalso. apply (Hno id), expired_is_expired. eauto.
Qed.

(** X14.  A sweep is idempotent: a second sweep with the same bound at the
    same clock reading changes nothing at all. *)
Theorem cleanup_old_tasks_twice m w :
  cleanup_old_tasks m (cleanup_old_tasks m w) = cleanup_old_tasks m w.
Proof.
  apply cleanup_no_expired. intros id (l & t & Hl & Ht & Hage).
  rewrite cleanup_tasks_lookup in Hl.
  destruct (decide (id ∈ _)) as [Hin|Hnin]; [done|].
  apply Hnin, removed_expired. exists l, t. done.
Qed.

(** X15.  Once a sweep has evicted an id, the id is unknown to every
    operation: [get_task] and [get_task_info] return [None], [cancel_task]
    returns [False] and changes nothing, [download_result] answers 404, and
    [create_task] accepts the id again.  The evicted task object itself and
    its worker are untouched. *)
Theorem evicted_id_unknown gct m w id r :
  expired m w id → id ≠ "" →
  get_task id (cleanup_old_tasks m w) = None
  ∧ get_task_info id (cleanup_old_tasks m w) = None
  ∧ get_task_status (Some id) (cleanup_old_tasks m w)
    = mkStatusResponse 404 false id "not_found" 0 None None None None
  ∧ cancel_task id (cleanup_old_tasks m w) = (false, cleanup_old_tasks m w)
  ∧ download_result gct (Some id) (cleanup_old_tasks m w)
    = inl (mkHTTPException 404 ("Task " +:+ id +:+ " not found"))
  ∧ (∃ l, (create_task id r (cleanup_old_tasks m w)).1 = Ok l)
  ∧ heap (cleanup_old_tasks m w) = heap w
  ∧ threads (cleanup_old_tasks m w) = threads w.
Proof.
  intros He Hid. pose proof (cleanup_removes m w id He) as Hnone.
  assert (heap (cleanup_old_tasks m w) = heap w
          ∧ threads (cleanup_old_tasks m w) = threads w) as Hframe by done.
  revert Hnone Hframe. generalize (cleanup_old_tasks m w). intros w' Hnone Hframe.
  assert (get_task_info id w' = None) as Hinfo.
  { unfold get_task_info, get_task. by rewrite Hnone. }
  split; [done|]. split; [done|]. split; [|split; [|split; [|split]]].
  - unfold get_task_status. rewrite (truthy_Some id Hid). simpl. by rewrite Hinfo.
  - unfold cancel_task. by rewrite Hnone.
  - unfold download_result, get_task. rewrite (truthy_Some id Hid). simpl.
    by rewrite Hnone.
  - unfold create_task. rewrite Hnone. simpl. eauto.
  - done.
Qed.

(** ** The files a worker touches *)

Lemma cancel_artifact_name t : artifact_name (cancel t) = artifact_name t.
Proof.
  destruct (cancel_frame t) as (_ & _ & _ & _ & _ & Hs & Hr).
  unfold artifact_name. by rewrite Hs, Hr.
Qed.

Lemma stmt_footprint_ok X dir now t k f g :
  rec_ok t (Some k) → footprint_ok X dir t (Some k) →
  footprint_ok X dir (v_task (run_task_stmt X dir now (mkView t k f g)))
    (Some (v_worker (run_task_stmt X dir now (mkView t k f g)))).
Proof.
  unfold footprint_ok, locals_ok, rec_ok, artifact_name.
  destruct t as [sid rq st ca sa co em rp c]. simpl.
  stmt_cases k; simpl; intros Hok [Hl Hp]; subst;
    try (split; [done|discriminate]); try done.
  all: destruct Hok as (_ & Hrp & _); subst; simpl in *; try discriminate.
Qed.

Lemma reachable_footprint_ok X w :
  reachable X w →
  ∀ l t, heap w !! l = Some t → footprint_ok X (temp_dir w) t (threads w !! l).
Proof.
  induction 1 as [dir f now|a w Hw IH]; intros l t' Hl; [done|].
  rewrite perform_temp_dir.
  destruct (heap w !! l) as [t|] eqn:Ht.
  - pose proof (IH l t Ht) as Hfp.
    pose proof (reachable_world_ok X w Hw l t Ht) as Hok.
    destruct (perform_cases X a w l t Ht)
      as [[Ht' Hk']|[[Ht' Hk']|(_ & k & Hk & Ht' & Hk')]];
      rewrite Ht' in Hl; injection Hl as <-; rewrite Hk'.
    + done.
    + unfold footprint_ok, locals_ok in *. destruct (threads w !! l) as [k|]; [|done].
      destruct (pc k); rewrite ?cancel_artifact_name; done.
    + rewrite Hk in Hfp, Hok. by apply stmt_footprint_ok.
  - destruct (perform_new_object X a w l t' Ht Hl) as (_ & e & ->).
    split; [done|discriminate].
Qed.

(** X16.  In a reachable state a statement of a worker never deletes a file
    (the deletion of line 138 is never reached), never changes what can be
    unlinked or written, and changes no file other than the artifact of its
    own record, [temp_dir / "<step_id>.<format>"]. *)
Theorem worker_file_footprint X w l t :
  reachable X w → heap w !! l = Some t →
  deny_unlink (fs (worker_step X l w)) = deny_unlink (fs w)
  ∧ deny_write (fs (worker_step X l w)) = deny_write (fs w)
  ∧ (∀ p, is_Some (files (fs w) !! p) →
          is_Some (files (fs (worker_step X l w)) !! p))
  ∧ (∀ p, p ≠ path_str X (temp_dir w) (artifact_name t) →
          files (fs (worker_step X l w)) !! p = files (fs w) !! p).
Proof.
  intros Hw Ht.
  pose proof (reachable_footprint_ok X w Hw l t Ht) as [Hloc Hp].
  destruct (threads w !! l) as [k|] eqn:Hk.
  - rewrite (worker_step_view X l w t k Ht Hk). unfold install. simpl.
    revert Hloc Hp. unfold locals_ok, artifact_name.
    generalize (fs w) (log w) (temp_dir w) (clock w). intros f g dir now.
    destruct t as [sid rq st ca sa co em rp c]. simpl.
    stmt_cases k; simpl; intros Hloc Hp; try done.
    unfold write_file in *. simpl in *.
    match goal with H : context [deny_write f !! _] |- _ =>
      destruct (deny_write f !! w_result_path0) in H; [done|] end.
    simplify_eq. simpl. repeat split.
    + intros p [x Hx].
      destruct (decide (p = path_str X dir (sid +:+ "." +:+ format rq))) as [->|Hne].
      * rewrite lookup_insert_eq. eauto.
      * rewrite lookup_insert_ne by done. eauto.
    + intros p Hne. by rewrite lookup_insert_ne.
  - unfold worker_step. rewrite Ht, Hk. done.
Qed.

(** ** [generate_audio_enhanced_async] *)



(** ** The stopping handlers: [stop_async_task] and [stop_generation] *)

Lemma get_task_status_found id w l t :
  id ≠ "" → tasks w !! id = Some l → heap w !! l = Some t →
  ts_code (get_task_status (Some id) w) = 200%Z
  ∧ ts_status (get_task_status (Some id) w) = status_value (status t).
Proof.
  intros Hid Hl Ht. unfold get_task_status. rewrite (truthy_Some id Hid). simpl.
  by rewrite (get_task_info_lookup id w l t Hl Ht).
Qed.

Lemma status_value_cancel t :
  status_value (status (cancel t))
  = (if active (status t) then "cancelled" else status_value (status t))
  ∧ status_value (status (cancel t)) ≠ "pending"
  ∧ status_value (status (cancel t)) ≠ "running".
Proof. destruct t as [? ? [] ? ? ? ? ? ?]; repeat split; done. Qed.

Lemma cancel_all_tasks_count X w :
  reachable X w → (cancel_all_tasks w).1 = length (active_entries w).
Proof.
  intros Hw. unfold cancel_all_tasks, active_entries.
  pose proof (cancel_all_loop_count (map_to_list (tasks w)).*2 (heap w) 0
                (registry_values_NoDup X w Hw)) as Hc.
  destruct (cancel_all_loop _ _ _) as [h c]. simpl in *.
  rewrite Hc, length_filter_fmap. done.
Qed.

Lemma cancel_all_tasks_registered w id l :
  tasks w !! id = Some l →
  heap (cancel_all_tasks w).2 !! l = cancel_if_active <$> heap w !! l.
Proof.
  intros Hid. rewrite cancel_all_tasks_heap, cancel_all_loop_heap, decide_True; [done|].
  apply registered_value. eauto.
Qed.

Lemma cancel_all_tasks_none_left w :
  (cancel_all_tasks (cancel_all_tasks w).2).1 = 0.
Proof.
  pose proof (cancel_all_tasks_frame w) as (Ht & _).
  pose proof (cancel_all_tasks_heap w) as Hh.
  assert (cancel_all_loop (map_to_list (tasks (cancel_all_tasks w).2)).*2
            (heap (cancel_all_tasks w).2) 0
          = (heap (cancel_all_tasks w).2, 0)) as Hloop.
  { apply cancel_all_loop_none_active. intros l t Hin Hl.
    simpl in Ht. rewrite Ht in Hin. rewrite Hh, cancel_all_loop_heap in Hl.
    rewrite decide_True in Hl by done.
    destruct (heap w !! l) as [t0|]; [|done]. injection Hl as <-.
    unfold cancel_if_active. destruct (active (status t0)) eqn:Ha; [|done].
    apply cancel_not_active. }
  unfold cancel_all_tasks at 1. rewrite Hloop. done.
Qed.

(** X25.  [stop_async_task] answers 404 and changes nothing for an id that is
    not registered.  For a registered id it answers 200 with the message
    that the task is stopped, whatever the status of the record was: the
    record has [AsyncTask.cancel] applied, so a status query made at once
    reports [cancelled] for a record that was pending or running and the
    unchanged [completed], [failed] or [cancelled] otherwise, and never
    [pending] or [running]. *)
Theorem stop_async_task_spec w id :
  id ≠ "" →
  (tasks w !! id = None →
   stop_async_task id w
   = (mkResponse 404 false ("Task " +:+ id +:+ " not found") id "", w))
  ∧ (∀ l t, tasks w !! id = Some l → heap w !! l = Some t →
       (stop_async_task id w).1
       = mkResponse 200 true ("Task " +:+ id +:+ " stopped") id ""
       ∧ heap (stop_async_task id w).2 !! l = Some (cancel t)
       ∧ (∀ l', l' ≠ l → heap (stop_async_task id w).2 !! l' = heap w !! l')
       ∧ ts_code (get_task_status (Some id) (stop_async_task id w).2) = 200%Z
       ∧ ts_status (get_task_status (Some id) (stop_async_task id w).2)
         = (if active (status t) then "cancelled" else status_value (status t))
       ∧ ts_status (get_task_status (Some id) (stop_async_task id w).2) ≠ "pending"
       ∧ ts_status (get_task_status (Some id) (stop_async_task id w).2) ≠ "running").
Proof.
  intros Hid. split.
  - intros Hnone. unfold stop_async_task, cancel_task. by rewrite Hnone.
  - intros l t Hl Ht.
    assert (stop_async_task id w
            = (mkResponse 200 true ("Task " +:+ id +:+ " stopped") id "",
               logger (InfoCancelled id) (with_heap (alter cancel l (heap w)) w)))
      as ->.
    { unfold stop_async_task. by rewrite (cancel_task_found w id l Hl). }
    simpl. split; [done|].
    assert (alter cancel l (heap w) !! l = Some (cancel t)) as Hl'.
    { by rewrite lookup_alter_eq, Ht. }
    split; [done|].
    split; [intros l' Hne; by rewrite lookup_alter_ne|].
    destruct (get_task_status_found id
                (logger (InfoCancelled id) (with_heap (alter cancel l (heap w)) w))
                l (cancel t) Hid Hl Hl') as [-> ->].
    split; [done|]. apply status_value_cancel.
Qed.

(** X26.  [stop_generation] answers 200 and names the number of registered
    records that were pending or running.  A status query made at once
    reports [cancelled] for each of them and the unchanged status for every
    other registered record, and a second call at once reports that it
    stopped 0 tasks. *)
Theorem stop_generation_spec X w :
  reachable X w →
  (stop_generation w).1
  = mkResponse 200 true
      ("Stopped " +:+ pretty (length (active_entries w)) +:+ " task(s)") "" ""
  ∧ (∀ id l t, id ≠ "" → tasks w !! id = Some l → heap w !! l = Some t →
       ts_code (get_task_status (Some id) (stop_generation w).2) = 200%Z
       ∧ ts_status (get_task_status (Some id) (stop_generation w).2)
         = (if active (status t) then "cancelled" else status_value (status t)))
  ∧ (stop_generation (stop_generation w).2).1
    = mkResponse 200 true "Stopped 0 task(s)" "" "".
Proof.
  intros Hw.
  assert (∀ w0, stop_generation w0
                = (mkResponse 200 true
                     ("Stopped " +:+ pretty (cancel_all_tasks w0).1 +:+ " task(s)") "" "",
                   (cancel_all_tasks w0).2)) as Hstop.
  { intros w0. unfold stop_generation. by destruct (cancel_all_tasks w0). }
  rewrite !Hstop. simpl. split; [|split].
  - by rewrite (cancel_all_tasks_count X w Hw).
  - intros id l t Hid Hl Ht.
    pose proof (cancel_all_tasks_frame w) as (Htasks & _). simpl in Htasks.
    assert (tasks (cancel_all_tasks w).2 !! id = Some l) as Hl' by by rewrite Htasks.
    assert (heap (cancel_all_tasks w).2 !! l = Some (cancel_if_active t)) as Ht'.
    { by rewrite (cancel_all_tasks_registered w id l Hl), Ht. }
    destruct (get_task_status_found id _ l _ Hid Hl' Ht') as [-> ->].
    split; [done|]. unfold cancel_if_active.
    destruct (active (status t)) eqn:Ha; [|done].
    destruct (status_value_cancel t) as [-> _]. by rewrite Ha.
  - by rewrite cancel_all_tasks_none_left.
Qed.

(** * Properties of [update_reference] *)

Lemma lstrip_nil s : lstrip s = [] ↔ blank s = true.
Proof.
  unfold blank. induction s as [|c s IH]; simpl; [done|].
  destruct (is_space c); simpl; [done|]. split; discriminate.
Qed.

Lemma lstrip_blank s : blank (lstrip s) = blank s.
Proof.
  unfold blank. induction s as [|c s IH]; simpl; [done|].
  destruct (is_space c) eqn:Hc; simpl; [done|]. by rewrite Hc.
Qed.

Lemma blank_reverse s : blank (reverse s) = blank s.
Proof.
  unfold blank. induction s as [|c s IH]; simpl; [done|].
  rewrite reverse_cons, forallb_app, IH. simpl.
  rewrite andb_true_r. apply andb_comm.
Qed.

Lemma strip_nil s : strip s = [] ↔ blank s = true.
Proof.
  unfold strip, rstrip.
  rewrite <- (lstrip_blank s), <- (blank_reverse (lstrip s)), <- lstrip_nil.
  split; [|by intros ->].
  intros H. apply (f_equal reverse) in H. by rewrite reverse_involutive in H.
Qed.

Lemma falsy_strip s : falsy s || falsy (strip s) = blank s.
Proof.
  unfold falsy. destruct s as [|c s]; [done|].
  rewrite (bool_decide_false (c :: s = [])) by done. simpl orb.
  destruct (blank (c :: s)) eqn:Hb.
  - apply bool_decide_eq_true, strip_nil, Hb.
  - apply bool_decide_eq_false. rewrite strip_nil, Hb. done.
Qed.

Lemma class_plus_spec class k s :
  class_plus class k s = true
  ↔ ∃ body rest, body ≠ [] ∧ s = body ++ rest
                 ∧ Forall (λ c, class c = true) body ∧ k rest = true.
Proof.
  induction s as [|c s IH]; simpl.
  - split; [done|]. intros (body & rest & Hne & Happ & _).
    symmetry in Happ. apply app_eq_nil in Happ as [-> _]. done.
  - rewrite andb_true_iff, orb_true_iff, IH. split.
    + intros [Hc [(body & rest & Hne & -> & Hall & Hk)|Hk]].
      * exists (c :: body), rest. repeat split; [done|by constructor|done].
      * exists [c], s. repeat split; [done|by repeat constructor|done].
    + intros (body & rest & Hne & Happ & Hall & Hk).
      destruct body as [|c' body]; [done|]. injection Happ as <- ->.
      apply Forall_cons in Hall as [Hc Hall]. split; [done|].
      destruct body as [|c'' body]; [by right|]. left.
      exists (c'' :: body), rest. done.
Qed.

Lemma newline_not_id_class : id_class 10 = false.
Proof. reflexivity. Qed.

(** X18.  [id_pattern] accepts exactly the non-empty strings of letters,
    digits, hyphens, underscores and spaces, and those strings followed by
    one newline: [$] also matches just before a newline that ends the
    string. *)
Theorem id_pattern_accepts s :
  re_match id_pattern s = true
  ↔ ∃ body, id_chars body ∧ (s = body ∨ s = body ++ [10%N]).
Proof.
  unfold re_match, id_pattern, id_chars. simpl. rewrite class_plus_spec. split.
  - intros (body & rest & Hne & -> & Hall & Hk). exists body. split; [done|].
    rewrite andb_true_r, orb_true_iff, !bool_decide_eq_true in Hk.
    destruct Hk as [-> | ->]; [left; by rewrite app_nil_r|by right].
  - intros (body & [Hne Hall] & [-> | ->]).
    + exists body, []. rewrite app_nil_r. done.
    + exists body, [10%N]. done.
Qed.

Section update_reference_facts.
Context {V : Type} (ref_dir : pystr → pystr).
Implicit Types (s : RefStore V) (old new : pystr).

Lemma check_ids_None old new : check_ids old new = None ↔ ids_pass old new.
Proof.
  unfold check_ids, ids_pass. rewrite !falsy_strip.
  destruct (blank old); [intuition discriminate|].
  destruct (blank new); [intuition discriminate|].
  case_bool_decide as Heq; [intuition discriminate|].
  destruct (re_match id_pattern new); simpl; [|intuition discriminate].
  case_bool_decide as Hlen; [|intuition lia].
  split; [discriminate|]. intros (_ & _ & _ & _ & ?). lia.
Qed.

Lemma check_ids_Some old new :
  ¬ ids_pass old new →
  check_ids old new = Some (mkError "ValueError" (invalid_ids_message old new)).
Proof.
  intros Hno. rewrite <- check_ids_None in Hno. revert Hno.
  unfold check_ids, invalid_ids_message. rewrite !falsy_strip.
  destruct (blank old); [done|]. destruct (blank new); [done|].
  case_bool_decide; [done|].
  destruct (negb (re_match id_pattern new) || bool_decide (255 < length new)); done.
Qed.

Lemma invalid_ids_eq old new s :
  ¬ ids_pass old new →
  update_reference ref_dir old new s
  = (mkUpdateResponse 400 false (invalid_ids_message old new) old new,
     ref_logger (LogWarning (lit "Invalid input for update reference: "
                             ++ invalid_ids_message old new)) s).
Proof.
  intros Hno. unfold update_reference, update_reference_try.
  rewrite (check_ids_Some old new Hno). reflexivity.
Qed.

Lemma missing_eq old new s :
  ids_pass old new →
  (∀ children, entries s !! ref_dir old ≠ Some (Dir children)) →
  update_reference ref_dir old new s
  = (mkUpdateResponse 404 false (lit "Reference ID '" ++ old ++ lit "' not found")
       old new,
     ref_logger (LogWarning (lit "Reference ID '" ++ old ++ lit "' not found")) s).
Proof.
  intros Hok Hno. apply check_ids_None in Hok.
  unfold update_reference, update_reference_try. rewrite Hok.
  unfold path_exists, path_is_dir.
  destruct (entries s !! ref_dir old) as [[children|content]|] eqn:Hold.
  - by destruct (Hno children).
  - rewrite bool_decide_true by eauto. reflexivity.
  - rewrite bool_decide_false by (intros [? ?]; done). reflexivity.
Qed.

Lemma conflict_eq old new s children :
  ids_pass old new →
  entries s !! ref_dir old = Some (Dir children) →
  is_Some (entries s !! ref_dir new) →
  update_reference ref_dir old new s
  = (mkUpdateResponse 409 false
       (lit "Reference ID '" ++ new ++ lit "' already exists") old new, s).
Proof.
  intros Hok Hold Hnew. apply check_ids_None in Hok.
  unfold update_reference, update_reference_try. rewrite Hok.
  unfold path_exists, path_is_dir.
  rewrite Hold, !bool_decide_true by eauto. reflexivity.
Qed.

Lemma update_reference_renames old new s children :
  ids_pass old new →
  entries s !! ref_dir old = Some (Dir children) →
  entries s !! ref_dir new = None →
  update_reference ref_dir old new s
  = match deny_rename s !! ref_dir old with
    | Some e => update_reference_except e old new s
    | None =>
        (mkUpdateResponse 200 true
           (lit "Reference voice renamed from '" ++ old ++ lit "' to '" ++ new
            ++ lit "' successfully") old new,
         move_cache_key old new
           (mkRefStore (<[ref_dir new := Dir children]> (delete (ref_dir old) (entries s)))
              (deny_rename s) (ref_by_id s) (ref_log s)))
    end.
Proof.
  intros Hok Hold Hnew. apply check_ids_None in Hok.
  unfold update_reference, update_reference_try, path_exists, path_is_dir, path_rename.
  rewrite Hok, Hold, Hnew, bool_decide_true by eauto.
  rewrite bool_decide_false by (intros [? ?]; done). simpl.
  by destruct (deny_rename s !! ref_dir old).
Qed.

Lemma update_reference_ok old new s children :
  ids_pass old new →
  entries s !! ref_dir old = Some (Dir children) →
  entries s !! ref_dir new = None →
  deny_rename s !! ref_dir old = None →
  update_reference ref_dir old new s
  = (mkUpdateResponse 200 true
       (lit "Reference voice renamed from '" ++ old ++ lit "' to '" ++ new
        ++ lit "' successfully") old new,
     move_cache_key old new
       (mkRefStore (<[ref_dir new := Dir children]> (delete (ref_dir old) (entries s)))
          (deny_rename s) (ref_by_id s) (ref_log s))).
Proof.
  intros Hok Hold Hnew Hd.
  by rewrite (update_reference_renames old new s children Hok Hold Hnew), Hd.
Qed.

Lemma except_refused e old new s :
  refused old new s (update_reference_except e old new s).
Proof.
  unfold refused, update_reference_except.
  destruct (isinstance e "FileNotFoundError"); [simpl; eauto 15|].
  destruct (isinstance e "ValueError"); [simpl; eauto 15|].
  destruct (isinstance e "OSError"); simpl; eauto 15.
Qed.

(** The cases of [update_reference]. *)
Lemma update_reference_cases old new s :
  (¬ ids_pass old new)
  ∨ (ids_pass old new ∧ ∀ children, entries s !! ref_dir old ≠ Some (Dir children))
  ∨ (ids_pass old new ∧ (∃ children, entries s !! ref_dir old = Some (Dir children))
     ∧ is_Some (entries s !! ref_dir new))
  ∨ (ids_pass old new ∧ (∃ children, entries s !! ref_dir old = Some (Dir children))
     ∧ entries s !! ref_dir new = None ∧ is_Some (deny_rename s !! ref_dir old))
  ∨ (ids_pass old new ∧ (∃ children, entries s !! ref_dir old = Some (Dir children))
     ∧ entries s !! ref_dir new = None ∧ deny_rename s !! ref_dir old = None).
Proof.
  destruct (check_ids old new) as [e|] eqn:Hc.
  - left. rewrite <- check_ids_None, Hc. done.
  - right. apply check_ids_None in Hc.
    destruct (entries s !! ref_dir old) as [[children|content]|] eqn:Hold;
      [|left; split; [done|intros ?; done]..].
    right. destruct (entries s !! ref_dir new) eqn:Hnew; [left; eauto|].
    right. destruct (deny_rename s !! ref_dir old) eqn:Hd; [left|right]; eauto 10.
Qed.

Lemma update_reference_outcomes old new s :
  (ids_pass old new
   ∧ (∃ children, entries s !! ref_dir old = Some (Dir children))
   ∧ entries s !! ref_dir new = None
   ∧ deny_rename s !! ref_dir old = None)
  ∨ refused old new s (update_reference ref_dir old new s).
Proof.
  destruct (update_reference_cases old new s)
    as [Hno|[[Hok Hno]|[(Hok & [ch Hold] & Hnew)|[(Hok & [ch Hold] & Hnew & [e He])|H]]]];
    [right..|by left].
  - rewrite (invalid_ids_eq old new s Hno). unfold refused. simpl. eauto 15.
  - rewrite (missing_eq old new s Hok Hno). unfold refused. simpl. eauto 15.
  - rewrite (conflict_eq old new s ch Hok Hold Hnew). unfold refused. simpl. eauto 15.
  - rewrite (update_reference_renames old new s ch Hok Hold Hnew), He.
    apply except_refused.
Qed.

Lemma refused_not_200 old new s r : refused old new s r → ur_status_code r.1 ≠ 200%Z.
Proof. intros (_ & [H|[H|[H|H]]] & _); rewrite H; done. Qed.

Lemma status_200 old new s :
  ur_status_code (update_reference ref_dir old new s).1 = 200%Z →
  ids_pass old new
  ∧ (∃ children, entries s !! ref_dir old = Some (Dir children))
  ∧ entries s !! ref_dir new = None
  ∧ deny_rename s !! ref_dir old = None.
Proof.
  intros H200. destruct (update_reference_outcomes old new s) as [H|H]; [done|].
  by apply refused_not_200 in H.
Qed.

(** X19.  Ids that fail a check of lines 376-388 are answered with 400 and
    the message of the first check that fails, in the order: old id
    empty or white space only, new id empty or white space only, the two
    ids equal, new id not matching [id_pattern] or longer than 255
    characters.  Nothing is looked up or renamed; one warning is logged. *)
Theorem update_reference_invalid_ids old new s :
  ¬ ids_pass old new →
  ∃ msg,
    update_reference ref_dir old new s
    = (mkUpdateResponse 400 false msg old new,
       ref_logger (LogWarning (lit "Invalid input for update reference: " ++ msg)) s)
    ∧ msg
      = (if blank old then lit "Old reference ID cannot be empty"
         else if blank new then lit "New reference ID cannot be empty"
         else if bool_decide (old = new)
              then lit "New reference ID must be different from old reference ID"
              else lit "New reference ID contains invalid characters or is too long").
Proof.
  intros Hno. exists (invalid_ids_message old new).
  split; [by apply invalid_ids_eq|done].
Qed.

(** X20.  For ids that pass the checks: when the old id does not name a
    directory (nothing there, or a regular file) the answer is 404, whether
    or not the new id is taken; when it does and the new path exists, the
    answer is 409 and nothing at all changes, not even the log. *)
Theorem update_reference_missing_or_conflict old new s :
  ids_pass old new →
  ((∀ children, entries s !! ref_dir old ≠ Some (Dir children)) →
   update_reference ref_dir old new s
   = (mkUpdateResponse 404 false (lit "Reference ID '" ++ old ++ lit "' not found")
        old new,
      ref_logger (LogWarning (lit "Reference ID '" ++ old ++ lit "' not found")) s))
  ∧ (∀ children, entries s !! ref_dir old = Some (Dir children) →
                 is_Some (entries s !! ref_dir new) →
     update_reference ref_dir old new s
     = (mkUpdateResponse 409 false
          (lit "Reference ID '" ++ new ++ lit "' already exists") old new, s)).
Proof.
  intros Hok. split; [by apply missing_eq|].
  intros children. by apply conflict_eq.
Qed.

(** X21.  [update_reference] answers 200 exactly when the ids pass the
    checks, the old id names a directory, the new path does not exist and
    the rename is not refused; the old id itself is not held to
    [id_pattern].  The directory is then found under the new path and no
    longer under the old one, every other path is as before; the cache has
    no entry for the old id, the entry it had (if any) is under the new id,
    and every other cache entry is as before. *)
Theorem update_reference_success old new s :
  (ur_status_code (update_reference ref_dir old new s).1 = 200%Z
   ↔ ids_pass old new
     ∧ (∃ children, entries s !! ref_dir old = Some (Dir children))
     ∧ entries s !! ref_dir new = None
     ∧ deny_rename s !! ref_dir old = None)
  ∧ (ur_status_code (update_reference ref_dir old new s).1 = 200%Z →
     (update_reference ref_dir old new s).1
     = mkUpdateResponse 200 true
         (lit "Reference voice renamed from '" ++ old ++ lit "' to '" ++ new
          ++ lit "' successfully") old new
     ∧ entries (update_reference ref_dir old new s).2 !! ref_dir new
       = entries s !! ref_dir old
     ∧ entries (update_reference ref_dir old new s).2 !! ref_dir old = None
     ∧ (∀ p, p ≠ ref_dir old → p ≠ ref_dir new →
             entries (update_reference ref_dir old new s).2 !! p = entries s !! p)
     ∧ ref_by_id (update_reference ref_dir old new s).2 !! old = None
     ∧ ref_by_id (update_reference ref_dir old new s).2 !! new
       = match ref_by_id s !! old with
         | Some v => Some v
         | None => ref_by_id s !! new
         end
     ∧ (∀ id, id ≠ old → id ≠ new →
              ref_by_id (update_reference ref_dir old new s).2 !! id
              = ref_by_id s !! id)
     ∧ ref_log (update_reference ref_dir old new s).2 = ref_log s).
Proof.
  split; [split; [apply status_200|]|].
  - intros (Hok & [children Hold] & Hnew & Hd).
    by rewrite (update_reference_ok old new s children Hok Hold Hnew Hd).
  - intros H200. apply status_200 in H200 as (Hok & [children Hold] & Hnew & Hd).
    rewrite (update_reference_ok old new s children Hok Hold Hnew Hd).
    assert (ref_dir old ≠ ref_dir new) as Hne by congruence.
    assert (old ≠ new) as Hne' by (intros ->; done).
    unfold move_cache_key. simpl.
    split; [done|].
    destruct (ref_by_id s !! old) as [v|] eqn:Hv; simpl.
    + split; [by rewrite lookup_insert_eq|].
      split; [by rewrite lookup_insert_ne, lookup_delete_eq|].
      split; [intros p H1 H2; by rewrite lookup_insert_ne, lookup_delete_ne|].
      split; [by rewrite lookup_insert_ne, lookup_delete_eq|].
      split; [by rewrite lookup_insert_eq|].
      split; [intros p H1 H2; by rewrite lookup_insert_ne, lookup_delete_ne|done].
    + split; [by rewrite lookup_insert_eq|].
      split; [by rewrite lookup_insert_ne, lookup_delete_eq|].
      split; [intros p H1 H2; by rewrite lookup_insert_ne, lookup_delete_ne|].
      done.
Qed.

(** X22.  Every answer other than 200 is a refusal with status 400, 404,
    409 or 500 and [success = False] that leaves the directory tree and the
    cache exactly as they were and logs at most one record; and every
    answer echoes the two ids of the request. *)
Theorem update_reference_failure_atomic old new s :
  (ur_status_code (update_reference ref_dir old new s).1 ≠ 200%Z →
   ur_success (update_reference ref_dir old new s).1 = false
   ∧ (ur_status_code (update_reference ref_dir old new s).1 = 400
      ∨ ur_status_code (update_reference ref_dir old new s).1 = 404
      ∨ ur_status_code (update_reference ref_dir old new s).1 = 409
      ∨ ur_status_code (update_reference ref_dir old new s).1 = 500)%Z
   ∧ entries (update_reference ref_dir old new s).2 = entries s
   ∧ ref_by_id (update_reference ref_dir old new s).2 = ref_by_id s
   ∧ (ref_log (update_reference ref_dir old new s).2 = ref_log s
      ∨ ∃ record, ref_log (update_reference ref_dir old new s).2
                  = ref_log s ++ [record]))
  ∧ ur_old_reference_id (update_reference ref_dir old new s).1 = old
  ∧ ur_new_reference_id (update_reference ref_dir old new s).1 = new
  ∧ (ur_success (update_reference ref_dir old new s).1 = true
     ↔ ur_status_code (update_reference ref_dir old new s).1 = 200%Z).
Proof.
  destruct (update_reference_outcomes old new s)
    as [(Hok & [children Hold] & Hnew & Hd)|H].
  - rewrite (update_reference_ok old new s children Hok Hold Hnew Hd). simpl.
    split; [done|]. done.
  - pose proof (refused_not_200 _ _ _ _ H) as H200.
    destruct H as (H1 & H2 & H3 & H4 & H5 & H6 & H7 & H8).
    split; [done|]. split; [done|]. split; [done|].
    rewrite H1. split; [done|]. intros ?. done.
Qed.

(** X23.  When the operating system refuses the rename, the answer follows
    the class of the exception: 404 with its message for a
    [FileNotFoundError], 400 with its message for a [ValueError], and
    otherwise 500 with a fixed message that does not repeat the
    exception's.  The tree and the cache are unchanged. *)
Theorem update_reference_rename_refused old new s children e :
  ids_pass old new →
  entries s !! ref_dir old = Some (Dir children) →
  entries s !! ref_dir new = None →
  deny_rename s !! ref_dir old = Some e →
  (update_reference ref_dir old new s).1
  = mkUpdateResponse
      (if isinstance e "FileNotFoundError" then 404
       else if isinstance e "ValueError" then 400 else 500)
      false
      (if isinstance e "FileNotFoundError" || isinstance e "ValueError" then err_str e
       else if isinstance e "OSError" then lit "File system error occurred"
            else lit "Internal server error occurred")
      old new
  ∧ entries (update_reference ref_dir old new s).2 = entries s
  ∧ ref_by_id (update_reference ref_dir old new s).2 = ref_by_id s.
Proof.
  intros Hok Hold Hnew He.
  rewrite (update_reference_renames old new s children Hok Hold Hnew), He.
  unfold update_reference_except.
  destruct (isinstance e "FileNotFoundError"); [done|].
  destruct (isinstance e "ValueError"); [done|].
  destruct (isinstance e "OSError"); done.
Qed.

(** X24.  Renaming back undoes a rename: after a successful rename from
    [old] to [new], when [old] is itself an id that [id_pattern] accepts,
    the cache had no entry under [new] and the rename back is not refused,
    the call with the ids exchanged answers 200 and restores the tree and
    the cache. *)
Theorem update_reference_round_trip old new s :
  ur_status_code (update_reference ref_dir old new s).1 = 200%Z →
  re_match id_pattern old = true → length old ≤ 255 →
  ref_by_id s !! new = None →
  deny_rename s !! ref_dir new = None →
  ur_status_code
    (update_reference ref_dir new old (update_reference ref_dir old new s).2).1
  = 200%Z
  ∧ (update_reference ref_dir new old (update_reference ref_dir old new s).2).2 = s.
Proof.
  intros H200 Hre Hlen Hcache Hd'.
  apply status_200 in H200 as (Hok & [children Hold] & Hnew & Hd).
  rewrite (update_reference_ok old new s children Hok Hold Hnew Hd). simpl.
  assert (ref_dir old ≠ ref_dir new) as Hne by congruence.
  destruct Hok as (Hb1 & Hb2 & Hneq & _).
  assert (ids_pass new old) as Hok' by (repeat split; done).
  set (s1 := move_cache_key old new _).
  assert (entries s1 = <[ref_dir new := Dir children]> (delete (ref_dir old) (entries s))
          ∧ deny_rename s1 = deny_rename s ∧ ref_log s1 = ref_log s) as (He1 & Hd1 & Hl1).
  { unfold s1, move_cache_key. simpl. by destruct (ref_by_id s !! old). }
  rewrite (update_reference_ok new old s1 children Hok').
  - simpl. split; [done|].
    assert (<[ref_dir old := Dir children]> (delete (ref_dir new) (entries s1))
            = entries s) as ->.
    { rewrite He1. apply map_eq. intros p.
      destruct (decide (p = ref_dir old)) as [->|H1]; [by rewrite lookup_insert_eq|].
      rewrite lookup_insert_ne by done.
      destruct (decide (p = ref_dir new)) as [->|H2]; [by rewrite lookup_delete_eq|].
      by rewrite lookup_delete_ne, lookup_insert_ne, lookup_delete_ne. }
    rewrite Hd1, Hl1. unfold s1, move_cache_key. simpl.
    destruct (ref_by_id s !! old) as [v|] eqn:Hv; simpl.
    + rewrite lookup_insert_eq.
      assert (<[old := v]> (delete new (<[new := v]> (delete old (ref_by_id s))))
              = ref_by_id s) as ->; [|by destruct s].
      apply map_eq. intros id.
      destruct (decide (id = old)) as [->|H1]; [by rewrite lookup_insert_eq|].
      rewrite lookup_insert_ne by done.
      destruct (decide (id = new)) as [->|H2]; [by rewrite lookup_delete_eq|].
      by rewrite lookup_delete_ne, lookup_insert_ne, lookup_delete_ne.
    + rewrite Hcache. by destruct s.
  - rewrite He1. apply lookup_insert_eq.
  - rewrite He1, lookup_insert_ne, lookup_delete_eq; done.
  - by rewrite Hd1.
Qed.
End update_reference_facts.

(** * The further properties on the sample scenarios *)

Lemma reachable_world_done : reachable demo_ext world_done.
Proof. apply reachable_run, reachable_world_submitted. Qed.

Lemma registry_well_formed_witness :
  reachable demo_ext world_done
  ∧ ∀ id l, tasks world_done !! id = Some l →
            ∃ t, heap world_done !! l = Some t ∧ step_id t = id
                 ∧ is_Some (threads world_done !! l).
Proof.
  exact (conj reachable_world_done
           (proj1 (registry_well_formed demo_ext world_done reachable_world_done))).
Defined.

Lemma create_task_fresh_witness :
  tasks world0 !! "a" = None
  ∧ ∃ l, create_task "a" request_a world0
         = (Ok l, (create_task "a" request_a world0).2)
         ∧ heap world0 !! l = None
         ∧ get_task "a" (create_task "a" request_a world0).2 = Some l.
Proof.
  assert (tasks world0 !! "a" = None) as H by reflexivity.
  destruct (create_task_fresh world0 "a" request_a H) as (l & A & B & C & _).
  exact (conj H (ex_intro _ l (conj A (conj B C)))).
Defined.

Lemma identity_fields_constant_witness :
  reachable demo_ext world_running
  ∧ heap world_running !! 0 = Some task_running
  ∧ ∃ t', heap (run demo_ext [StopTask "a"; Step 0] world_running) !! 0 = Some t'
          ∧ step_id t' = step_id task_running
          ∧ request t' = request task_running
          ∧ created_at t' = created_at task_running.
Proof.
  assert (reachable demo_ext world_running) as H1
    by apply reachable_run, reachable_world_submitted.
  assert (heap world_running !! 0 = Some task_running) as H2
    by (vm_compute; reflexivity).
  exact (conj H1 (conj H2
           (identity_fields_constant demo_ext world_running 0 task_running
              [StopTask "a"; Step 0] H1 H2))).
Defined.

Lemma written_once_witness :
  reachable demo_ext world_running
  ∧ heap world_running !! 0 = Some task_running
  ∧ ∃ t', heap (run demo_ext [StopTask "a"; Step 0] world_running) !! 0 = Some t'
          ∧ (cancelled task_running = true → cancelled t' = true)
          ∧ (status task_running ≠ PENDING → status t' ≠ PENDING)
          ∧ (∀ x, started_at task_running = Some x → started_at t' = Some x)
          ∧ (∀ x, completed_at task_running = Some x → completed_at t' = Some x).
Proof.
  assert (reachable demo_ext world_running) as H1
    by apply reachable_run, reachable_world_submitted.
  assert (heap world_running !! 0 = Some task_running) as H2
    by (vm_compute; reflexivity).
  exact (conj H1 (conj H2
           (written_once demo_ext world_running 0 task_running
              [StopTask "a"; Step 0] H1 H2))).
Defined.


Lemma cancel_all_tasks_spec_witness :
  reachable demo_ext world_running
  ∧ (cancel_all_tasks world_running).1 = length (active_entries world_running).
Proof.
  assert (reachable demo_ext world_running) as H1
    by apply reachable_run, reachable_world_submitted.
  exact (conj H1 (proj1 (cancel_all_tasks_spec demo_ext world_running H1))).
Defined.

Lemma worker_terminates_witness :
  heap (world_submitted engine_ok) !! 0 = Some task_pending
  ∧ threads (world_submitted engine_ok) !! 0 = Some (Worker_init engine_ok)
  ∧ rank (request task_pending) (Worker_init engine_ok)
    ≤ steps_of 0 (replicate 13 (Step 0) ++ [StopAll] ++ replicate 13 (Step 0))
  ∧ pc_at 0 (run demo_ext (replicate 13 (Step 0) ++ [StopAll] ++ replicate 13 (Step 0))
               (world_submitted engine_ok)) = Some Returned.
Proof.
  assert (heap (world_submitted engine_ok) !! 0 = Some task_pending) as H1
    by (vm_compute; reflexivity).
  assert (threads (world_submitted engine_ok) !! 0 = Some (Worker_init engine_ok))
    as H2 by (vm_compute; reflexivity).
  assert (rank (request task_pending) (Worker_init engine_ok)
          ≤ steps_of 0 (replicate 13 (Step 0) ++ [StopAll] ++ replicate 13 (Step 0)))
    as H3 by (vm_compute; lia).
  exact (conj H1 (conj H2 (conj H3
           (proj1 (worker_terminates demo_ext _ (world_submitted engine_ok) 0
                     task_pending (Worker_init engine_ok) H1 H2 H3))))).
Defined.

Lemma successful_run_witness :
  heap (world_submitted engine_ok) !! 0 = Some task_pending
  ∧ threads (world_submitted engine_ok) !! 0 = Some (Worker_init engine_ok)
  ∧ pc (Worker_init engine_ok) = L117
  ∧ cancelled task_pending = false
  ∧ inference (engine (Worker_init engine_ok)) (request task_pending)
    = ((Yield ∘ Segment) <$> [[Byte.x01]]) ++ Yield (Final [1; 2; 3]%Z) :: []
  ∧ sf_write demo_ext [1; 2; 3]%Z (sample_rate (engine (Worker_init engine_ok)))
      (format (request task_pending)) = Ok artifact_a
  ∧ deny_write (fs (world_submitted engine_ok))
      !! path_str demo_ext (temp_dir (world_submitted engine_ok))
           (artifact_name task_pending) = None
  ∧ pc_at 0 (worker_run demo_ext 0 (3 * 1 + 19) (world_submitted engine_ok))
    = Some Returned.
Proof.
  assert (heap (world_submitted engine_ok) !! 0 = Some task_pending) as H1
    by (vm_compute; reflexivity).
  assert (threads (world_submitted engine_ok) !! 0 = Some (Worker_init engine_ok))
    as H2 by (vm_compute; reflexivity).
  assert (pc (Worker_init engine_ok) = L117) as H3 by reflexivity.
  assert (cancelled task_pending = false) as H4 by reflexivity.
  assert (inference (engine (Worker_init engine_ok)) (request task_pending)
          = ((Yield ∘ Segment) <$> [[Byte.x01]]) ++ Yield (Final [1; 2; 3]%Z) :: [])
    as H5 by reflexivity.
  assert (sf_write demo_ext [1; 2; 3]%Z (sample_rate (engine (Worker_init engine_ok)))
            (format (request task_pending)) = Ok artifact_a) as H6 by reflexivity.
  assert (deny_write (fs (world_submitted engine_ok))
            !! path_str demo_ext (temp_dir (world_submitted engine_ok))
                 (artifact_name task_pending) = None) as H7
    by (vm_compute; reflexivity).
  exact (conj H1 (conj H2 (conj H3 (conj H4 (conj H5 (conj H6 (conj H7
           (proj1 (successful_run demo_ext (world_submitted engine_ok) 0 task_pending
                     (Worker_init engine_ok) [[Byte.x01]] [1; 2; 3]%Z [] artifact_a
                     H1 H2 H3 H4 H5 H6 H7))))))))).
Defined.

Lemma download_result_spec_witness :
  download_result demo_content_type (Some "a") world_done
  = inr (mkStreamResponse artifact_a "attachment; filename=audio_a.wav" "audio/wav")
  ∧ ∃ id l t p,
      Some "a" = Some id ∧ id ≠ "" ∧ tasks world_done !! id = Some l
      ∧ heap world_done !! l = Some t ∧ status t = COMPLETED
      ∧ result_path t = Some p ∧ p ≠ ""
      ∧ files (fs world_done) !! p = Some artifact_a.
Proof.
  assert (download_result demo_content_type (Some "a") world_done
          = inr (mkStreamResponse artifact_a "attachment; filename=audio_a.wav"
                   "audio/wav")) as H by (vm_compute; reflexivity).
  exact (conj H
           (proj1 (download_result_spec demo_content_type (Some "a") world_done) _ H)).
Defined.

Lemma download_after_success_witness :
  "a" ≠ ""
  ∧ tasks (world_submitted engine_ok) !! "a" = Some 0
  ∧ path_str demo_ext (temp_dir (world_submitted engine_ok))
      (artifact_name task_pending) ≠ ""
  ∧ download_result demo_content_type (Some "a")
      (worker_run demo_ext 0 (3 * 1 + 19) (world_submitted engine_ok))
    = inr (mkStreamResponse artifact_a
             ("attachment; filename=audio_" +:+ "a" +:+ "."
              +:+ format (request task_pending))
             (demo_content_type (format (request task_pending)))).
Proof.
  assert ("a" ≠ "") as H0 by discriminate.
  assert (tasks (world_submitted engine_ok) !! "a" = Some 0) as H0'
    by (vm_compute; reflexivity).
  assert (path_str demo_ext (temp_dir (world_submitted engine_ok))
            (artifact_name task_pending) ≠ "") as H0'' by (vm_compute; discriminate).
  assert (heap (world_submitted engine_ok) !! 0 = Some task_pending) as H1
    by (vm_compute; reflexivity).
  assert (threads (world_submitted engine_ok) !! 0 = Some (Worker_init engine_ok))
    as H2 by (vm_compute; reflexivity).
  assert (pc (Worker_init engine_ok) = L117) as H3 by reflexivity.
  assert (cancelled task_pending = false) as H4 by reflexivity.
  assert (inference (engine (Worker_init engine_ok)) (request task_pending)
          = ((Yield ∘ Segment) <$> [[Byte.x01]]) ++ Yield (Final [1; 2; 3]%Z) :: [])
    as H5 by reflexivity.
  assert (sf_write demo_ext [1; 2; 3]%Z (sample_rate (engine (Worker_init engine_ok)))
            (format (request task_pending)) = Ok artifact_a) as H6 by reflexivity.
  assert (deny_write (fs (world_submitted engine_ok))
            !! path_str demo_ext (temp_dir (world_submitted engine_ok))
                 (artifact_name task_pending) = None) as H7
    by (vm_compute; reflexivity).
  exact (conj H0 (conj H0' (conj H0''
           (download_after_success demo_ext demo_content_type
              (world_submitted engine_ok) "a" 0 task_pending (Worker_init engine_ok)
              [[Byte.x01]] [1; 2; 3]%Z [] artifact_a
              H0 H0' H0'' H1 H2 H3 H4 H5 H6 H7)))).
Defined.

Lemma cancelled_in_loop_witness :
  heap world_cancelled_in_loop !! 0 = Some task_cancelled_in_loop
  ∧ threads world_cancelled_in_loop !! 0 = Some worker_in_loop
  ∧ pc worker_in_loop = L131
  ∧ gen worker_in_loop = Yield (Segment [Byte.x01]) :: [Yield (Final [1; 2; 3]%Z)]
  ∧ cancelled task_cancelled_in_loop = true
  ∧ result_path task_cancelled_in_loop = None
  ∧ heap (worker_run demo_ext 0 4 world_cancelled_in_loop) !! 0
    = Some (with_status CANCELLED task_cancelled_in_loop).
Proof.
  assert (heap world_cancelled_in_loop !! 0 = Some task_cancelled_in_loop) as H1
    by (vm_compute; reflexivity).
  assert (threads world_cancelled_in_loop !! 0 = Some worker_in_loop) as H2
    by (vm_compute; reflexivity).
  assert (pc worker_in_loop = L131) as H3 by reflexivity.
  assert (gen worker_in_loop
          = Yield (Segment [Byte.x01]) :: [Yield (Final [1; 2; 3]%Z)]) as H4
    by reflexivity.
  assert (cancelled task_cancelled_in_loop = true) as H5 by reflexivity.
  assert (result_path task_cancelled_in_loop = None) as H6 by reflexivity.
  exact (conj H1 (conj H2 (conj H3 (conj H4 (conj H5 (conj H6
           (proj1 (cancelled_in_loop demo_ext world_cancelled_in_loop 0
                     task_cancelled_in_loop worker_in_loop _ _
                     H1 H2 H3 H4 H5 H6)))))))).
Defined.

Lemma get_task_status_registered_witness :
  reachable demo_ext world_done ∧ "a" ≠ ""
  ∧ tasks world_done !! "a" = Some 0
  ∧ heap world_done !! 0 = Some task_done
  ∧ get_task_status (Some "a") world_done
    = mkStatusResponse 200 true "a" "completed" 100 (Some 100%Z) (Some 100%Z)
        (Some "/download_result/a") None.
Proof.
  assert ("a" ≠ "") as H0 by discriminate.
  assert (tasks world_done !! "a" = Some 0) as H1 by (vm_compute; reflexivity).
  assert (heap world_done !! 0 = Some task_done) as H2 by (vm_compute; reflexivity).
  exact (conj reachable_world_done (conj H0 (conj H1 (conj H2
           (proj1 (get_task_status_registered demo_ext world_done "a" 0 task_done
                     reachable_world_done H0 H1 H2)))))).
Defined.

Lemma evicted_id_unknown_witness :
  expired 0 world_old "a" ∧ "a" ≠ ""
  ∧ get_task "a" (cleanup_old_tasks 0 world_old) = None.
Proof.
  assert (expired 0 world_old "a") as H1.
  { exists 0, task_done. split; [vm_compute; reflexivity|].
    split; vm_compute; reflexivity. }
  assert ("a" ≠ "") as H2 by discriminate.
  exact (conj H1 (conj H2
           (proj1 (evicted_id_unknown demo_content_type 0 world_old "a" request_a
                     H1 H2)))).
Defined.

Lemma worker_file_footprint_witness :
  reachable demo_ext world_late
  ∧ heap world_late !! 0 = Some task_running
  ∧ deny_unlink (fs (worker_step demo_ext 0 world_late)) = deny_unlink (fs world_late).
Proof.
  assert (reachable demo_ext world_late) as H1
    by apply reachable_run, reachable_world_submitted.
  assert (heap world_late !! 0 = Some task_running) as H2
    by (vm_compute; reflexivity).
  exact (conj H1 (conj H2
           (proj1 (worker_file_footprint demo_ext world_late 0 task_running H1 H2)))).
Defined.


Lemma ids_pass_alice_bob : ids_pass (lit "alice") (lit "bob").
Proof.
  repeat split; try (vm_compute; reflexivity).
  - intros H. vm_compute in H. discriminate.
  - vm_compute. lia.
Qed.

Lemma update_reference_invalid_ids_witness :
  ¬ ids_pass (lit "alice") (lit "bob/x")
  ∧ ∃ msg,
      update_reference demo_ref_dir (lit "alice") (lit "bob/x") store_a
      = (mkUpdateResponse 400 false msg (lit "alice") (lit "bob/x"),
         ref_logger (LogWarning (lit "Invalid input for update reference: " ++ msg))
           store_a).
Proof.
  assert (¬ ids_pass (lit "alice") (lit "bob/x")) as H.
  { intros (_ & _ & _ & H & _). vm_compute in H. discriminate. }
  destruct (update_reference_invalid_ids demo_ref_dir (lit "alice") (lit "bob/x")
              store_a H) as (msg & Heq & _).
  exact (conj H (ex_intro _ msg Heq)).
Defined.

Lemma update_reference_missing_or_conflict_witness :
  ids_pass (lit "alice") (lit "notes")
  ∧ entries store_a !! demo_ref_dir (lit "alice")
    = Some (Dir {[ lit "sample.wav" := [Byte.x01] ]})
  ∧ is_Some (entries store_a !! demo_ref_dir (lit "notes"))
  ∧ update_reference demo_ref_dir (lit "alice") (lit "notes") store_a
    = (mkUpdateResponse 409 false
         (lit "Reference ID '" ++ lit "notes" ++ lit "' already exists")
         (lit "alice") (lit "notes"), store_a).
Proof.
  assert (ids_pass (lit "alice") (lit "notes")) as H0.
  { repeat split; try (vm_compute; reflexivity).
    - intros H. vm_compute in H. discriminate.
    - vm_compute. lia. }
  assert (entries store_a !! demo_ref_dir (lit "alice")
          = Some (Dir {[ lit "sample.wav" := [Byte.x01] ]})) as H1
    by (vm_compute; reflexivity).
  assert (is_Some (entries store_a !! demo_ref_dir (lit "notes"))) as H2
    by (vm_compute; eauto).
  exact (conj H0 (conj H1 (conj H2
           (proj2 (update_reference_missing_or_conflict demo_ref_dir
                     (lit "alice") (lit "notes") store_a H0) _ H1 H2)))).
Defined.

Lemma update_reference_success_witness :
  ur_status_code (update_reference demo_ref_dir (lit "alice") (lit "bob") store_a).1
  = 200%Z
  ∧ entries (update_reference demo_ref_dir (lit "alice") (lit "bob") store_a).2
    !! demo_ref_dir (lit "bob")
    = entries store_a !! demo_ref_dir (lit "alice").
Proof.
  assert (ur_status_code
            (update_reference demo_ref_dir (lit "alice") (lit "bob") store_a).1
          = 200%Z) as H by (vm_compute; reflexivity).
  exact (conj H
           (proj1 (proj2 (proj2 (update_reference_success demo_ref_dir
                                   (lit "alice") (lit "bob") store_a) H)))).
Defined.

Lemma update_reference_failure_atomic_witness :
  ur_status_code (update_reference demo_ref_dir (lit "carol") (lit "bob") store_a).1
  ≠ 200%Z
  ∧ entries (update_reference demo_ref_dir (lit "carol") (lit "bob") store_a).2
    = entries store_a.
Proof.
  assert (ur_status_code
            (update_reference demo_ref_dir (lit "carol") (lit "bob") store_a).1
          ≠ 200%Z) as H by (vm_compute; discriminate).
  exact (conj H
           (proj1 (proj2 (proj2 (proj1 (update_reference_failure_atomic demo_ref_dir
                                          (lit "carol") (lit "bob") store_a) H))))).
Defined.

Lemma update_reference_rename_refused_witness :
  ids_pass (lit "alice") (lit "bob")
  ∧ entries store_locked !! demo_ref_dir (lit "alice")
    = Some (Dir {[ lit "sample.wav" := [Byte.x01] ]})
  ∧ entries store_locked !! demo_ref_dir (lit "bob") = None
  ∧ deny_rename store_locked !! demo_ref_dir (lit "alice")
    = Some (mkError "PermissionError" (lit "[Errno 13] Permission denied"))
  ∧ entries (update_reference demo_ref_dir (lit "alice") (lit "bob") store_locked).2
    = entries store_locked.
Proof.
  assert (entries store_locked !! demo_ref_dir (lit "alice")
          = Some (Dir {[ lit "sample.wav" := [Byte.x01] ]})) as H1
    by (vm_compute; reflexivity).
  assert (entries store_locked !! demo_ref_dir (lit "bob") = None) as H2
    by (vm_compute; reflexivity).
  assert (deny_rename store_locked !! demo_ref_dir (lit "alice")
          = Some (mkError "PermissionError" (lit "[Errno 13] Permission denied")))
    as H3 by (vm_compute; reflexivity).
  exact (conj ids_pass_alice_bob (conj H1 (conj H2 (conj H3
           (proj1 (proj2 (update_reference_rename_refused demo_ref_dir
                            (lit "alice") (lit "bob") store_locked _ _
                            ids_pass_alice_bob H1 H2 H3))))))).
Defined.

Lemma update_reference_round_trip_witness :
  ur_status_code (update_reference demo_ref_dir (lit "alice") (lit "bob") store_a).1
  = 200%Z
  ∧ re_match id_pattern (lit "alice") = true
  ∧ length (lit "alice") ≤ 255
  ∧ ref_by_id store_a !! lit "bob" = None
  ∧ deny_rename store_a !! demo_ref_dir (lit "bob") = None
  ∧ (update_reference demo_ref_dir (lit "bob") (lit "alice")
       (update_reference demo_ref_dir (lit "alice") (lit "bob") store_a).2).2
    = store_a.
Proof.
  assert (ur_status_code
            (update_reference demo_ref_dir (lit "alice") (lit "bob") store_a).1
          = 200%Z) as H1 by (vm_compute; reflexivity).
  assert (re_match id_pattern (lit "alice") = true) as H2 by (vm_compute; reflexivity).
  assert (length (lit "alice") ≤ 255) as H3 by (vm_compute; lia).
  assert (ref_by_id store_a !! lit "bob" = None) as H4 by (vm_compute; reflexivity).
  assert (deny_rename store_a !! demo_ref_dir (lit "bob") = None) as H5
    by (vm_compute; reflexivity).
  exact (conj H1 (conj H2 (conj H3 (conj H4 (conj H5
           (proj2 (update_reference_round_trip demo_ref_dir (lit "alice") (lit "bob")
                     store_a H1 H2 H3 H4 H5))))))).
Defined.

Lemma stop_async_task_spec_witness :
  "a" ≠ ""
  ∧ tasks world_running !! "a" = Some 0
  ∧ heap world_running !! 0 = Some task_running
  ∧ ts_status (get_task_status (Some "a") (stop_async_task "a" world_running).2)
    = "cancelled".
Proof.
  assert ("a" ≠ "") as H0 by discriminate.
  assert (tasks world_running !! "a" = Some 0) as H1 by (vm_compute; reflexivity).
  assert (heap world_running !! 0 = Some task_running) as H2
    by (vm_compute; reflexivity).
  exact (conj H0 (conj H1 (conj H2
           (proj1 (proj2 (proj2 (proj2 (proj2
              (proj2 (stop_async_task_spec world_running "a" H0)
                 0 task_running H1 H2))))))))).
Defined.

Lemma stop_generation_spec_witness :
  reachable demo_ext world_running
  ∧ (stop_generation (stop_generation world_running).2).1
    = mkResponse 200 true "Stopped 0 task(s)" "" "".
Proof.
  assert (reachable demo_ext world_running) as H
    by apply reachable_run, reachable_world_submitted.
  exact (conj H (proj2 (proj2 (stop_generation_spec demo_ext world_running H)))).
Defined.
